(** * A shallow embedding of the QR-code request core

    The development follows the TypeScript sources: the value objects
    ([Size], [ColorValue], [ErrorCorrectionLevelValue], [OutputFormatValue],
    [DataPayload], [Logo]), the [QRCodeConfiguration] aggregate with its
    hash key, the validation use case, the in-memory cache repository and
    the two cache-facing use cases.

    Conventions.
    - A JavaScript string is the list of its UTF-16 code units, each a [Z].
    - A JavaScript number that the code tests with [Number.isInteger],
      [isNaN] or compares with integer bounds is a [number]: an integer,
      [NaN] or a signed infinity, which is what [parseInt] returns.  The
      numbers of a request come from [parseInt] in the controller, and the
      channels of a colour from [parseInt] in [ColorValue.create].  Finite
      fractions are left out of the model.  A fractional margin, quiet zone
      or logo size would be refused by the [Number.isInteger] test that
      refuses [NaN]; a function that would accept a fraction, such as
      [ColorValue.fromRGB], is modelled on the other numbers only, and no
      statement below speaks of a fractional argument.
    - A function that may [throw] returns a [Result]; the thrown [Error] is
      a constructor of [DomainError] that records the throw site and the
      values interpolated in its message.
    - [Date.now()] is an explicit argument [now] (milliseconds). *)

From Stdlib Require Import ZArith List String Ascii Bool Lia.
Import ListNotations.
Open Scope Z_scope.

(* ================================================================== *)
(** * Part I: definitions                                              *)
(* ================================================================== *)

(** ** JavaScript strings and numbers *)

Module JS.

Definition jsstring := list Z.

(** The code units of an ASCII literal of the source. *)
Definition lit (s : string) : jsstring :=
  map (fun a => Z.of_N (N_of_ascii a)) (list_ascii_of_string s).

Fixpoint streq (a b : jsstring) : bool :=
  match a, b with
  | [], [] => true
  | x :: a', y :: b' => (x =? y) && streq a' b'
  | _, _ => false
  end.

Definition length (s : jsstring) : Z := Z.of_nat (List.length s).

(** [WhiteSpace] and [LineTerminator] of ECMAScript: what [trim] and
    [parseInt] strip. *)
Definition isWhiteSpace (c : Z) : bool :=
  ((9 <=? c) && (c <=? 13)) || (c =? 32) || (c =? 160) || (c =? 5760)
  || ((8192 <=? c) && (c <=? 8202)) || (c =? 8232) || (c =? 8233)
  || (c =? 8239) || (c =? 8287) || (c =? 12288) || (c =? 65279).

Fixpoint trimStart (s : jsstring) : jsstring :=
  match s with
  | c :: r => if isWhiteSpace c then trimStart r else s
  | [] => []
  end.

Definition trimEnd (s : jsstring) : jsstring := rev (trimStart (rev s)).

Definition trim (s : jsstring) : jsstring := trimEnd (trimStart s).

Fixpoint startsWith (s p : jsstring) : bool :=
  match p, s with
  | [], _ => true
  | x :: p', y :: s' => (x =? y) && startsWith s' p'
  | _ :: _, [] => false
  end.

Definition endsWith (s p : jsstring) : bool := startsWith (rev s) (rev p).

(** [s.includes(c)] for a one-unit needle. *)
Definition includesChar (s : jsstring) (c : Z) : bool :=
  existsb (Z.eqb c) s.

(** [list.includes(s)] on an array of strings. *)
Definition includes (l : list jsstring) (s : jsstring) : bool :=
  existsb (streq s) l.

(** [s.split(c)] for a one-unit separator. *)
Fixpoint split (c : Z) (s : jsstring) : list jsstring :=
  match s with
  | [] => [[]]
  | x :: r =>
      if x =? c then [] :: split c r
      else match split c r with
           | h :: t => (x :: h) :: t
           | [] => [[x]]
           end
  end.

(** [s.replace(c, '')]: only the first occurrence goes. *)
Fixpoint removeFirst (c : Z) (s : jsstring) : jsstring :=
  match s with
  | [] => []
  | x :: r => if x =? c then r else x :: removeFirst c r
  end.

(** [l.join(sep)] *)
Fixpoint join (sep : jsstring) (l : list jsstring) : jsstring :=
  match l with
  | [] => []
  | [x] => x
  | x :: r => x ++ sep ++ join sep r
  end.

Inductive number : Type :=
| Int (z : Z)
| NaN
| Infinity (negative : bool).

Definition isInteger (n : number) : bool :=
  match n with Int _ => true | _ => false end.

Definition isNaN (n : number) : bool :=
  match n with NaN => true | _ => false end.

(** [a < b] and [a > b] against an integer bound. *)
Definition ltZ (n : number) (b : Z) : bool :=
  match n with
  | Int z => z <? b
  | NaN => false
  | Infinity neg => neg
  end.

Definition gtZ (n : number) (b : Z) : bool :=
  match n with
  | Int z => b <? z
  | NaN => false
  | Infinity neg => negb neg
  end.

(** Truthiness of a number: [0] and [NaN] are falsy. *)
Definition truthy (n : number) : bool :=
  match n with
  | Int z => negb (z =? 0)
  | NaN => false
  | Infinity _ => true
  end.

Definition digitValue (c : Z) : option Z :=
  if (48 <=? c) && (c <=? 57) then Some (c - 48)
  else if (97 <=? c) && (c <=? 122) then Some (c - 87)
  else if (65 <=? c) && (c <=? 90) then Some (c - 55)
  else None.

Definition radixDigit (radix c : Z) : option Z :=
  match digitValue c with
  | Some d => if d <? radix then Some d else None
  | None => None
  end.

(** The value of the longest prefix of digits; [None] when it is empty. *)
Fixpoint parseDigits (radix : Z) (acc : option Z) (s : jsstring) : option Z :=
  match s with
  | c :: r =>
      match radixDigit radix c with
      | Some d =>
          parseDigits radix
            (Some (match acc with Some a => a * radix + d | None => d end)) r
      | None => acc
      end
  | [] => acc
  end.

(** Integers from here on round to [Infinity] as a double. *)
Definition doubleOverflow : Z := 2 ^ 1024 - 2 ^ 970.

(** [parseInt(s, radix)] for radix 10 and 16.  The integer returned is the
    mathematical value of the digits; the double that JavaScript holds is
    the nearest one, which lies on the same side of every bound the code
    compares it with.  Above 2^53 the two can differ, and then only in the
    digits that a message prints for the offending value. *)
Definition parseInt (s : jsstring) (radix : Z) : number :=
  let s := trimStart s in
  let '(neg, s) :=
    match s with
    | c :: r =>
        if c =? 45 then (true, r)
        else if c =? 43 then (false, r)
        else (false, s)
    | [] => (false, s)
    end in
  let s :=
    if radix =? 16 then
      match s with
      | z :: x :: r =>
          if (z =? 48) && ((x =? 120) || (x =? 88)) then r else s
      | _ => s
      end
    else s in
  match parseDigits radix None s with
  | None => NaN
  | Some v =>
      if doubleOverflow <=? v then Infinity neg
      else Int (if neg then - v else v)
  end.

Definition digitChar (d : Z) : Z := if d <? 10 then 48 + d else 87 + d.

(** Digits of a non-negative integer, least significant first. *)
Fixpoint digitsLSB (fuel : nat) (radix n : Z) : list Z :=
  match fuel with
  | O => []
  | S f =>
      (n mod radix) :: (if n <? radix then [] else digitsLSB f radix (n / radix))
  end.

(** [n.toString(radix)] for an integer [n] (decimal below 10^21). *)
Definition intToString (radix n : Z) : jsstring :=
  let m := Z.abs n in
  let ds := map digitChar (rev (digitsLSB (S (Z.to_nat (Z.log2 m))) radix m)) in
  if n <? 0 then 45 :: ds else ds.

(** [String(n)]: an integer prints in full decimal.  JavaScript writes
    integers from 10^21 on with an exponent, which changes the text of a
    message about such a value and nothing else. *)
Definition numberToString (n : number) : jsstring :=
  match n with
  | Int z => intToString 10 z
  | NaN => lit "NaN"
  | Infinity neg => if neg then lit "-Infinity" else lit "Infinity"
  end.

(** [s.padStart(2, '0')] *)
Definition padStart2 (s : jsstring) : jsstring :=
  match s with
  | [] => [48; 48]
  | [x] => [48; x]
  | _ => s
  end.

End JS.

Import JS.

(** ** Thrown errors *)

Inductive Result (E A : Type) : Type :=
| Ok (a : A)
| Throw (e : E).
Arguments Ok {E A} a.
Arguments Throw {E A} e.

Definition isOk {E A} (r : Result E A) : bool :=
  match r with Ok _ => true | Throw _ => false end.

Definition bind {E A B} (r : Result E A) (k : A -> Result E B) : Result E B :=
  match r with
  | Ok a => k a
  | Throw e => Throw e
  end.

Notation "'let*' x ':=' r 'in' k" := (bind r (fun x => k))
  (at level 10, x pattern, r at level 100, k at level 200).

Inductive Channel : Type := Red | Green | Blue.

(** One constructor for each [throw new Error(...)] of the domain layer. *)
Inductive DomainError : Type :=
| SizeNotIntegers
| SizeWidthRange
| SizeHeightRange
| SizeFormat
| ColorFormat (input : jsstring)
| ColorHexFormat (hex : jsstring)
| ColorRGBFormat (rgb : jsstring)
| ColorRGBValues (rgb : jsstring)
| ColorComponent (c : Channel) (value : number)
| EccInvalid (level : jsstring)
| FormatInvalid (format : jsstring)
| DataEmpty
| DataTooLong
| DataInvalidUrl
| UrlTypeError
| LogoSourceEmpty
| LogoPrivateHost
| LogoExtension
| LogoInvalidSource (source : jsstring)
| LogoSizeRange
| LogoMarginRange
| ConfigMargin
| ConfigQuietZone
| ConfigCharsetIncompatible (charset : jsstring)
| ConfigSourceCharset (charset : jsstring)
| ConfigTargetCharset (charset : jsstring).

Definition channelName (c : Channel) : jsstring :=
  match c with
  | Red => lit "red"
  | Green => lit "green"
  | Blue => lit "blue"
  end.

(** [error.message] *)
Definition errorMessage (e : DomainError) : jsstring :=
  match e with
  | SizeNotIntegers => lit "Width and height must be integers"
  | SizeWidthRange => lit "Width must be between 10 and 1000 pixels"
  | SizeHeightRange => lit "Height must be between 10 and 1000 pixels"
  | SizeFormat => lit "Size must be in format WxH (e.g., 200x200)"
  | ColorFormat input =>
      lit "Invalid color format: " ++ input
      ++ lit ". Use hex (#RRGGBB or RRGGBB) or RGB (r-g-b) format"
  | ColorHexFormat hex => lit "Invalid hex color format: " ++ hex
  | ColorRGBFormat rgb =>
      lit "Invalid RGB format: " ++ rgb ++ lit ". Use format r-g-b"
  | ColorRGBValues rgb =>
      lit "Invalid RGB values: " ++ rgb ++ lit ". All values must be integers"
  | ColorComponent c value =>
      lit "Invalid " ++ channelName c ++ lit " value: " ++ numberToString value
      ++ lit ". Must be between 0 and 255"
  | EccInvalid level =>
      lit "Invalid error correction level: " ++ level
      ++ lit ". Valid values: L, M, Q, H"
  | FormatInvalid format =>
      lit "Invalid output format: " ++ format
      ++ lit ". Valid formats: png, gif, jpeg, jpg, svg, eps"
  | DataEmpty => lit "Data content cannot be empty"
  | DataTooLong => lit "Data content cannot exceed 900 characters"
  | DataInvalidUrl => lit "Invalid URL format in data content"
  | UrlTypeError => lit "Invalid URL"
  | LogoSourceEmpty => lit "Logo source cannot be empty"
  | LogoPrivateHost => lit "Private IP addresses and localhost are not allowed"
  | LogoExtension =>
      lit "Logo URL must point to a supported image format (PNG, JPG, JPEG, SVG)"
  | LogoInvalidSource source =>
      lit "Invalid logo source: " ++ source
      ++ lit ". Must be a valid URL or predefined logo identifier (google, facebook, twitter, linkedin)"
  | LogoSizeRange => lit "Logo size must be an integer between 10 and 200 pixels"
  | LogoMarginRange => lit "Logo margin must be an integer between 0 and 50 pixels"
  | ConfigMargin => lit "Margin must be an integer between 0 and 50 pixels"
  | ConfigQuietZone => lit "Quiet zone must be an integer between 0 and 100 modules"
  | ConfigCharsetIncompatible charset =>
      lit "Data content is not compatible with charset: " ++ charset
  | ConfigSourceCharset charset =>
      lit "Unsupported source charset: " ++ charset
      ++ lit ". Supported: UTF-8, ISO-8859-1"
  | ConfigTargetCharset charset =>
      lit "Unsupported target charset: " ++ charset
      ++ lit ". Supported: UTF-8, ISO-8859-1"
  end.

Definition Res := Result DomainError.

(** ** What the runtime supplies

    Unicode case mapping, the WHATWG URL parser and IEEE-754 arithmetic
    (with [Math.pow]) are not re-implemented: the development is
    parametric in them. *)

Record URL : Type := mkURL {
  protocol : jsstring;
  hostname : jsstring;
  pathname : jsstring
}.

Class Platform : Type := {
  toUpperCase : jsstring -> jsstring;
  toLowerCase : jsstring -> jsstring;
  (** [new URL(s)]; [None] when the constructor throws. *)
  newURL : jsstring -> option URL;
  double : Type;
  (** [0.2126 * sRGB(r) + 0.7152 * sRGB(g) + 0.0722 * sRGB(b)] *)
  luminance : number -> number -> number -> double;
  fmax : double -> double -> double;
  fmin : double -> double -> double;
  fadd : double -> double -> double;
  fdiv : double -> double -> double;
  fgeb : double -> double -> bool;
  f0_05 : double;
  f3_0 : double
}.

(** ** Size *)

Module Size.

Record t : Type := mk { width : Z; height : Z }.

Definition create (width height : number) : Res t :=
  if negb (isInteger width) || negb (isInteger height) then
    Throw SizeNotIntegers
  else if ltZ width 10 || gtZ width 1000 then Throw SizeWidthRange
  else if ltZ height 10 || gtZ height 1000 then Throw SizeHeightRange
  else
    match width, height with
    | Int w, Int h => Ok (mk w h)
    | _, _ => Throw SizeNotIntegers
    end.

Definition isDigit (c : Z) : bool := (48 <=? c) && (c <=? 57).

(** The longest prefix matched by [\d*] and what follows it. *)
Fixpoint takeDigits (s : jsstring) : jsstring * jsstring :=
  match s with
  | c :: r =>
      if isDigit c then let '(d, rest) := takeDigits r in (c :: d, rest)
      else ([], s)
  | [] => ([], [])
  end.

(** [sizeStr.match(/^(\d+)x(\d+)$/i)]: the two captured groups. *)
Definition matchWxH (s : jsstring) : option (jsstring * jsstring) :=
  let '(w, rest) := takeDigits s in
  match w, rest with
  | _ :: _, x :: rest' =>
      if (x =? 120) || (x =? 88) then
        let '(h, rest'') := takeDigits rest' in
        match h, rest'' with
        | _ :: _, [] => Some (w, h)
        | _, _ => None
        end
      else None
  | _, _ => None
  end.

Definition fromString (sizeStr : jsstring) : Res t :=
  match matchWxH sizeStr with
  | None => Throw SizeFormat
  | Some (m1, m2) =>
      let width := parseInt m1 10 in
      let height := parseInt m2 10 in
      create width height
  end.

Definition default : t := mk 200 200.

Definition toString (s : t) : jsstring :=
  intToString 10 (width s) ++ lit "x" ++ intToString 10 (height s).

Definition equals (a b : t) : bool :=
  (width a =? width b) && (height a =? height b).

Definition isSquare (s : t) : bool := width s =? height s.

Definition getArea (s : t) : Z := width s * height s.

End Size.

(** ** ErrorCorrectionLevel *)

Module ErrorCorrectionLevelValue.

Inductive ErrorCorrectionLevel : Type := LOW | MEDIUM | QUARTILE | HIGH.

Definition t := ErrorCorrectionLevel.

Definition toString (e : t) : jsstring :=
  match e with
  | LOW => lit "L"
  | MEDIUM => lit "M"
  | QUARTILE => lit "Q"
  | HIGH => lit "H"
  end.

(** [Object.values(ErrorCorrectionLevel)] *)
Definition values : list t := [LOW; MEDIUM; QUARTILE; HIGH].

Definition create `{Platform} (level : jsstring) : Res t :=
  let upperLevel := toUpperCase level in
  match find (fun e => streq (toString e) upperLevel) values with
  | None => Throw (EccInvalid level)
  | Some e => Ok e
  end.

Definition default : t := LOW.

Definition equals (a b : t) : bool := streq (toString a) (toString b).

End ErrorCorrectionLevelValue.

(** ** OutputFormat *)

Module OutputFormatValue.

Inductive OutputFormat : Type := PNG | GIF | JPEG | JPG | SVG | EPS.

Definition t := OutputFormat.

Definition toString (f : t) : jsstring :=
  match f with
  | PNG => lit "png"
  | GIF => lit "gif"
  | JPEG => lit "jpeg"
  | JPG => lit "jpg"
  | SVG => lit "svg"
  | EPS => lit "eps"
  end.

Definition values : list t := [PNG; GIF; JPEG; JPG; SVG; EPS].

Definition create `{Platform} (format : jsstring) : Res t :=
  let lowerFormat := toLowerCase format in
  match find (fun f => streq (toString f) lowerFormat) values with
  | None => Throw (FormatInvalid format)
  | Some f => Ok f
  end.

Definition default : t := PNG.

Definition equals (a b : t) : bool := streq (toString a) (toString b).

Definition getMimeType (f : t) : jsstring :=
  match f with
  | PNG => lit "image/png"
  | GIF => lit "image/gif"
  | JPEG | JPG => lit "image/jpeg"
  | SVG => lit "image/svg+xml"
  | EPS => lit "application/postscript"
  end.

Definition isBitmapFormat (f : t) : bool :=
  existsb (fun x => streq (toString x) (toString f)) [PNG; GIF; JPEG; JPG].

Definition isVectorFormat (f : t) : bool :=
  existsb (fun x => streq (toString x) (toString f)) [SVG; EPS].

End OutputFormatValue.

(** ** ColorValue *)

Module ColorValue.

Record RGBColor : Type := mkRGB { r : number; g : number; b : number }.

Definition t := RGBColor.

Definition black : t := mkRGB (Int 0) (Int 0) (Int 0).

Definition white : t := mkRGB (Int 255) (Int 255) (Int 255).

Definition validateRGBComponent (value : number) (component : Channel)
  : Res unit :=
  if ltZ value 0 || gtZ value 255 then Throw (ColorComponent component value)
  else Ok tt.

Definition parseHexColor (hex : jsstring) : Res RGBColor :=
  let cleanHex := removeFirst 35 hex in
  match cleanHex with
  | [c0; c1; c2] =>
      let r := parseInt [c0; c0] 16 in
      let g := parseInt [c1; c1] 16 in
      let b := parseInt [c2; c2] 16 in
      if isNaN r || isNaN g || isNaN b then Throw (ColorHexFormat hex)
      else Ok (mkRGB r g b)
  | [c0; c1; c2; c3; c4; c5] =>
      let r := parseInt [c0; c1] 16 in
      let g := parseInt [c2; c3] 16 in
      let b := parseInt [c4; c5] 16 in
      if isNaN r || isNaN g || isNaN b then Throw (ColorHexFormat hex)
      else Ok (mkRGB r g b)
  | _ => Throw (ColorHexFormat hex)
  end.

Definition parseRGBString (rgbStr : jsstring) : Res RGBColor :=
  match split 45 rgbStr with
  | [p0; p1; p2] =>
      let r := parseInt p0 10 in
      let g := parseInt p1 10 in
      let b := parseInt p2 10 in
      if isNaN r || isNaN g || isNaN b then Throw (ColorRGBValues rgbStr)
      else
        let* _ := validateRGBComponent r Red in
        let* _ := validateRGBComponent g Green in
        let* _ := validateRGBComponent b Blue in
        Ok (mkRGB r g b)
  | _ => Throw (ColorRGBFormat rgbStr)
  end.

Definition isHexDigit (c : Z) : bool :=
  ((48 <=? c) && (c <=? 57)) || ((97 <=? c) && (c <=? 102))
  || ((65 <=? c) && (c <=? 70)).

(** [/^[0-9a-fA-F]{3}$|^[0-9a-fA-F]{6}$/.test(s)] *)
Definition isBareHex (s : jsstring) : bool :=
  ((List.length s =? 3)%nat || (List.length s =? 6)%nat) && forallb isHexDigit s.

Definition parseColor (colorInput : jsstring) : Res RGBColor :=
  if startsWith colorInput (lit "#") then parseHexColor colorInput
  else if includesChar colorInput 45 then parseRGBString colorInput
  else if isBareHex colorInput then parseHexColor (35 :: colorInput)
  else Throw (ColorFormat colorInput).

Definition create (colorInput : jsstring) : Res t := parseColor colorInput.

Definition toHex (c : t) : jsstring :=
  let toHex := fun n : number =>
    padStart2 (match n with
               | Int z => intToString 16 z
               | _ => numberToString n
               end) in
  lit "#" ++ toHex (r c) ++ toHex (g c) ++ toHex (b c).

Definition toString (c : t) : jsstring := toHex c.

(** [===] on numbers. *)
Definition strictEq (x y : number) : bool :=
  match x, y with
  | Int a, Int b => a =? b
  | Infinity s, Infinity s' => Bool.eqb s s'
  | _, _ => false
  end.

Definition equals (x y : t) : bool :=
  strictEq (r x) (r y) && strictEq (g x) (g y) && strictEq (b x) (b y).

(** [ColorValue.fromRGB(r, g, b)].  The range test lets [NaN] through, as
    in the source; the source lets fractions between 0 and 255 through as
    well, which [number] does not hold.  The application builds its colours
    with [create] and never calls [fromRGB]. *)
Definition fromRGB (red green blue : number) : Res t :=
  let* _ := validateRGBComponent red Red in
  let* _ := validateRGBComponent green Green in
  let* _ := validateRGBComponent blue Blue in
  Ok (mkRGB red green blue).

Definition toRGBString (c : t) : jsstring :=
  numberToString (r c) ++ lit "-" ++ numberToString (g c) ++ lit "-"
  ++ numberToString (b c).

Section Contrast.
Context `{Platform}.

Definition getLuminance (c : t) : double := luminance (r c) (g c) (b c).

Definition getContrastRatio (c other : t) : double :=
  let l1 := getLuminance c in
  let l2 := getLuminance other in
  let lighter := fmax l1 l2 in
  let darker := fmin l1 l2 in
  fdiv (fadd lighter f0_05) (fadd darker f0_05).

Definition hasAccessibleContrast (c other : t) : bool :=
  fgeb (getContrastRatio c other) f3_0.

End Contrast.

End ColorValue.

(** ** DataPayload *)

Module DataPayload.

Record t : Type := mk { content : jsstring }.

Definition isUrlString (content : jsstring) : bool :=
  startsWith content (lit "http://") || startsWith content (lit "https://")
  || startsWith content (lit "ftp://").

Inductive Complexity : Type := low | medium | high.

Section WithPlatform.
Context `{Platform}.

Definition create (data : jsstring) : Res t :=
  if streq data [] || (JS.length (trim data) =? 0) then Throw DataEmpty
  else if JS.length data >? 900 then Throw DataTooLong
  else if isUrlString data then
    match newURL data with
    | Some _ => Ok (mk (trim data))
    | None => Throw DataInvalidUrl
    end
  else Ok (mk (trim data)).

Definition isCompatibleWithCharset (d : t) (charset : jsstring) : bool :=
  if streq (toUpperCase charset) (lit "ISO-8859-1") then
    forallb (fun charCode => negb (charCode >? 255)) (content d)
  else true.

End WithPlatform.

Definition getContent (d : t) : jsstring := content d.

Definition getLength (d : t) : Z := JS.length (content d).

Definition toString (d : t) : jsstring := content d.

Definition equals (a b : t) : bool := streq (content a) (content b).

Definition isUrl (d : t) : bool := isUrlString (content d).

Definition getComplexityLevel (d : t) : Complexity :=
  if JS.length (content d) <=? 100 then low
  else if JS.length (content d) <=? 400 then medium
  else high.

End DataPayload.

(** ** Logo *)

Module Logo.

Record t : Type := mk { source : jsstring; size : Z; margin : Z }.

Definition supportedExtensions : list jsstring :=
  [lit ".png"; lit ".jpg"; lit ".jpeg"; lit ".svg"].

Definition predefinedLogos : list jsstring :=
  [lit "google"; lit "facebook"; lit "twitter"; lit "linkedin"; lit "github";
   lit "apple"].

Definition validateSize (size : number) : Res Z :=
  match size with
  | Int z => if (z <? 10) || (z >? 200) then Throw LogoSizeRange else Ok z
  | _ => Throw LogoSizeRange
  end.

Definition validateMargin (margin : number) : Res Z :=
  match margin with
  | Int z => if (z <? 0) || (z >? 50) then Throw LogoMarginRange else Ok z
  | _ => Throw LogoMarginRange
  end.

Section WithPlatform.
Context `{Platform}.

Definition isUrl (source : jsstring) : bool :=
  match newURL source with
  | Some url => includes [lit "http:"; lit "https:"] (protocol url)
  | None => false
  end.

(** The private-host test of [validateUrl]. *)
Definition isPrivateHost (hostname : jsstring) : bool :=
  streq hostname (lit "localhost") || streq hostname (lit "127.0.0.1")
  || startsWith hostname (lit "192.168.") || startsWith hostname (lit "10.")
  || startsWith hostname (lit "172.").

Definition validateUrl (source : jsstring) : Res unit :=
  match newURL source with
  | Some url =>
      if isPrivateHost (hostname url) then Throw LogoPrivateHost
      else
        let path := toLowerCase (pathname url) in
        if negb (existsb (fun ext => endsWith path ext) supportedExtensions)
        then Throw LogoExtension
        else Ok tt
  | None =>
      (* [new URL] throws a [TypeError], an [Error]: it is rethrown as is.
         [isUrl] has parsed the same string before, so this is not reached. *)
      Throw UrlTypeError
  end.

Definition isPredefinedLogo (source : jsstring) : bool :=
  includes predefinedLogos (toLowerCase source).

Definition validateSource (source : jsstring) : Res jsstring :=
  if streq source [] || (JS.length (trim source) =? 0) then
    Throw LogoSourceEmpty
  else
    let trimmedSource := trim source in
    if isUrl trimmedSource then
      let* _ := validateUrl trimmedSource in Ok trimmedSource
    else if isPredefinedLogo trimmedSource then Ok trimmedSource
    else Throw (LogoInvalidSource source).

(** [Logo.create(source, size?, margin?)]; [None] is [undefined]. *)
Definition create (source : jsstring) (size margin : option number) : Res t :=
  let* validatedSource := validateSource source in
  let* validatedSize :=
    validateSize (match size with
                  | Some n => if truthy n then n else Int 50
                  | None => Int 50
                  end) in
  let* validatedMargin :=
    validateMargin (match margin with Some n => n | None => Int 5 end) in
  Ok (mk validatedSource validatedSize validatedMargin).

Definition logoMap : list (jsstring * jsstring) :=
  [ (lit "google",
     lit "https://www.google.com/images/branding/googlelogo/2x/googlelogo_color_272x92dp.png");
    (lit "facebook",
     lit "https://upload.wikimedia.org/wikipedia/commons/5/51/Facebook_f_logo_%282019%29.svg");
    (lit "twitter",
     lit "https://upload.wikimedia.org/wikipedia/commons/6/6f/Logo_of_Twitter.svg");
    (lit "linkedin",
     lit "https://upload.wikimedia.org/wikipedia/commons/c/ca/LinkedIn_logo_initials.png");
    (lit "github",
     lit "https://github.githubassets.com/images/modules/logos_page/GitHub-Mark.png");
    (lit "apple",
     lit "https://upload.wikimedia.org/wikipedia/commons/f/fa/Apple_logo_black.svg") ].

(** [logoMap[key] || null]; the lookup is made for the keys that
    [isPredefinedLogo] accepts, which are own properties of the object. *)
Definition lookupLogo (key : jsstring) : option jsstring :=
  match find (fun kv => streq (fst kv) key) logoMap with
  | Some (_, ((_ :: _) as url)) => Some url
  | _ => None
  end.

Definition getPredefinedLogoUrl (this : t) : option jsstring :=
  if negb (isPredefinedLogo (source this)) then None
  else lookupLogo (toLowerCase (source this)).

(** The error of a [throw] is given by its message. *)
Definition getEffectiveUrl (this : t) : Result jsstring jsstring :=
  if isUrl (source this) then Ok (source this)
  else
    match getPredefinedLogoUrl this with
    | Some predefinedUrl => Ok predefinedUrl
    | None => Throw (lit "Unable to resolve logo URL for: " ++ source this)
    end.

Definition equals (a b : t) : bool :=
  streq (source a) (source b) && (size a =? size b) && (margin a =? margin b).

End WithPlatform.

End Logo.

(** ** Buffer: UTF-8 and base64 *)

Module Buffer.

Definition isHighSurrogate (c : Z) : bool := (55296 <=? c) && (c <=? 56319).

Definition isLowSurrogate (c : Z) : bool := (56320 <=? c) && (c <=? 57343).

(** The code points of a string; an unpaired surrogate reads as U+FFFD,
    as in every UTF-8 conversion of Node. *)
Fixpoint toCodePoints (s : jsstring) : list Z :=
  match s with
  | [] => []
  | c :: r =>
      if isHighSurrogate c then
        match r with
        | d :: r' =>
            if isLowSurrogate d then
              (65536 + (c - 55296) * 1024 + (d - 56320)) :: toCodePoints r'
            else 65533 :: toCodePoints r
        | [] => [65533]
        end
      else if isLowSurrogate c then 65533 :: toCodePoints r
      else c :: toCodePoints r
  end.

Definition encodeCodePoint (cp : Z) : list Z :=
  if cp <? 128 then [cp]
  else if cp <? 2048 then [192 + cp / 64; 128 + cp mod 64]
  else if cp <? 65536 then
    [224 + cp / 64 / 64; 128 + (cp / 64) mod 64; 128 + cp mod 64]
  else
    [240 + cp / 64 / 64 / 64; 128 + (cp / 64 / 64) mod 64;
     128 + (cp / 64) mod 64; 128 + cp mod 64].

(** [Buffer.from(str)]: the bytes of the UTF-8 encoding. *)
Definition from (s : jsstring) : list Z :=
  flat_map encodeCodePoint (toCodePoints s).

Definition alphabet : jsstring :=
  lit "ABCDEFGHIJKLMNOPQRSTUVWXYZabcdefghijklmnopqrstuvwxyz0123456789+/".

Definition b64char (n : Z) : Z := nth (Z.to_nat n) alphabet 61.

(** [buf.toString('base64')] *)
Fixpoint toBase64 (bytes : list Z) : jsstring :=
  match bytes with
  | [] => []
  | [a] => [b64char (a / 4); b64char ((a mod 4) * 16); 61; 61]
  | [a; b] =>
      [b64char (a / 4); b64char ((a mod 4) * 16 + b / 16);
       b64char ((b mod 16) * 4); 61]
  | a :: b :: c :: r =>
      [b64char (a / 4); b64char ((a mod 4) * 16 + b / 16);
       b64char ((b mod 16) * 4 + c / 64); b64char (c mod 64)]
      ++ toBase64 r
  end.

End Buffer.

(** ** QRCodeConfiguration *)

Module QRCodeConfiguration.

Record QRCodeConfigurationParams : Type := mkParams {
  p_data : DataPayload.t;
  p_size : option Size.t;
  p_format : option OutputFormatValue.t;
  p_errorCorrectionLevel : option ErrorCorrectionLevelValue.t;
  p_foregroundColor : option ColorValue.t;
  p_backgroundColor : option ColorValue.t;
  p_margin : option number;
  p_quietZone : option number;
  p_charsetSource : option jsstring;
  p_charsetTarget : option jsstring
}.

Record t : Type := mk {
  data : DataPayload.t;
  size : Size.t;
  format : OutputFormatValue.t;
  errorCorrectionLevel : ErrorCorrectionLevelValue.t;
  foregroundColor : ColorValue.t;
  backgroundColor : ColorValue.t;
  margin : Z;
  quietZone : Z;
  charsetSource : jsstring;
  charsetTarget : jsstring
}.

Definition validateMargin (margin : option number) : Res Z :=
  let defaultMargin := 1 in
  match margin with
  | None => Ok defaultMargin
  | Some (Int z) => if (z <? 0) || (z >? 50) then Throw ConfigMargin else Ok z
  | Some _ => Throw ConfigMargin
  end.

Definition validateQuietZone (quietZone : option number) : Res Z :=
  let defaultQuietZone := 0 in
  match quietZone with
  | None => Ok defaultQuietZone
  | Some (Int z) =>
      if (z <? 0) || (z >? 100) then Throw ConfigQuietZone else Ok z
  | Some _ => Throw ConfigQuietZone
  end.

Definition supportedCharsets : list jsstring := [lit "UTF-8"; lit "ISO-8859-1"].

Definition contrastWarning : jsstring :=
  lit "Warning: Color combination may not meet WCAG AA accessibility standards".

(** [x || d] for an optional value whose every present value is truthy. *)
Definition orDefault {A} (x : option A) (d : A) : A :=
  match x with Some a => a | None => d end.

(** [s || d] for an optional string: the empty string is falsy too. *)
Definition orDefaultString (x : option jsstring) (d : jsstring) : jsstring :=
  match x with
  | Some [] | None => d
  | Some s => s
  end.

Section WithPlatform.
Context `{Platform}.

(** Returns the lines written with [console.warn]. *)
Definition validateConfiguration (this : t) : Res (list jsstring) :=
  if negb (DataPayload.isCompatibleWithCharset (data this) (charsetSource this))
  then Throw (ConfigCharsetIncompatible (charsetSource this))
  else if negb (includes supportedCharsets (charsetSource this))
  then Throw (ConfigSourceCharset (charsetSource this))
  else if negb (includes supportedCharsets (charsetTarget this))
  then Throw (ConfigTargetCharset (charsetTarget this))
  else if negb (ColorValue.hasAccessibleContrast (foregroundColor this)
                  (backgroundColor this))
  then Ok [contrastWarning]
  else Ok [].

(** [new QRCodeConfiguration(params)]: the object and the console output. *)
Definition new (params : QRCodeConfigurationParams) : Res (t * list jsstring) :=
  let data := p_data params in
  let size := orDefault (p_size params) Size.default in
  let format := orDefault (p_format params) OutputFormatValue.default in
  let errorCorrectionLevel :=
    orDefault (p_errorCorrectionLevel params) ErrorCorrectionLevelValue.default in
  let foregroundColor := orDefault (p_foregroundColor params) ColorValue.black in
  let backgroundColor := orDefault (p_backgroundColor params) ColorValue.white in
  let* margin := validateMargin (p_margin params) in
  let* quietZone := validateQuietZone (p_quietZone params) in
  let charsetSource := orDefaultString (p_charsetSource params) (lit "UTF-8") in
  let charsetTarget := orDefaultString (p_charsetTarget params) (lit "UTF-8") in
  let this := mk data size format errorCorrectionLevel foregroundColor
                backgroundColor margin quietZone charsetSource charsetTarget in
  let* warnings := validateConfiguration this in
  Ok (this, warnings).

End WithPlatform.

Definition equals (a b : t) : bool :=
  DataPayload.equals (data a) (data b)
  && Size.equals (size a) (size b)
  && OutputFormatValue.equals (format a) (format b)
  && ErrorCorrectionLevelValue.equals (errorCorrectionLevel a)
       (errorCorrectionLevel b)
  && ColorValue.equals (foregroundColor a) (foregroundColor b)
  && ColorValue.equals (backgroundColor a) (backgroundColor b)
  && (margin a =? margin b)
  && (quietZone a =? quietZone b)
  && streq (charsetSource a) (charsetSource b)
  && streq (charsetTarget a) (charsetTarget b).

Definition components (this : t) : list jsstring :=
  [ DataPayload.toString (data this);
    Size.toString (size this);
    OutputFormatValue.toString (format this);
    ErrorCorrectionLevelValue.toString (errorCorrectionLevel this);
    ColorValue.toString (foregroundColor this);
    ColorValue.toString (backgroundColor this);
    intToString 10 (margin this);
    intToString 10 (quietZone this);
    charsetSource this;
    charsetTarget this ].

Definition getHashKey (this : t) : jsstring :=
  Buffer.toBase64 (Buffer.from (join (lit "|") (components this))).

End QRCodeConfiguration.

(** ** ValidationResult *)

Module ValidationResult.

Inductive ValidationErrorType : Type :=
| INVALID_FORMAT
| OUT_OF_RANGE
| REQUIRED_FIELD
| INVALID_VALUE
| CONSTRAINT_VIOLATION.

Section WithPlatform.
Context `{Platform}.

(** The [value] of an error: what the use case attaches at each site. *)
Inductive OffendingValue : Type :=
| VString (s : jsstring)
| VNumber (n : number)
| VContrast (color bgcolor : jsstring) (ratio : double)
| VLogo (logo : jsstring) (logoSize logoMargin : option number)
| VLogoSize (logoSize : number) (qrSize : jsstring) (maxAllowed : Z).

Record ValidationError : Type := mkError {
  field : jsstring;
  message : jsstring;
  type : ValidationErrorType;
  value : option OffendingValue
}.

Record t : Type := mk {
  isValidFlag : bool;
  errors : list ValidationError
}.

Definition success : t := mk true [].

Definition failure (errors : list ValidationError) : t := mk false errors.

Definition single (error : ValidationError) : t := mk false [error].

Definition isValid (r : t) : bool := isValidFlag r.

Definition hasErrors (r : t) : bool := (0 <? List.length (errors r))%nat.

Definition getErrors (r : t) : list ValidationError := errors r.

Definition getErrorsForField (r : t) (f : jsstring) : list ValidationError :=
  filter (fun error => streq (field error) f) (errors r).

Definition hasErrorForField (r : t) (f : jsstring) : bool :=
  existsb (fun error => streq (field error) f) (errors r).

Definition getErrorMessages (r : t) : list jsstring := map message (errors r).

(** The method [combine(other)]. *)
Definition combine (this other : t) : t :=
  if isValidFlag this && isValidFlag other then success
  else failure (errors this ++ errors other).

(** The static [combine(results)]: the loop keeps [hasError] and
    [allErrors]. *)
Definition combineAll (results : list t) : t :=
  let '(hasError, allErrors) :=
    fold_left
      (fun (acc : bool * list ValidationError) (result : t) =>
         if negb (isValid result) then (true, snd acc ++ errors result)
         else acc)
      results (false, []) in
  if hasError then failure allErrors else success.

End WithPlatform.

End ValidationResult.

(** ** ValidateParametersUseCase *)

Module ValidateParametersUseCase.

Import ValidationResult.

(** [QRCodeRequestDTO]; [None] is a property that is absent or
    [undefined]. *)
Record QRCodeRequestDTO : Type := mkRequest {
  data : option jsstring;
  size : option jsstring;
  format : option jsstring;
  ecc : option jsstring;
  color : option jsstring;
  bgcolor : option jsstring;
  margin : option number;
  qzone : option number;
  charset_source : option jsstring;
  charset_target : option jsstring;
  logo : option jsstring;
  logo_size : option number;
  logo_margin : option number
}.

(** [a && b] on two optional values that are tested together. *)
Definition both {A B} (a : option A) (b : option B) : option (A * B) :=
  match a, b with
  | Some x, Some y => Some (x, y)
  | _, _ => None
  end.

(** [if (s)] on an optional string. *)
Definition present (s : option jsstring) : option jsstring :=
  match s with
  | Some [] | None => None
  | Some v => Some v
  end.

(** [if (n)] on an optional number. *)
Definition presentNumber (n : option number) : option number :=
  match n with
  | Some v => if truthy v then Some v else None
  | None => None
  end.

Section WithPlatform.
Context `{Platform}.

Definition validateData (data : option jsstring) : ValidationResult.t :=
  match present data with
  | None =>
      single (mkError (lit "data") (lit "Data field is required")
                REQUIRED_FIELD None)
  | Some data =>
      match DataPayload.create data with
      | Ok _ => success
      | Throw error =>
          single (mkError (lit "data") (errorMessage error) INVALID_VALUE
                    (Some (VString data)))
      end
  end.

Definition validateSize (size : jsstring) : ValidationResult.t :=
  match Size.fromString size with
  | Ok _ => success
  | Throw error =>
      single (mkError (lit "size") (errorMessage error) INVALID_FORMAT
                (Some (VString size)))
  end.

Definition validateFormat (format : jsstring) : ValidationResult.t :=
  match OutputFormatValue.create format with
  | Ok _ => success
  | Throw error =>
      single (mkError (lit "format") (errorMessage error) INVALID_VALUE
                (Some (VString format)))
  end.

Definition validateErrorCorrectionLevel (ecc : jsstring) : ValidationResult.t :=
  match ErrorCorrectionLevelValue.create ecc with
  | Ok _ => success
  | Throw error =>
      single (mkError (lit "ecc") (errorMessage error) INVALID_VALUE
                (Some (VString ecc)))
  end.

Definition validateColor (color field : jsstring) : ValidationResult.t :=
  match ColorValue.create color with
  | Ok _ => success
  | Throw error =>
      single (mkError field (errorMessage error) INVALID_FORMAT
                (Some (VString color)))
  end.

Definition validateMargin (margin : number) : ValidationResult.t :=
  if negb (isInteger margin) || ltZ margin 0 || gtZ margin 50 then
    single (mkError (lit "margin")
              (lit "Margin must be an integer between 0 and 50 pixels")
              OUT_OF_RANGE (Some (VNumber margin)))
  else success.

Definition validateQuietZone (qzone : number) : ValidationResult.t :=
  if negb (isInteger qzone) || ltZ qzone 0 || gtZ qzone 100 then
    single (mkError (lit "qzone")
              (lit "Quiet zone must be an integer between 0 and 100 modules")
              OUT_OF_RANGE (Some (VNumber qzone)))
  else success.

Definition validateCharset (charset field : jsstring) : ValidationResult.t :=
  let supportedCharsets := [lit "UTF-8"; lit "ISO-8859-1"] in
  if negb (includes supportedCharsets charset) then
    single (mkError field
              (lit "Unsupported charset: " ++ charset ++ lit ". Supported: "
               ++ join (lit ", ") supportedCharsets)
              INVALID_VALUE (Some (VString charset)))
  else success.

Definition validateColorContrast (color bgcolor : jsstring)
  : ValidationResult.t :=
  match ColorValue.create color with
  | Throw _ => success
  | Ok foreground =>
      match ColorValue.create bgcolor with
      | Throw _ => success
      | Ok background =>
          if negb (ColorValue.hasAccessibleContrast foreground background) then
            single (mkError (lit "color_contrast")
                      (lit "Color combination may not meet WCAG AA accessibility standards (contrast ratio < 4.5:1)")
                      CONSTRAINT_VIOLATION
                      (Some (VContrast color bgcolor
                               (ColorValue.getContrastRatio foreground
                                  background))))
          else success
      end
  end.

Definition validateLogo (logo : jsstring) (logoSize logoMargin : option number)
  : ValidationResult.t :=
  match Logo.create logo logoSize logoMargin with
  | Ok _ => success
  | Throw error =>
      single (mkError (lit "logo") (errorMessage error) INVALID_VALUE
                (Some (VLogo logo logoSize logoMargin)))
  end.

(** [logoSize > qrCodeSize * 0.3] for an integer [qrCodeSize] in
    [10, 1000]: the product is a multiple of one tenth, and the double
    nearest to it is the integer itself when it is one, so an integer
    [logoSize] exceeds it exactly when [10 * logoSize > 3 * qrCodeSize]. *)
Definition exceedsThreeTenths (logoSize : number) (qrCodeSize : Z) : bool :=
  match logoSize with
  | Int z => 10 * z >? 3 * qrCodeSize
  | NaN => false
  | Infinity neg => negb neg
  end.

Definition validateLogoSizeRelativeToQR (qrSize : jsstring) (logoSize : number)
  : ValidationResult.t :=
  match Size.fromString qrSize with
  | Throw _ => success
  | Ok size =>
      let qrCodeSize := Z.min (Size.width size) (Size.height size) in
      let floorMax := (3 * qrCodeSize) / 10 in
      if exceedsThreeTenths logoSize qrCodeSize then
        single (mkError (lit "logo_size")
                  (lit "Logo size (" ++ numberToString logoSize
                   ++ lit "px) is too large for QR code size (" ++ qrSize
                   ++ lit "). Maximum allowed size is "
                   ++ intToString 10 floorMax
                   ++ lit "px (30% of QR code size)")
                  CONSTRAINT_VIOLATION
                  (Some (VLogoSize logoSize qrSize floorMax)))
      else success
  end.

(** [if (!v.isValid()) errors.push(...v.getErrors())] *)
Definition pushErrors (errors : list ValidationError) (v : ValidationResult.t)
  : list ValidationError :=
  if negb (isValid v) then errors ++ getErrors v else errors.

(** [if (o) { const v = check(o); if (!v.isValid()) errors.push(...) }] *)
Definition checkWhen {A} (o : option A) (check : A -> ValidationResult.t)
  (errors : list ValidationError) : list ValidationError :=
  match o with
  | Some a => pushErrors errors (check a)
  | None => errors
  end.

Definition execute (request : QRCodeRequestDTO) : ValidationResult.t :=
  let errors := [] in
  (* Validate required data field *)
  let errors := pushErrors errors (validateData (data request)) in
  (* Validate optional fields *)
  let errors := checkWhen (present (size request)) validateSize errors in
  let errors := checkWhen (present (format request)) validateFormat errors in
  let errors :=
    checkWhen (present (ecc request)) validateErrorCorrectionLevel errors in
  let errors :=
    checkWhen (present (color request))
      (fun color => validateColor color (lit "color")) errors in
  let errors :=
    checkWhen (present (bgcolor request))
      (fun bgcolor => validateColor bgcolor (lit "bgcolor")) errors in
  let errors := checkWhen (margin request) validateMargin errors in
  let errors := checkWhen (qzone request) validateQuietZone errors in
  let errors :=
    checkWhen (present (charset_source request))
      (fun charset => validateCharset charset (lit "charset-source")) errors in
  let errors :=
    checkWhen (present (charset_target request))
      (fun charset => validateCharset charset (lit "charset-target")) errors in
  (* Validate logo parameters *)
  let errors :=
    checkWhen (present (logo request))
      (fun logo =>
         validateLogo logo (logo_size request) (logo_margin request))
      errors in
  (* Cross-field validations *)
  let errors :=
    checkWhen (both (present (color request)) (present (bgcolor request)))
      (fun cb => validateColorContrast (fst cb) (snd cb)) errors in
  (* Validate logo size relative to QR code size *)
  let errors :=
    checkWhen
      (both (both (present (logo request)) (present (size request)))
         (presentNumber (logo_size request)))
      (fun lsn => validateLogoSizeRelativeToQR (snd (fst lsn)) (snd lsn))
      errors in
  if (0 <? List.length errors)%nat then failure errors else success.

End WithPlatform.

End ValidateParametersUseCase.

(** ** QRCode *)

Module QRCode.

Record t : Type := mk {
  id : jsstring;
  createdAt : Z;
  configuration : QRCodeConfiguration.t;
  imageData : list Z
}.

Definition getId (q : t) : jsstring := id q.

Definition getDataSize (q : t) : Z := Z.of_nat (List.length (imageData q)).

Definition getMimeType (q : t) : jsstring :=
  OutputFormatValue.getMimeType (QRCodeConfiguration.format (configuration q)).

Definition getCacheKey (q : t) : jsstring :=
  QRCodeConfiguration.getHashKey (configuration q).

End QRCode.

(** ** A JavaScript [Map] with string keys

    Entries are kept in insertion order; [set] on a present key keeps its
    place. *)

Module JSMap.

Section Map.
Context {V : Type}.

Definition t := list (jsstring * V).

Fixpoint get (key : jsstring) (m : t) : option V :=
  match m with
  | [] => None
  | (k, v) :: r => if streq k key then Some v else get key r
  end.

Definition has (key : jsstring) (m : t) : bool :=
  match get key m with Some _ => true | None => false end.

Fixpoint set (key : jsstring) (v : V) (m : t) : t :=
  match m with
  | [] => [(key, v)]
  | (k, v') :: r => if streq k key then (k, v) :: r else (k, v') :: set key v r
  end.

Fixpoint delete (key : jsstring) (m : t) : t :=
  match m with
  | [] => []
  | (k, v) :: r => if streq k key then r else (k, v) :: delete key r
  end.

Definition size (m : t) : Z := Z.of_nat (List.length m).

End Map.

End JSMap.

(** ** InMemoryCacheRepository *)

Module InMemoryCacheRepository.

Record CacheEntry : Type := mkEntry {
  qrCode : QRCode.t;
  expiresAt : Z;
  createdAt : Z
}.

Record Stats : Type := mkStats {
  hits : Z;
  misses : Z;
  sets : Z;
  deletes : Z
}.

Record t : Type := mk {
  cache : list (jsstring * CacheEntry);
  stats : Stats;
  maxKeys : Z;
  defaultTTL : Z
}.

(** [new InMemoryCacheRepository(maxKeys, defaultTTL)] *)
Definition new (maxKeys defaultTTL : option Z) : t :=
  mk [] (mkStats 0 0 0 0)
    (match maxKeys with Some n => n | None => 1000 end)
    (match defaultTTL with Some n => n | None => 3600 end).

Definition withCache (this : t) (c : list (jsstring * CacheEntry)) : t :=
  mk c (stats this) (maxKeys this) (defaultTTL this).

Definition withStats (this : t) (s : Stats) : t :=
  mk (cache this) s (maxKeys this) (defaultTTL this).

Definition get (this : t) (now : Z) (key : jsstring) : option QRCode.t * t :=
  match JSMap.get key (cache this) with
  | None =>
      let s := stats this in
      (None, withStats this (mkStats (hits s) (misses s + 1) (sets s) (deletes s)))
  | Some entry =>
      if now >? expiresAt entry then
        let this := withCache this (JSMap.delete key (cache this)) in
        let s := stats this in
        (None,
         withStats this (mkStats (hits s) (misses s + 1) (sets s) (deletes s)))
      else
        let s := stats this in
        (Some (qrCode entry),
         withStats this (mkStats (hits s + 1) (misses s) (sets s) (deletes s)))
  end.

(** The loop of [evictOldest]: [None] for [oldestTime] is [Infinity]. *)
Definition scanOldest (c : list (jsstring * CacheEntry))
  : option jsstring * option Z :=
  fold_left
    (fun (acc : option jsstring * option Z) (kv : jsstring * CacheEntry) =>
       let '(oldestKey, oldestTime) := acc in
       let '(key, entry) := kv in
       if match oldestTime with
          | None => true
          | Some t => createdAt entry <? t
          end
       then (Some key, Some (createdAt entry))
       else (oldestKey, oldestTime))
    c (None, None).

Definition evictOldest (this : t) : t :=
  match fst (scanOldest (cache this)) with
  | Some (c :: k) => withCache this (JSMap.delete (c :: k) (cache this))
  | Some [] | None => this          (* [if (oldestKey)]: [''] is falsy *)
  end.

(** [ttlSeconds || this.defaultTTL] *)
Definition orDefaultTTL (ttlSeconds : option Z) (d : Z) : Z :=
  match ttlSeconds with
  | Some n => if n =? 0 then d else n
  | None => d
  end.

Definition set (this : t) (now : Z) (key : jsstring) (q : QRCode.t)
  (ttlSeconds : option Z) : t :=
  let ttl := orDefaultTTL ttlSeconds (defaultTTL this) * 1000 in
  let this :=
    if (JSMap.size (cache this) >=? maxKeys this)
       && negb (JSMap.has key (cache this))
    then evictOldest this else this in
  let entry := mkEntry q (now + ttl) now in
  let this := withCache this (JSMap.set key entry (cache this)) in
  let s := stats this in
  withStats this (mkStats (hits s) (misses s) (sets s + 1) (deletes s)).

Definition delete (this : t) (key : jsstring) : t :=
  if JSMap.has key (cache this) then
    let this := withCache this (JSMap.delete key (cache this)) in
    let s := stats this in
    withStats this (mkStats (hits s) (misses s) (sets s) (deletes s + 1))
  else this.

Definition clear (this : t) : t :=
  withStats (withCache this []) (mkStats 0 0 0 0).

Definition exists_ (this : t) (now : Z) (key : jsstring) : bool * t :=
  match JSMap.get key (cache this) with
  | None => (false, this)
  | Some entry =>
      if now >? expiresAt entry then
        (false, withCache this (JSMap.delete key (cache this)))
      else (true, this)
  end.

Definition cleanup (this : t) (now : Z) : t :=
  let keysToDelete :=
    map fst (filter (fun kv => now >? expiresAt (snd kv)) (cache this)) in
  withCache this
    (fold_left (fun c key => JSMap.delete key c) keysToDelete (cache this)).

Definition getKeys (this : t) : list jsstring := map fst (cache this).

Definition inspectEntry (this : t) (key : jsstring) : option CacheEntry :=
  JSMap.get key (cache this).

Record RepoStats : Type := mkRepoStats {
  rs_hits : Z;
  rs_misses : Z;
  rs_keys : Z
}.

Definition getStats (this : t) : RepoStats :=
  mkRepoStats (hits (stats this)) (misses (stats this))
    (JSMap.size (cache this)).

(** The calls a client may make, and running a sequence of them. *)
Inductive Op : Type :=
| OpGet (now : Z) (key : jsstring)
| OpSet (now : Z) (key : jsstring) (q : QRCode.t) (ttlSeconds : option Z)
| OpDelete (key : jsstring)
| OpClear
| OpExists (now : Z) (key : jsstring)
| OpCleanup (now : Z).

Definition step (this : t) (op : Op) : t :=
  match op with
  | OpGet now key => snd (get this now key)
  | OpSet now key q ttl => set this now key q ttl
  | OpDelete key => delete this key
  | OpClear => clear this
  | OpExists now key => snd (exists_ this now key)
  | OpCleanup now => cleanup this now
  end.

Definition run (this : t) (ops : list Op) : t := fold_left step ops this.

End InMemoryCacheRepository.

(** ** Ports and the effects of the use cases *)

Module Ports.

(** What a port may throw (or reject its promise with). *)
Inductive Exception : Type :=
| DomainException (e : DomainError)
| OtherException (message : jsstring).

Definition exceptionMessage (e : Exception) : jsstring :=
  match e with
  | DomainException d => errorMessage d
  | OtherException m => m
  end.

Inductive LogLevel : Type := LInfo | LWarn | LError | LDebug.

Record LogEntry : Type := mkLog { level : LogLevel; text : jsstring }.

(** [ICacheRepository] over a repository state [S]; every method may end
    with an exception and still have changed the state. *)
Class ICacheRepository (S : Type) : Type := {
  repoGet : S -> Z -> jsstring -> Result Exception (option QRCode.t) * S;
  repoSet :
    S -> Z -> jsstring -> QRCode.t -> option Z -> Result Exception unit * S;
  repoDelete : S -> jsstring -> Result Exception unit * S;
  repoClear : S -> Result Exception unit * S;
  repoExists : S -> Z -> jsstring -> Result Exception bool * S
}.

(** [IQRCodeGenerator.generate], at the time [now]. *)
Class IQRCodeGenerator : Type := {
  generate : Z -> QRCodeConfiguration.t -> Result Exception QRCode.t
}.

(** The in-memory repository never throws. *)
#[export] Instance inMemory : ICacheRepository InMemoryCacheRepository.t := {
  repoGet s now key :=
    let '(r, s') := InMemoryCacheRepository.get s now key in (Ok r, s');
  repoSet s now key q ttl := (Ok tt, InMemoryCacheRepository.set s now key q ttl);
  repoDelete s key := (Ok tt, InMemoryCacheRepository.delete s key);
  repoClear s := (Ok tt, InMemoryCacheRepository.clear s);
  repoExists s now key :=
    let '(r, s') := InMemoryCacheRepository.exists_ s now key in (Ok r, s')
}.

(** All that a use case can change: the repository, the lines given to
    the [ILogger], the counters incremented on the [IMetricsCollector] and
    the lines of [console.warn]. *)
Record World (S : Type) : Type := mkWorld {
  repository : S;
  logged : list LogEntry;
  counters : list jsstring;
  console : list jsstring
}.
Arguments mkWorld {S}.
Arguments repository {S}.
Arguments logged {S}.
Arguments counters {S}.
Arguments console {S}.

Definition M (S A : Type) : Type := World S -> Result Exception A * World S.

Definition ret {S A} (a : A) : M S A := fun w => (Ok a, w).

Definition raise {S A} (e : Exception) : M S A := fun w => (Throw e, w).

Definition mbind {S A B} (m : M S A) (k : A -> M S B) : M S B :=
  fun w =>
    match m w with
    | (Ok a, w') => k a w'
    | (Throw e, w') => (Throw e, w')
    end.

(** [try { body } catch (error) { handler }] *)
Definition tryCatch {S A} (body : M S A) (handler : Exception -> M S A)
  : M S A :=
  fun w =>
    match body w with
    | (Ok a, w') => (Ok a, w')
    | (Throw e, w') => handler e w'
    end.

Definition logLine {S} (l : LogLevel) (text : jsstring) : M S unit :=
  fun w =>
    (Ok tt,
     mkWorld (repository w) (logged w ++ [mkLog l text]) (counters w)
       (console w)).

Definition incrementCounter {S} (name : jsstring) : M S unit :=
  fun w =>
    (Ok tt,
     mkWorld (repository w) (logged w) (counters w ++ [name]) (console w)).

Definition consoleWarn {S} (lines : list jsstring) : M S unit :=
  fun w =>
    (Ok tt,
     mkWorld (repository w) (logged w) (counters w) (console w ++ lines)).

(** A call of a repository method. *)
Definition onRepository {S A} (f : S -> Result Exception A * S) : M S A :=
  fun w =>
    let '(r, s) := f (repository w) in
    (r, mkWorld s (logged w) (counters w) (console w)).

Definition ofResult {S A} (r : Res A) : M S A :=
  match r with
  | Ok a => ret a
  | Throw e => raise (DomainException e)
  end.

End Ports.

Import Ports.

Notation "x <- m ;; k" := (mbind m (fun x => k))
  (at level 61, m at next level, right associativity).
Notation "m ;;; k" := (mbind m (fun _ => k))
  (at level 61, right associativity).

(** ** CacheManagementUseCase *)

Module CacheManagementUseCase.

Record t : Type := mk { defaultTTL : Z }.

(** [new CacheManagementUseCase(repository, logger, defaultTTL = 3600)] *)
Definition new (defaultTTL : option Z) : t :=
  mk (match defaultTTL with Some n => n | None => 3600 end).

(** An element of the array given to [warmCache], with the time at which
    its [set] runs. *)
Record WarmEntry : Type := mkWarm {
  w_now : Z;
  w_key : jsstring;
  w_qrCode : QRCode.t;
  w_ttl : option Z
}.

Section WithRepository.
Context {S : Type} `{ICacheRepository S}.

Definition get (this : t) (now : Z) (key : jsstring) : M S (option QRCode.t) :=
  tryCatch
    (logLine LDebug (lit "Cache get operation") ;;;
     cachedQRCode <- onRepository (fun s => repoGet s now key) ;;
     match cachedQRCode with
     | Some q => logLine LDebug (lit "Cache hit") ;;; ret (Some q)
     | None => logLine LDebug (lit "Cache miss") ;;; ret None
     end)
    (fun error =>
       logLine LError (lit "Cache get operation failed") ;;; ret None).

Definition set (this : t) (now : Z) (key : jsstring) (qrCode : QRCode.t)
  (ttlSeconds : option Z) : M S bool :=
  tryCatch
    (let ttl := InMemoryCacheRepository.orDefaultTTL ttlSeconds (defaultTTL this) in
     logLine LDebug (lit "Cache set operation") ;;;
     onRepository (fun s => repoSet s now key qrCode (Some ttl)) ;;;
     logLine LDebug (lit "Cache set successful") ;;;
     ret true)
    (fun error =>
       logLine LError (lit "Cache set operation failed") ;;; ret false).

Definition delete (this : t) (key : jsstring) : M S bool :=
  tryCatch
    (logLine LDebug (lit "Cache delete operation") ;;;
     onRepository (fun s => repoDelete s key) ;;;
     logLine LDebug (lit "Cache delete successful") ;;;
     ret true)
    (fun error =>
       logLine LError (lit "Cache delete operation failed") ;;; ret false).

Definition clear (this : t) : M S bool :=
  tryCatch
    (logLine LInfo (lit "Cache clear operation started") ;;;
     onRepository (fun s => repoClear s) ;;;
     logLine LInfo (lit "Cache clear successful") ;;;
     ret true)
    (fun error =>
       logLine LError (lit "Cache clear operation failed") ;;; ret false).

Definition exists_ (this : t) (now : Z) (key : jsstring) : M S bool :=
  tryCatch
    (onRepository (fun s => repoExists s now key))
    (fun error => logLine LError (lit "Cache exists check failed") ;;; ret false).

(** The loop of [warmCache], with [successCount]. *)
Fixpoint warmLoop (this : t) (qrCodes : list WarmEntry) (successCount : Z)
  : M S Z :=
  match qrCodes with
  | [] => ret successCount
  | e :: rest =>
      success <- set this (w_now e) (w_key e) (w_qrCode e) (w_ttl e) ;;
      warmLoop this rest (if success then successCount + 1 else successCount)
  end.

Definition warmCache (this : t) (qrCodes : list WarmEntry) : M S Z :=
  logLine LInfo (lit "Cache warming started") ;;;
  successCount <- warmLoop this qrCodes 0 ;;
  logLine LInfo (lit "Cache warming completed") ;;;
  ret successCount.

End WithRepository.

End CacheManagementUseCase.

(** ** GenerateQRCodeUseCase *)

Module GenerateQRCodeUseCase.

Import ValidateParametersUseCase.

Inductive CacheStatus : Type := hit | miss | error.

Section WithPorts.
Context `{Platform} {S : Type} `{ICacheRepository S} `{IQRCodeGenerator}.

Record ResponseData : Type := mkData {
  rd_id : jsstring;
  rd_image : list Z;
  rd_mimeType : jsstring;
  rd_size : Z;
  rd_format : jsstring;
  rd_dimensions : jsstring;
  rd_cacheHit : bool;
  rd_generatedAt : Z
}.

Inductive ErrorDetails : Type :=
| ValidationDetails (errors : list ValidationResult.ValidationError)
| StackTrace.

Record ResponseError : Type := mkRespError {
  re_code : jsstring;
  re_message : jsstring;
  re_details : ErrorDetails
}.

Record QRCodeResponseDTO : Type := mkResponse {
  success : bool;
  data : option ResponseData;
  error_ : option ResponseError;
  cacheStatus : CacheStatus;
  dataSize : Z
}.

Definition buildConfiguration (request : QRCodeRequestDTO)
  : Res (QRCodeConfiguration.t * list jsstring) :=
  let* data :=
    DataPayload.create
      (match ValidateParametersUseCase.data request with
       | Some d => d
       | None => []
       end) in
  let* size :=
    match present (ValidateParametersUseCase.size request) with
    | Some s => Size.fromString s
    | None => Ok Size.default
    end in
  let* format :=
    match present (ValidateParametersUseCase.format request) with
    | Some f => OutputFormatValue.create f
    | None => Ok OutputFormatValue.default
    end in
  let* errorCorrectionLevel :=
    match present (ecc request) with
    | Some e => ErrorCorrectionLevelValue.create e
    | None => Ok ErrorCorrectionLevelValue.default
    end in
  let* foregroundColor :=
    match present (color request) with
    | Some c => ColorValue.create c
    | None => Ok ColorValue.black
    end in
  let* backgroundColor :=
    match present (bgcolor request) with
    | Some c => ColorValue.create c
    | None => Ok ColorValue.white
    end in
  let* _ :=
    match present (logo request) with
    | Some l =>
        let* l' := Logo.create l (logo_size request) (logo_margin request) in
        Ok (Some l')
    | None => Ok None
    end in
  QRCodeConfiguration.new
    (QRCodeConfiguration.mkParams data (Some size) (Some format)
       (Some errorCorrectionLevel) (Some foregroundColor) (Some backgroundColor)
       (margin request) (qzone request) (charset_source request)
       (charset_target request)).

Definition respond (configuration : QRCodeConfiguration.t) (q : QRCode.t)
  (cacheHit : bool) (status : CacheStatus) : QRCodeResponseDTO :=
  mkResponse true
    (Some (mkData (QRCode.getId q) (QRCode.imageData q) (QRCode.getMimeType q)
             (QRCode.getDataSize q)
             (OutputFormatValue.toString (QRCodeConfiguration.format configuration))
             (Size.toString (QRCodeConfiguration.size configuration))
             cacheHit (QRCode.createdAt q)))
    None status (QRCode.getDataSize q).

Definition execute (cacheManagementUseCase : CacheManagementUseCase.t)
  (now : Z) (request : QRCodeRequestDTO) : M S QRCodeResponseDTO :=
  tryCatch
    (logLine LInfo (lit "QR Code generation started") ;;;
     (* Step 1: validate input parameters *)
     let validation := ValidateParametersUseCase.execute request in
     if negb (ValidationResult.isValid validation) then
       incrementCounter (lit "qr_generation_errors_total") ;;;
       ret (mkResponse false None
              (Some (mkRespError (lit "VALIDATION_ERROR")
                       (lit "Invalid input parameters")
                       (ValidationDetails (ValidationResult.getErrors validation))))
              error 0)
     else
       (* Step 2: build configuration from validated parameters *)
       built <- ofResult (buildConfiguration request) ;;
       let '(configuration, warnings) := built in
       consoleWarn warnings ;;;
       let cacheKey := QRCodeConfiguration.getHashKey configuration in
       (* Step 3: check cache first *)
       cachedQRCode <- CacheManagementUseCase.get cacheManagementUseCase now cacheKey ;;
       match cachedQRCode with
       | Some cached =>
           logLine LInfo (lit "QR Code served from cache") ;;;
           incrementCounter (lit "qr_cache_hits_total") ;;;
           ret (respond configuration cached true hit)
       | None =>
           (* Step 4: generate new QR code *)
           incrementCounter (lit "qr_cache_misses_total") ;;;
           qrCode <- (fun w => (generate now configuration, w)) ;;
           (* Step 5: cache the result, with no TTL argument *)
           CacheManagementUseCase.set cacheManagementUseCase now cacheKey qrCode
             None ;;;
           logLine LInfo (lit "QR Code generated successfully") ;;;
           incrementCounter (lit "qr_codes_generated_total") ;;;
           ret (respond configuration qrCode false miss)
       end)
    (fun e =>
       logLine LError (lit "QR Code generation failed") ;;;
       incrementCounter (lit "qr_generation_errors_total") ;;;
       ret (mkResponse false None
              (Some (mkRespError (lit "GENERATION_ERROR") (exceptionMessage e)
                       StackTrace))
              error 0)).

End WithPorts.

End GenerateQRCodeUseCase.

(** ** QRCodeJSAdapter

    The image comes from the libraries [qrcode] and [sharp] and the
    identifier from [uuid]: the adapter is parametric in them. *)

Module QRCodeJSAdapter.

Class Libraries : Type := {
  (** [QRCodeLib.toString] or [QRCodeLib.toBuffer], and the conversion to
      JPEG: the image, or what they throw *)
  render : QRCodeConfiguration.t -> Result Exception (list Z);
  (** the identifier that [uuidv4()] draws for the call *)
  uuidv4 : Z -> QRCodeConfiguration.t -> jsstring
}.

Definition supportedFormats : list OutputFormatValue.t :=
  [OutputFormatValue.PNG; OutputFormatValue.JPEG; OutputFormatValue.JPG;
   OutputFormatValue.SVG].

Definition supports (format : jsstring) : bool :=
  includes (map OutputFormatValue.toString supportedFormats) format.

Section WithLibraries.
Context `{Libraries}.

Definition generate (now : Z) (configuration : QRCodeConfiguration.t)
  : Result Exception QRCode.t :=
  let body :=
    let format :=
      OutputFormatValue.toString (QRCodeConfiguration.format configuration) in
    if negb (supports format) then
      Throw (OtherException (lit "Unsupported format: " ++ format))
    else
      match render configuration with
      | Ok imageBuffer =>
          Ok (QRCode.mk (uuidv4 now configuration) now configuration imageBuffer)
      | Throw e => Throw e
      end in
  match body with
  | Ok q => Ok q
  | Throw error =>
      Throw (OtherException
               (lit "Failed to generate QR code: " ++ exceptionMessage error))
  end.

Definition generator : IQRCodeGenerator := {| Ports.generate := generate |}.

End WithLibraries.

End QRCodeJSAdapter.

(** ** QRCodeController

    The handler of the endpoint.  A request is its method and the
    parameters of [req.query] and [req.body], each parameter a string when
    it is present, as a query string delivers them.  The response is the
    status, the headers set on success and the body; the [meta] object of
    an error body and the header [X-Processing-Time] hold times and the
    request identifier and are left out. *)

Module QRCodeController.

Record Source : Type := mkSource {
  s_data : option jsstring;
  s_size : option jsstring;
  s_format : option jsstring;
  s_ecc : option jsstring;
  s_color : option jsstring;
  s_bgcolor : option jsstring;
  s_margin : option jsstring;
  s_qzone : option jsstring;
  s_charset_source : option jsstring;
  s_charset_target : option jsstring
}.

Record Request : Type := mkRequest {
  method : jsstring;
  query : option Source;
  body : option Source
}.

Definition getErrorStatusCode (errorCode : option jsstring) : Z :=
  match errorCode with
  | Some code =>
      if streq code (lit "VALIDATION_ERROR") then 400
      else if streq code (lit "NOT_FOUND") then 404
      else if streq code (lit "RATE_LIMIT_EXCEEDED") then 429
      else if streq code (lit "GENERATION_ERROR") then 422
      else 500
  | None => 500
  end.

(** [source.margin ? parseInt(source.margin, 10) : undefined] *)
Definition parsedWhenPresent (s : option jsstring) : option number :=
  match ValidateParametersUseCase.present s with
  | Some v => Some (parseInt v 10)
  | None => None
  end.

Definition extractRequestData (req : Request)
  : ValidateParametersUseCase.QRCodeRequestDTO :=
  let source :=
    if streq (method req) (lit "GET") || streq (method req) (lit "HEAD")
    then query req else body req in
  match source with
  | None =>
      ValidateParametersUseCase.mkRequest (Some []) None None None None None
        None None None None None None None
  | Some source =>
      ValidateParametersUseCase.mkRequest (s_data source) (s_size source)
        (s_format source) (s_ecc source) (s_color source) (s_bgcolor source)
        (parsedWhenPresent (s_margin source))
        (parsedWhenPresent (s_qzone source))
        (s_charset_source source) (s_charset_target source) None None None
  end.

Section WithPorts.
Context `{Platform} {S : Type} `{ICacheRepository S} `{IQRCodeGenerator}.

Inductive Body : Type :=
| Image (image : list Z)
| UseCaseError (error : option GenerateQRCodeUseCase.ResponseError)
| ControllerError (code message : jsstring).

Record Response : Type := mkResponse {
  status : Z;
  headers : list (jsstring * jsstring);
  responseBody : Body
}.

Definition generateQRCode (cacheManagementUseCase : CacheManagementUseCase.t)
  (now : Z) (req : Request) : M S Response :=
  tryCatch
    (logLine LInfo (lit "QR Code generation request received") ;;;
     let requestData := extractRequestData req in
     match
       ValidateParametersUseCase.present
         (ValidateParametersUseCase.data requestData)
     with
     | None =>
         incrementCounter (lit "http_requests_total") ;;;
         ret (mkResponse 400 []
                (ControllerError (lit "MISSING_REQUIRED_PARAMETER")
                   (lit "The " ++ [34] ++ lit "data" ++ [34]
                    ++ lit " parameter is required")))
     | Some _ =>
         result <-
           GenerateQRCodeUseCase.execute cacheManagementUseCase now
             requestData ;;
         match
           GenerateQRCodeUseCase.success result,
           GenerateQRCodeUseCase.data result
         with
         | true, Some data =>
             incrementCounter (lit "http_requests_total") ;;;
             ret (mkResponse 200
                    [ (lit "Content-Type", GenerateQRCodeUseCase.rd_mimeType data);
                      (lit "Content-Length",
                       intToString 10 (GenerateQRCodeUseCase.rd_size data));
                      (lit "X-QR-Code-ID", GenerateQRCodeUseCase.rd_id data);
                      (lit "X-Cache-Status",
                       if GenerateQRCodeUseCase.rd_cacheHit data
                       then lit "HIT" else lit "MISS") ]
                    (Image (GenerateQRCodeUseCase.rd_image data)))
         | _, _ =>
             let statusCode :=
               getErrorStatusCode
                 (option_map GenerateQRCodeUseCase.re_code
                    (GenerateQRCodeUseCase.error_ result)) in
             incrementCounter (lit "http_requests_total") ;;;
             ret (mkResponse statusCode []
                    (UseCaseError (GenerateQRCodeUseCase.error_ result)))
         end
     end)
    (fun error =>
       logLine LError (lit "Unexpected error in QR code generation") ;;;
       incrementCounter (lit "http_requests_total") ;;;
       ret (mkResponse 500 []
              (ControllerError (lit "INTERNAL_SERVER_ERROR")
                 (lit "An unexpected error occurred")))).

End WithPorts.

End QRCodeController.

(** ** ValidationMiddleware: the rate limiter

    [rateLimit(options)] keeps a [Map] from the client identifier to its
    counter; a call of the middleware is a step on that map. *)

Module ValidationMiddleware.

Record ClientData : Type := mkClient { count : Z; resetTime : Z }.

Record Options : Type := mkOptions { windowMs : Z; maxRequests : Z }.

Inductive Outcome : Type :=
| Next (remaining : Z)          (* [next()], with [X-RateLimit-Remaining] *)
| TooManyRequests (resetIn : Z) (* status 429, with [details.resetIn] *).

Definition passed (o : Outcome) : bool :=
  match o with Next _ => true | TooManyRequests _ => false end.

(** [Math.ceil(a / 1000)] for an integer [a]. *)
Definition ceilSeconds (a : Z) : Z := - ((- a) / 1000).

Definition rateLimit (options : Options)
  (requests : list (jsstring * ClientData)) (clientId : jsstring) (now : Z)
  : Outcome * list (jsstring * ClientData) :=
  let cutoff := now - windowMs options in
  (* Clean up expired entries *)
  let requests :=
    filter (fun kv => negb (resetTime (snd kv) <? cutoff)) requests in
  (* Get or create client entry *)
  let '(clientData, requests) :=
    match JSMap.get clientId requests with
    | Some clientData =>
        if resetTime clientData <? cutoff then
          let clientData := mkClient 0 (now + windowMs options) in
          (clientData, JSMap.set clientId clientData requests)
        else (clientData, requests)
    | None =>
        let clientData := mkClient 0 (now + windowMs options) in
        (clientData, JSMap.set clientId clientData requests)
    end in
  (* Check rate limit *)
  if count clientData >=? maxRequests options then
    (TooManyRequests (ceilSeconds (resetTime clientData - now)), requests)
  else
    (* [clientData.count++] on the object that the map holds *)
    let clientData := mkClient (count clientData + 1) (resetTime clientData) in
    (Next (maxRequests options - count clientData),
     JSMap.set clientId clientData requests).

End ValidationMiddleware.

(** ** The complexity policy in the words of the specification

    "A configuration is complex if its payload complexity tier is high, its
    canvas size exceeds a fixed threshold, or its error-tolerance is the
    highest level."  The threshold is a parameter. *)

Module Policy.

Definition isComplex (sizeThreshold : Z) (c : QRCodeConfiguration.t) : bool :=
  match DataPayload.getComplexityLevel (QRCodeConfiguration.data c) with
  | DataPayload.high => true
  | _ => false
  end
  || (Z.max (Size.width (QRCodeConfiguration.size c))
        (Size.height (QRCodeConfiguration.size c)) >? sizeThreshold)
  || match QRCodeConfiguration.errorCorrectionLevel c with
     | ErrorCorrectionLevelValue.HIGH => true
     | _ => false
     end.

(** The TTL, in seconds, of the entry that the in-memory repository holds
    for [key]. *)
Definition storedTTL (repo : InMemoryCacheRepository.t) (key : jsstring)
  : option Z :=
  match InMemoryCacheRepository.inspectEntry repo key with
  | Some e =>
      Some ((InMemoryCacheRepository.expiresAt e
             - InMemoryCacheRepository.createdAt e) / 1000)
  | None => None
  end.

End Policy.

(** ** A small platform on which the definitions run

    ASCII case mapping, a parser for URLs of the shape
    [scheme://host/path] and fixed-point arithmetic in millionths (with a
    table for the sRGB transfer function) stand in for the runtime; they
    serve to evaluate the definitions on examples, and no theorem below is
    about them. *)

Module Sample.

Definition asciiUpper (s : jsstring) : jsstring :=
  map (fun c => if (97 <=? c) && (c <=? 122) then c - 32 else c) s.

Definition asciiLower (s : jsstring) : jsstring :=
  map (fun c => if (65 <=? c) && (c <=? 90) then c + 32 else c) s.

(** What precedes the first [c], and what follows it. *)
Fixpoint cut (c : Z) (s : jsstring) : option (jsstring * jsstring) :=
  match s with
  | [] => None
  | x :: r =>
      if x =? c then Some ([], r)
      else match cut c r with
           | Some (a, b) => Some (x :: a, b)
           | None => None
           end
  end.

(** Not the WHATWG parser: a port or user information stays in the host,
    a query stays in the path, and spaces are accepted.  It is used on
    inputs without any of these. *)
Definition parseSimpleURL (s : jsstring) : option URL :=
  match cut 58 s with
  | Some ((_ :: _) as scheme, 47 :: 47 :: rest) =>
      match cut 47 rest with
      | Some ((_ :: _) as host, path) =>
          Some (mkURL (asciiLower scheme ++ [58]) (asciiLower host) (47 :: path))
      | Some ([], _) => None
      | None =>
          match rest with
          | [] => None
          | _ => Some (mkURL (asciiLower scheme ++ [58]) (asciiLower rest) [47])
          end
      end
  | _ => None
  end.

(** [sRGB(c)] in millionths, for [c] from 0 to 255. *)
Definition sRGBTable : list Z :=
  [
   0; 304; 607; 911; 1214; 1518; 1821; 2125; 2428; 2732;
   3035; 3347; 3677; 4025; 4391; 4777; 5182; 5605; 6049; 6512;
   6995; 7499; 8023; 8568; 9134; 9721; 10330; 10960; 11612; 12286;
   12983; 13702; 14444; 15209; 15996; 16807; 17642; 18500; 19382; 20289;
   21219; 22174; 23153; 24158; 25187; 26241; 27321; 28426; 29557; 30713;
   31896; 33105; 34340; 35601; 36889; 38204; 39546; 40915; 42311; 43735;
   45186; 46665; 48172; 49707; 51269; 52861; 54480; 56128; 57805; 59511;
   61246; 63010; 64803; 66626; 68478; 70360; 72272; 74214; 76185; 78187;
   80220; 82283; 84376; 86500; 88656; 90842; 93059; 95307; 97587; 99899;
   102242; 104616; 107023; 109462; 111932; 114435; 116971; 119538; 122139; 124772;
   127438; 130136; 132868; 135633; 138432; 141263; 144128; 147027; 149960; 152926;
   155926; 158961; 162029; 165132; 168269; 171441; 174647; 177888; 181164; 184475;
   187821; 191202; 194618; 198069; 201556; 205079; 208637; 212231; 215861; 219526;
   223228; 226966; 230740; 234551; 238398; 242281; 246201; 250158; 254152; 258183;
   262251; 266356; 270498; 274677; 278894; 283149; 287441; 291771; 296138; 300544;
   304987; 309469; 313989; 318547; 323143; 327778; 332452; 337164; 341914; 346704;
   351533; 356400; 361307; 366253; 371238; 376262; 381326; 386429; 391572; 396755;
   401978; 407240; 412543; 417885; 423268; 428690; 434154; 439657; 445201; 450786;
   456411; 462077; 467784; 473531; 479320; 485150; 491021; 496933; 502886; 508881;
   514918; 520996; 527115; 533276; 539479; 545724; 552011; 558340; 564712; 571125;
   577580; 584078; 590619; 597202; 603827; 610496; 617207; 623960; 630757; 637597;
   644480; 651406; 658375; 665387; 672443; 679542; 686685; 693872; 701102; 708376;
   715694; 723055; 730461; 737910; 745404; 752942; 760525; 768151; 775822; 783538;
   791298; 799103; 806952; 814847; 822786; 830770; 838799; 846873; 854993; 863157;
   871367; 879622; 887923; 896269; 904661; 913099; 921582; 930111; 938686; 947307;
   955973; 964686; 973445; 982251; 991102; 1000000
  ].

Definition sRGB (c : number) : Z :=
  match c with
  | Int z => nth (Z.to_nat z) sRGBTable 1000000
  | _ => 0
  end.

Definition fixedLuminance (r g b : number) : Z :=
  (2126 * sRGB r + 7152 * sRGB g + 722 * sRGB b) / 10000.

Definition platform : Platform := {|
  toUpperCase := asciiUpper;
  toLowerCase := asciiLower;
  newURL := parseSimpleURL;
  double := Z;
  luminance := fixedLuminance;
  fmax := Z.max;
  fmin := Z.min;
  fadd := Z.add;
  fdiv := fun a b => a * 1000000 / b;
  fgeb := Z.geb;
  f0_05 := 50000;
  f3_0 := 3000000
|}.

Definition configuration : QRCodeConfiguration.t :=
  QRCodeConfiguration.mk (DataPayload.mk (lit "hello")) Size.default
    OutputFormatValue.PNG ErrorCorrectionLevelValue.LOW ColorValue.black
    ColorValue.white 1 0 (lit "UTF-8") (lit "UTF-8").

Definition qrCode : QRCode.t :=
  QRCode.mk (lit "id") 0 configuration [137; 80; 78; 71].

(** A generator that returns a fixed image. *)
Definition generator : IQRCodeGenerator := {|
  generate := fun now c => Ok (QRCode.mk (lit "id") now c [137; 80; 78; 71])
|}.

(** Two requests for the same text, the second with the highest
    error-correction level, an empty world and the default cache use
    case. *)
Definition simpleRequest : ValidateParametersUseCase.QRCodeRequestDTO :=
  ValidateParametersUseCase.mkRequest (Some (lit "hello")) None None None None
    None None None None None None None None.

Definition complexRequest : ValidateParametersUseCase.QRCodeRequestDTO :=
  ValidateParametersUseCase.mkRequest (Some (lit "hello")) None None
    (Some (lit "H")) None None None None None None None None None.

Definition complexConfiguration : QRCodeConfiguration.t :=
  QRCodeConfiguration.mk (DataPayload.mk (lit "hello")) Size.default
    OutputFormatValue.PNG ErrorCorrectionLevelValue.HIGH ColorValue.black
    ColorValue.white 1 0 (lit "UTF-8") (lit "UTF-8").

(** Two configurations whose payloads are two different unpaired
    surrogates. *)
Definition surrogateConfiguration (unit : Z) : QRCodeConfiguration.t :=
  QRCodeConfiguration.mk (DataPayload.mk [unit]) Size.default
    OutputFormatValue.PNG ErrorCorrectionLevelValue.LOW ColorValue.black
    ColorValue.white 1 0 (lit "UTF-8") (lit "UTF-8").

(** The requests for these two payloads. *)
Definition surrogateRequest (unit : Z)
  : ValidateParametersUseCase.QRCodeRequestDTO :=
  ValidateParametersUseCase.mkRequest (Some [unit]) None None None None None
    None None None None None None None.

(** A configuration that differs from [configuration] in every field. *)
Definition otherConfiguration : QRCodeConfiguration.t :=
  QRCodeConfiguration.mk (DataPayload.mk (lit "https://example.com/a|b"))
    (Size.mk 300 400) OutputFormatValue.SVG ErrorCorrectionLevelValue.QUARTILE
    (ColorValue.mkRGB (Int 0) (Int 102) (Int 255))
    (ColorValue.mkRGB (Int 238) (Int 238) (Int 238)) 4 2 (lit "ISO-8859-1")
    (lit "ISO-8859-1").

(** The request from which [otherConfiguration] is built. *)
Definition otherRequest : ValidateParametersUseCase.QRCodeRequestDTO :=
  ValidateParametersUseCase.mkRequest (Some (lit "https://example.com/a|b"))
    (Some (lit "300x400")) (Some (lit "svg")) (Some (lit "Q"))
    (Some (lit "#0066ff")) (Some (lit "238-238-238")) (Some (Int 4))
    (Some (Int 2)) (Some (lit "ISO-8859-1")) (Some (lit "ISO-8859-1")) None
    None None.

(** A request with a logo whose size and margin are both out of range. *)
Definition logoRequest : ValidateParametersUseCase.QRCodeRequestDTO :=
  ValidateParametersUseCase.mkRequest (Some (lit "x")) None None None None None
    None None None None (Some (lit "google")) (Some (Int 5)) (Some (Int 99)).

(** A request with empty data, an unreadable size, an unknown format and a
    negative margin. *)
Definition faultyRequest : ValidateParametersUseCase.QRCodeRequestDTO :=
  ValidateParametersUseCase.mkRequest (Some []) (Some (lit "invalid"))
    (Some (lit "unsupported")) None None None (Some (Int (-1))) None None None
    None None None.

(** A request whose payload cannot be written in the charset it names. *)
Definition euroRequest : ValidateParametersUseCase.QRCodeRequestDTO :=
  ValidateParametersUseCase.mkRequest (Some [8364]) None None None None None
    None None (Some (lit "ISO-8859-1")) None None None None.

(** A request for a GIF image. *)
Definition gifRequest : ValidateParametersUseCase.QRCodeRequestDTO :=
  ValidateParametersUseCase.mkRequest (Some (lit "hello")) None
    (Some (lit "GIF")) None None None None None None None None None None.

Definition gifConfiguration : QRCodeConfiguration.t :=
  QRCodeConfiguration.mk (DataPayload.mk (lit "hello")) Size.default
    OutputFormatValue.GIF ErrorCorrectionLevelValue.LOW ColorValue.black
    ColorValue.white 1 0 (lit "UTF-8") (lit "UTF-8").

(** Libraries that return a fixed image and a fixed identifier. *)
Definition libraries : QRCodeJSAdapter.Libraries := {|
  QRCodeJSAdapter.render := fun _ => Ok [137; 80; 78; 71];
  QRCodeJSAdapter.uuidv4 := fun _ _ => lit "id"
|}.

Definition emptyWorld : World InMemoryCacheRepository.t :=
  mkWorld (InMemoryCacheRepository.new None None) [] [] [].

Definition useCase : CacheManagementUseCase.t := CacheManagementUseCase.new None.

Definition run (request : ValidateParametersUseCase.QRCodeRequestDTO)
  : Result Exception (@GenerateQRCodeUseCase.QRCodeResponseDTO platform)
    * World InMemoryCacheRepository.t :=
  @GenerateQRCodeUseCase.execute platform _ inMemory generator useCase 0
    request emptyWorld.

End Sample.

(** ** Predicates used in the statements *)

Module Props.

(** The range that [Size.create] enforces on each dimension. *)
Definition sizeInRange (s : Size.t) : Prop :=
  10 <= Size.width s <= 1000 /\ 10 <= Size.height s <= 1000.

(** [parseInt] reads back the decimal text of [z], which is a non-empty
    run of digits. *)
Definition decimalRoundTrips (z : Z) : bool :=
  match parseInt (intToString 10 z) 10 with
  | Int v => v =? z
  | _ => false
  end
  && forallb Size.isDigit (intToString 10 z)
  && negb (streq (intToString 10 z) []).

(** The field checks that [ValidateParametersUseCase.execute] runs on a
    request, in its order: the data check always, every other one when its
    parameters are present. *)
Definition whenPresent {A} `{Platform} (o : option A)
  (check : A -> ValidationResult.t) : list ValidationResult.t :=
  match o with
  | Some a => [check a]
  | None => []
  end.

Definition fieldChecks `{Platform}
  (request : ValidateParametersUseCase.QRCodeRequestDTO)
  : list ValidationResult.t :=
  let present := ValidateParametersUseCase.present in
  let both := @ValidateParametersUseCase.both in
  [ValidateParametersUseCase.validateData (ValidateParametersUseCase.data request)]
  ++ whenPresent (present (ValidateParametersUseCase.size request))
       ValidateParametersUseCase.validateSize
  ++ whenPresent (present (ValidateParametersUseCase.format request))
       ValidateParametersUseCase.validateFormat
  ++ whenPresent (present (ValidateParametersUseCase.ecc request))
       ValidateParametersUseCase.validateErrorCorrectionLevel
  ++ whenPresent (present (ValidateParametersUseCase.color request))
       (fun c => ValidateParametersUseCase.validateColor c (lit "color"))
  ++ whenPresent (present (ValidateParametersUseCase.bgcolor request))
       (fun c => ValidateParametersUseCase.validateColor c (lit "bgcolor"))
  ++ whenPresent (ValidateParametersUseCase.margin request)
       ValidateParametersUseCase.validateMargin
  ++ whenPresent (ValidateParametersUseCase.qzone request)
       ValidateParametersUseCase.validateQuietZone
  ++ whenPresent (present (ValidateParametersUseCase.charset_source request))
       (fun c => ValidateParametersUseCase.validateCharset c (lit "charset-source"))
  ++ whenPresent (present (ValidateParametersUseCase.charset_target request))
       (fun c => ValidateParametersUseCase.validateCharset c (lit "charset-target"))
  ++ whenPresent (present (ValidateParametersUseCase.logo request))
       (fun l =>
          ValidateParametersUseCase.validateLogo l
            (ValidateParametersUseCase.logo_size request)
            (ValidateParametersUseCase.logo_margin request))
  ++ whenPresent
       (both _ _ (present (ValidateParametersUseCase.color request))
          (present (ValidateParametersUseCase.bgcolor request)))
       (fun cb =>
          ValidateParametersUseCase.validateColorContrast (fst cb) (snd cb))
  ++ whenPresent
       (both _ _
          (both _ _ (present (ValidateParametersUseCase.logo request))
             (present (ValidateParametersUseCase.size request)))
          (ValidateParametersUseCase.presentNumber
             (ValidateParametersUseCase.logo_size request)))
       (fun lsn =>
          ValidateParametersUseCase.validateLogoSizeRelativeToQR
            (snd (fst lsn)) (snd lsn)).

Definition notValid `{Platform} (c : ValidationResult.t) : bool :=
  negb (ValidationResult.isValid c).

(** The entries of the checks that fail, in the order of the checks. *)
Definition failingErrors `{Platform} (checks : list ValidationResult.t)
  : list ValidationResult.ValidationError :=
  flat_map ValidationResult.getErrors (filter notValid checks).

(** A check result as the use case builds them: valid with no error, or
    invalid with exactly one. *)
Definition wellFormedCheck `{Platform} (c : ValidationResult.t) : Prop :=
  (ValidationResult.isValid c = true /\ ValidationResult.getErrors c = [])
  \/ (ValidationResult.isValid c = false
      /\ exists e, ValidationResult.getErrors c = [e]).

(** Every key that a sequence of calls stores is a non-empty string. *)
Definition storesNonEmptyKeys (ops : list InMemoryCacheRepository.Op) : Prop :=
  Forall (fun op =>
            match op with
            | InMemoryCacheRepository.OpSet _ key _ _ => key <> []
            | _ => True
            end) ops.

(** How many [set] calls of a warm-up succeed, and the repository that
    they leave. *)
Fixpoint warmUp {S : Type} `{ICacheRepository S}
  (uc : CacheManagementUseCase.t)
  (qrCodes : list CacheManagementUseCase.WarmEntry) (s : S) : Z * S :=
  match qrCodes with
  | [] => (0, s)
  | e :: rest =>
      let r :=
        repoSet s (CacheManagementUseCase.w_now e)
          (CacheManagementUseCase.w_key e) (CacheManagementUseCase.w_qrCode e)
          (Some (InMemoryCacheRepository.orDefaultTTL
                   (CacheManagementUseCase.w_ttl e)
                   (CacheManagementUseCase.defaultTTL uc))) in
      let r' := warmUp uc rest (snd r) in
      ((if isOk (fst r) then 1 else 0) + fst r', snd r')
  end.

(** How many calls of [client] the rate limiter lets pass, in a sequence
    of calls [(clientId, now)] that starts with the map [requests]. *)
Fixpoint passedCalls (options : ValidationMiddleware.Options)
  (requests : list (jsstring * ValidationMiddleware.ClientData))
  (calls : list (jsstring * Z)) (client : jsstring) : Z :=
  match calls with
  | [] => 0
  | (clientId, now) :: rest =>
      let r := ValidationMiddleware.rateLimit options requests clientId now in
      (if streq clientId client && ValidationMiddleware.passed (fst r)
       then 1 else 0)
      + passedCalls options (snd r) rest client
  end.

(** The kinds of calls, and how many calls of a kind a sequence holds. *)
Definition isGet (op : InMemoryCacheRepository.Op) : bool :=
  match op with InMemoryCacheRepository.OpGet _ _ => true | _ => false end.

Definition isSet (op : InMemoryCacheRepository.Op) : bool :=
  match op with InMemoryCacheRepository.OpSet _ _ _ _ => true | _ => false end.

Definition isDelete (op : InMemoryCacheRepository.Op) : bool :=
  match op with InMemoryCacheRepository.OpDelete _ => true | _ => false end.

Definition isClear (op : InMemoryCacheRepository.Op) : bool :=
  match op with InMemoryCacheRepository.OpClear => true | _ => false end.

Definition countCalls (kind : InMemoryCacheRepository.Op -> bool)
  (ops : list InMemoryCacheRepository.Op) : Z :=
  Z.of_nat (List.length (filter kind ops)).

(** An entry that has expired at the time [now]. *)
Definition expired (now : Z) (e : InMemoryCacheRepository.CacheEntry) : bool :=
  now >? InMemoryCacheRepository.expiresAt e.

(** No entry of the cache was created before [e]. *)
Definition oldestOf (c : list (jsstring * InMemoryCacheRepository.CacheEntry))
  (e : InMemoryCacheRepository.CacheEntry) : Prop :=
  forall kv, In kv c ->
    InMemoryCacheRepository.createdAt e
    <= InMemoryCacheRepository.createdAt (snd kv).

(** What every reachable repository satisfies when the stored keys are
    non-empty: distinct, non-empty keys, and no more than [maxKeys] of
    them. *)
Definition bounded (this : InMemoryCacheRepository.t) : Prop :=
  NoDup (InMemoryCacheRepository.getKeys this)
  /\ (forall k, In k (InMemoryCacheRepository.getKeys this) -> k <> [])
  /\ JSMap.size (InMemoryCacheRepository.cache this)
     <= InMemoryCacheRepository.maxKeys this.

(** Well-formed UTF-16: every code unit is below 2^16 and every surrogate
    belongs to a pair. *)
Fixpoint wellFormed (s : jsstring) : bool :=
  match s with
  | [] => true
  | c :: r =>
      if Buffer.isHighSurrogate c then
        match r with
        | d :: r' => Buffer.isLowSurrogate d && wellFormed r'
        | [] => false
        end
      else
        negb (Buffer.isLowSurrogate c) && (0 <=? c) && (c <? 65536)
        && wellFormed r
  end.

Inductive WellFormed : jsstring -> Prop :=
| WF_nil : WellFormed []
| WF_unit (c : Z) (r : jsstring) :
    0 <= c < 65536 ->
    Buffer.isHighSurrogate c = false -> Buffer.isLowSurrogate c = false ->
    WellFormed r -> WellFormed (c :: r)
| WF_pair (c d : Z) (r : jsstring) :
    Buffer.isHighSurrogate c = true -> Buffer.isLowSurrogate d = true ->
    WellFormed r -> WellFormed (c :: d :: r).

Definition isAscii (s : jsstring) : bool :=
  forallb (fun c => (0 <=? c) && (c <? 128)) s.

(** The position of a character in the base64 alphabet. *)
Definition b64index (c : Z) : Z :=
  if (65 <=? c) && (c <=? 90) then c - 65
  else if (97 <=? c) && (c <=? 122) then c - 71
  else if (48 <=? c) && (c <=? 57) then c + 4
  else if c =? 43 then 62
  else 63.

Definition b64RoundTrips (n : Z) : bool :=
  (b64index (Buffer.b64char n) =? n) && negb (Buffer.b64char n =? 61)
  && (0 <=? Buffer.b64char n) && (Buffer.b64char n <? 128).

Definition isByte (b : Z) : Prop := 0 <= b < 256.

(** A Unicode code point. *)
Definition isCodePoint (cp : Z) : Prop := 0 <= cp < 1114112.

(** The two characters that [toHex] writes for a channel. *)
Definition hexByte (z : Z) : jsstring := padStart2 (intToString 16 z).

Definition hexRoundTrips (z : Z) : bool :=
  (List.length (hexByte z) =? 2)%nat
  && match parseInt (hexByte z) 16 with
     | Int v => v =? z
     | _ => false
     end
  && isAscii (hexByte z).

(** A channel as [ColorValue.create] leaves it: an integer that two
    hexadecimal characters or a checked decimal can denote.  A channel that
    [ColorValue.fromRGB] accepts need not be one. *)
Definition validChannel (n : number) : Prop :=
  exists z, n = Int z /\ -15 <= z <= 255.

Definition validColor (c : ColorValue.t) : Prop :=
  validChannel (ColorValue.r c) /\ validChannel (ColorValue.g c)
  /\ validChannel (ColorValue.b c).

(** A configuration whose payload is well-formed UTF-16, whose size,
    margin and quiet zone are in the ranges that the factories check, whose
    colours have channels as [ColorValue.create] leaves them, and whose
    charsets are supported.  The configurations that
    [GenerateQRCodeUseCase.buildConfiguration] builds satisfy it when their
    payload is well-formed (lemma [buildConfiguration_valid]); one that is
    given a colour of [ColorValue.fromRGB] need not. *)
Definition validConfiguration (c : QRCodeConfiguration.t) : Prop :=
  wellFormed (DataPayload.content (QRCodeConfiguration.data c)) = true
  /\ sizeInRange (QRCodeConfiguration.size c)
  /\ validColor (QRCodeConfiguration.foregroundColor c)
  /\ validColor (QRCodeConfiguration.backgroundColor c)
  /\ 0 <= QRCodeConfiguration.margin c <= 50
  /\ 0 <= QRCodeConfiguration.quietZone c <= 100
  /\ includes QRCodeConfiguration.supportedCharsets
       (QRCodeConfiguration.charsetSource c) = true
  /\ includes QRCodeConfiguration.supportedCharsets
       (QRCodeConfiguration.charsetTarget c) = true.

(** The ten canonical fields of a configuration. *)
Inductive Field : Type :=
| FData | FSize | FFormat | FErrorCorrectionLevel | FForegroundColor
| FBackgroundColor | FMargin | FQuietZone | FCharsetSource | FCharsetTarget.

Definition agreeOn (f : Field) (a b : QRCodeConfiguration.t) : Prop :=
  match f with
  | FData => QRCodeConfiguration.data a = QRCodeConfiguration.data b
  | FSize => QRCodeConfiguration.size a = QRCodeConfiguration.size b
  | FFormat => QRCodeConfiguration.format a = QRCodeConfiguration.format b
  | FErrorCorrectionLevel =>
      QRCodeConfiguration.errorCorrectionLevel a
      = QRCodeConfiguration.errorCorrectionLevel b
  | FForegroundColor =>
      QRCodeConfiguration.foregroundColor a
      = QRCodeConfiguration.foregroundColor b
  | FBackgroundColor =>
      QRCodeConfiguration.backgroundColor a
      = QRCodeConfiguration.backgroundColor b
  | FMargin => QRCodeConfiguration.margin a = QRCodeConfiguration.margin b
  | FQuietZone =>
      QRCodeConfiguration.quietZone a = QRCodeConfiguration.quietZone b
  | FCharsetSource =>
      QRCodeConfiguration.charsetSource a = QRCodeConfiguration.charsetSource b
  | FCharsetTarget =>
      QRCodeConfiguration.charsetTarget a = QRCodeConfiguration.charsetTarget b
  end.

(** The world after a sequence of requests, each with the time of its
    call, has been served by [GenerateQRCodeUseCase.execute]. *)
Definition serveAll `{Platform} {S : Type} `{ICacheRepository S}
  `{IQRCodeGenerator} (uc : CacheManagementUseCase.t)
  (calls : list (Z * ValidateParametersUseCase.QRCodeRequestDTO))
  (w : World S) : World S :=
  fold_left
    (fun w call =>
       snd (GenerateQRCodeUseCase.execute uc (fst call) (snd call) w))
    calls w.

(** Every entry of the cache holds an artifact that the generator
    returned for a configuration with the key of the entry. *)
Definition holdsGenerated `{IQRCodeGenerator}
  (c : list (jsstring * InMemoryCacheRepository.CacheEntry)) : Prop :=
  Forall
    (fun kv =>
       exists (t : Z) (configuration : QRCodeConfiguration.t),
         generate t configuration
         = Ok (InMemoryCacheRepository.qrCode (snd kv))
         /\ QRCodeConfiguration.getHashKey configuration = fst kv)
    c.

(** The two configurations differ in the field [f] and in no other. *)
Definition differOnlyIn (f : Field) (a b : QRCodeConfiguration.t) : Prop :=
  ~ agreeOn f a b /\ forall g, g <> f -> agreeOn g a b.

End Props.

Import Props.

(** ** Predicates on requests *)

Module Requests.

Import ValidationResult ValidateParametersUseCase.

(** The parameters of a request. *)
Inductive Param : Type :=
| PData | PSize | PFormat | PEcc | PColor | PBgColor | PMargin | PQzone
| PCharsetSource | PCharsetTarget | PLogo | PLogoSize | PLogoMargin.

Definition allParams : list Param :=
  [PData; PSize; PFormat; PEcc; PColor; PBgColor; PMargin; PQzone;
   PCharsetSource; PCharsetTarget; PLogo; PLogoSize; PLogoMargin].

(** The checks that [ValidateParametersUseCase.execute] makes, in its
    order: one for each of the first ten parameters, one for the three logo
    parameters together, and the two cross-field checks. *)
Inductive FieldCheck : Type :=
| CData | CSize | CFormat | CEcc | CColor | CBgColor | CMargin | CQzone
| CCharsetSource | CCharsetTarget | CLogo | CContrast | CLogoSize.

Definition allChecks : list FieldCheck :=
  [CData; CSize; CFormat; CEcc; CColor; CBgColor; CMargin; CQzone;
   CCharsetSource; CCharsetTarget; CLogo; CContrast; CLogoSize].

(** The field that an entry of the check names. *)
Definition checkField (c : FieldCheck) : jsstring :=
  match c with
  | CData => lit "data"
  | CSize => lit "size"
  | CFormat => lit "format"
  | CEcc => lit "ecc"
  | CColor => lit "color"
  | CBgColor => lit "bgcolor"
  | CMargin => lit "margin"
  | CQzone => lit "qzone"
  | CCharsetSource => lit "charset-source"
  | CCharsetTarget => lit "charset-target"
  | CLogo => lit "logo"
  | CContrast => lit "color_contrast"
  | CLogoSize => lit "logo_size"
  end.

(** The error of a [throw], if any. *)
Definition thrown {A} (r : Res A) : option DomainError :=
  match r with
  | Throw e => Some e
  | Ok _ => None
  end.

Definition isSome {A} (o : option A) : bool :=
  match o with Some _ => true | None => false end.

Section WithPlatform.
Context `{Platform}.

(** The error with which the domain layer refuses the value of a parameter
    that is present: the factory of its value object for the data, the
    size, the format, the level and the two colours, the range checks of
    the configuration for the margin and the quiet zone, and the three
    steps of [Logo.create] for the logo parameters, which count when a logo
    is asked for and take the defaults that [Logo.create] gives them. *)
Definition refusal (request : QRCodeRequestDTO) (p : Param)
  : option DomainError :=
  match p with
  | PData =>
      match present (data request) with
      | Some d => thrown (DataPayload.create d)
      | None => None
      end
  | PSize =>
      match present (size request) with
      | Some s => thrown (Size.fromString s)
      | None => None
      end
  | PFormat =>
      match present (format request) with
      | Some f => thrown (OutputFormatValue.create f)
      | None => None
      end
  | PEcc =>
      match present (ecc request) with
      | Some e => thrown (ErrorCorrectionLevelValue.create e)
      | None => None
      end
  | PColor =>
      match present (color request) with
      | Some c => thrown (ColorValue.create c)
      | None => None
      end
  | PBgColor =>
      match present (bgcolor request) with
      | Some c => thrown (ColorValue.create c)
      | None => None
      end
  | PMargin =>
      match margin request with
      | Some n => thrown (QRCodeConfiguration.validateMargin (Some n))
      | None => None
      end
  | PQzone =>
      match qzone request with
      | Some n => thrown (QRCodeConfiguration.validateQuietZone (Some n))
      | None => None
      end
  | PCharsetSource | PCharsetTarget => None
  | PLogo =>
      match present (logo request) with
      | Some l => thrown (Logo.validateSource l)
      | None => None
      end
  | PLogoSize =>
      match present (logo request) with
      | Some _ =>
          thrown (Logo.validateSize
                    (match logo_size request with
                     | Some n => if truthy n then n else Int 50
                     | None => Int 50
                     end))
      | None => None
      end
  | PLogoMargin =>
      match present (logo request) with
      | Some _ =>
          thrown (Logo.validateMargin
                    (match logo_margin request with
                     | Some n => n
                     | None => Int 5
                     end))
      | None => None
      end
  end.

Definition unsupportedCharset (charset : option jsstring) : bool :=
  match present charset with
  | Some c => negb (includes QRCodeConfiguration.supportedCharsets c)
  | None => false
  end.

(** The parameter is unacceptable: the required data is missing, the
    domain layer refuses the value, or the charset is not a supported
    one. *)
Definition invalid (request : QRCodeRequestDTO) (p : Param) : bool :=
  match p with
  | PData =>
      match present (data request) with
      | Some _ => isSome (refusal request PData)
      | None => true
      end
  | PCharsetSource => unsupportedCharset (charset_source request)
  | PCharsetTarget => unsupportedCharset (charset_target request)
  | _ => isSome (refusal request p)
  end.

(** Both colours are given and readable, and their contrast is too low. *)
Definition lowContrast (request : QRCodeRequestDTO) : bool :=
  match present (color request), present (bgcolor request) with
  | Some c, Some b =>
      match ColorValue.create c, ColorValue.create b with
      | Ok foreground, Ok background =>
          negb (ColorValue.hasAccessibleContrast foreground background)
      | _, _ => false
      end
  | _, _ => false
  end.

(** A logo, a readable size and a logo size are given, and the logo size
    exceeds three tenths of the smaller dimension. *)
Definition logoTooLarge (request : QRCodeRequestDTO) : bool :=
  match present (logo request), present (size request),
        presentNumber (logo_size request) with
  | Some _, Some s, Some n =>
      match Size.fromString s with
      | Ok sz => exceedsThreeTenths n (Z.min (Size.width sz) (Size.height sz))
      | Throw _ => false
      end
  | _, _, _ => false
  end.

(** The parameters that a check covers. *)
Definition covered (c : FieldCheck) : list Param :=
  match c with
  | CData => [PData]
  | CSize => [PSize]
  | CFormat => [PFormat]
  | CEcc => [PEcc]
  | CColor => [PColor]
  | CBgColor => [PBgColor]
  | CMargin => [PMargin]
  | CQzone => [PQzone]
  | CCharsetSource => [PCharsetSource]
  | CCharsetTarget => [PCharsetTarget]
  | CLogo => [PLogo; PLogoSize; PLogoMargin]
  | CContrast | CLogoSize => []
  end.

(** A check fails when one of its parameters is unacceptable; the two
    cross-field checks have conditions of their own. *)
Definition fails (request : QRCodeRequestDTO) (c : FieldCheck) : bool :=
  match c with
  | CContrast => lowContrast request
  | CLogoSize => logoTooLarge request
  | _ => existsb (invalid request) (covered c)
  end.

(** The kind of error that a failing check reports. *)
Definition checkType (request : QRCodeRequestDTO) (c : FieldCheck)
  : ValidationErrorType :=
  match c with
  | CData =>
      match present (data request) with
      | Some _ => INVALID_VALUE
      | None => REQUIRED_FIELD
      end
  | CSize | CColor | CBgColor => INVALID_FORMAT
  | CFormat | CEcc | CCharsetSource | CCharsetTarget | CLogo => INVALID_VALUE
  | CMargin | CQzone => OUT_OF_RANGE
  | CContrast | CLogoSize => CONSTRAINT_VIOLATION
  end.

(** The offending value that a failing check of parameters reports. *)
Definition offending (request : QRCodeRequestDTO) (c : FieldCheck)
  : option OffendingValue :=
  match c with
  | CData => option_map VString (present (data request))
  | CSize => option_map VString (present (size request))
  | CFormat => option_map VString (present (format request))
  | CEcc => option_map VString (present (ecc request))
  | CColor => option_map VString (present (color request))
  | CBgColor => option_map VString (present (bgcolor request))
  | CMargin => option_map VNumber (margin request)
  | CQzone => option_map VNumber (qzone request)
  | CCharsetSource => option_map VString (present (charset_source request))
  | CCharsetTarget => option_map VString (present (charset_target request))
  | CLogo =>
      option_map
        (fun l => VLogo l (logo_size request) (logo_margin request))
        (present (logo request))
  | CContrast | CLogoSize => None
  end.

(** The entry [e] is the report of the failing check [c]: it names the
    field of the check, has its kind and, for a check of parameters, its
    offending value; its message is that of the refusal of the first
    unacceptable parameter that the check covers, and the dedicated one when
    the data is missing. *)
Definition reports (request : QRCodeRequestDTO) (c : FieldCheck)
  (e : ValidationError) : Prop :=
  field e = checkField c
  /\ type e = checkType request c
  /\ (covered c <> [] -> value e = offending request c)
  /\ (forall p err,
         find (invalid request) (covered c) = Some p ->
         refusal request p = Some err -> message e = errorMessage err)
  /\ (c = CData -> present (data request) = None ->
      message e = lit "Data field is required").

End WithPlatform.

End Requests.

Import Requests.

(* ================================================================== *)
(** * Part II: properties                                              *)
(* ================================================================== *)

(** ** Strings *)

Lemma streq_refl (s : jsstring) : streq s s = true.
Proof.
  induction s as [|c s IH]; simpl; [reflexivity|].
  now rewrite Z.eqb_refl, IH.
Qed.

Lemma streq_eq (a b : jsstring) : streq a b = true <-> a = b.
Proof.
  split; [|intros ->; apply streq_refl].
  revert b; induction a as [|x a IH]; intros [|y b]; simpl; try discriminate.
  - reflexivity.
  - intros E. apply andb_prop in E as [E1 E2].
    apply Z.eqb_eq in E1. apply IH in E2. congruence.
Qed.

Lemma streq_neq (a b : jsstring) : streq a b = false <-> a <> b.
Proof.
  destruct (streq a b) eqn:E.
  - apply streq_eq in E. split; [discriminate|contradiction].
  - split; [|reflexivity]. intros _ ->. rewrite streq_refl in E. discriminate.
Qed.

Lemma length_zero_nil (s : jsstring) : (JS.length s =? 0) = true <-> s = [].
Proof.
  unfold JS.length. destruct s as [|c s]; simpl List.length.
  - split; reflexivity.
  - split; [|discriminate]. intros E. apply Z.eqb_eq in E. lia.
Qed.

(** ** Size *)

Lemma Size_create_in_range (w h : Z) :
  10 <= w <= 1000 -> 10 <= h <= 1000 ->
  Size.create (Int w) (Int h) = Ok (Size.mk w h).
Proof.
  intros Hw Hh. unfold Size.create; simpl.
  replace (w <? 10) with false by (symmetry; apply Z.ltb_ge; lia).
  replace (1000 <? w) with false by (symmetry; apply Z.ltb_ge; lia).
  replace (h <? 10) with false by (symmetry; apply Z.ltb_ge; lia).
  replace (1000 <? h) with false by (symmetry; apply Z.ltb_ge; lia).
  reflexivity.
Qed.

Lemma Size_create_ok (w h : number) (s : Size.t) :
  Size.create w h = Ok s ->
  w = Int (Size.width s) /\ h = Int (Size.height s) /\ sizeInRange s.
Proof.
  unfold Size.create, sizeInRange.
  destruct w as [w| |nw], h as [h| |nh]; simpl; try discriminate.
  destruct (w <? 10) eqn:E1; [discriminate|].
  destruct (1000 <? w) eqn:E2; [discriminate|].
  destruct (h <? 10) eqn:E3; [discriminate|].
  destruct (1000 <? h) eqn:E4; [discriminate|].
  simpl. intros [= <-]. simpl.
  apply Z.ltb_ge in E1, E2, E3, E4. repeat split; lia.
Qed.

Lemma Size_fromString_ok (str : jsstring) (s : Size.t) :
  Size.fromString str = Ok s -> sizeInRange s.
Proof.
  unfold Size.fromString.
  destruct (Size.matchWxH str) as [[m1 m2]|]; [|discriminate].
  intros E. now apply Size_create_ok in E.
Qed.

Lemma takeDigits_app (d rest : jsstring) :
  forallb Size.isDigit d = true ->
  match rest with [] => True | x :: _ => Size.isDigit x = false end ->
  Size.takeDigits (d ++ rest) = (d, rest).
Proof.
  intros Hd Hr. induction d as [|c d IH]; simpl in *.
  - destruct rest as [|x r]; [reflexivity|]. simpl. now rewrite Hr.
  - apply andb_prop in Hd as [Hc Hd]. rewrite Hc, (IH Hd). reflexivity.
Qed.

Lemma matchWxH_digits (dw dh : jsstring) (sep : Z) :
  forallb Size.isDigit dw = true -> forallb Size.isDigit dh = true ->
  dw <> [] -> dh <> [] -> sep = 120 \/ sep = 88 ->
  Size.matchWxH (dw ++ sep :: dh) = Some (dw, dh).
Proof.
  intros Hw Hh Nw Nh Hsep. unfold Size.matchWxH.
  rewrite (takeDigits_app dw (sep :: dh) Hw)
    by (destruct Hsep as [-> | ->]; reflexivity).
  destruct dw as [|c dw]; [contradiction|].
  replace ((sep =? 120) || (sep =? 88)) with true
    by (destruct Hsep as [-> | ->]; reflexivity).
  replace dh with (dh ++ []) at 1 by apply app_nil_r.
  rewrite (takeDigits_app dh [] Hh I).
  destruct dh; [contradiction|reflexivity].
Qed.

(** Checking a boolean property on every integer of an interval. *)
Lemma forallb_interval (f : Z -> bool) (lo : Z) (n : nat) :
  forallb (fun k => f (lo + Z.of_nat k)) (seq 0 n) = true ->
  forall z, lo <= z < lo + Z.of_nat n -> f z = true.
Proof.
  intros Hall z Hz. rewrite forallb_forall in Hall.
  specialize (Hall (Z.to_nat (z - lo))).
  replace (lo + Z.of_nat (Z.to_nat (z - lo))) with z in Hall by lia.
  apply Hall. apply in_seq. lia.
Qed.

Lemma decimal_round_trip (z : Z) :
  0 <= z <= 1000 ->
  parseInt (intToString 10 z) 10 = Int z
  /\ forallb Size.isDigit (intToString 10 z) = true
  /\ intToString 10 z <> [].
Proof.
  intros Hz.
  assert (H : decimalRoundTrips z = true).
  { apply (forallb_interval decimalRoundTrips 0 1001); [now vm_compute|lia]. }
  unfold decimalRoundTrips in H.
  apply andb_prop in H as [H H3]. apply andb_prop in H as [H1 H2].
  repeat split.
  - destruct (parseInt (intToString 10 z) 10); try discriminate.
    apply Z.eqb_eq in H1. now subst.
  - exact H2.
  - apply streq_neq. now destruct (streq (intToString 10 z) []).
Qed.

(** C3, as the code has it.  [Size.create] accepts every pair of integers
    that both lie in [10, 1000], equal or not, and nothing else;
    [Size.fromString] hands the two numbers of a [<digits>x<digits>] string
    (separator [x] or [X]) to [Size.create] and so accepts unequal ones
    too, in particular the canonical text of every in-range pair; a [Size] made
    by [create], [fromString] or [default] holds a width and a height within
    [10, 1000]. *)
Theorem C3_size_accepts_every_in_range_pair :
  (forall w h : Z,
      10 <= w <= 1000 -> 10 <= h <= 1000 ->
      Size.create (Int w) (Int h) = Ok (Size.mk w h))
  /\ (forall (w h : number) (s : Size.t),
         Size.create w h = Ok s ->
         w = Int (Size.width s) /\ h = Int (Size.height s) /\ sizeInRange s)
  /\ (forall (dw dh : jsstring) (sep : Z),
         forallb Size.isDigit dw = true -> forallb Size.isDigit dh = true ->
         dw <> [] -> dh <> [] -> sep = 120 \/ sep = 88 ->
         Size.fromString (dw ++ sep :: dh)
         = Size.create (parseInt dw 10) (parseInt dh 10))
  /\ (forall w h : Z,
         10 <= w <= 1000 -> 10 <= h <= 1000 ->
         Size.fromString (Size.toString (Size.mk w h)) = Ok (Size.mk w h))
  /\ (forall (str : jsstring) (s : Size.t),
         Size.fromString str = Ok s -> sizeInRange s)
  /\ sizeInRange Size.default.
Proof.
  split; [exact Size_create_in_range|].
  split; [exact Size_create_ok|].
  assert (Hfrom : forall (dw dh : jsstring) (sep : Z),
             forallb Size.isDigit dw = true -> forallb Size.isDigit dh = true ->
             dw <> [] -> dh <> [] -> sep = 120 \/ sep = 88 ->
             Size.fromString (dw ++ sep :: dh)
             = Size.create (parseInt dw 10) (parseInt dh 10)).
  { intros dw dh sep Hw Hh Nw Nh Hsep. unfold Size.fromString.
    now rewrite (matchWxH_digits dw dh sep Hw Hh Nw Nh Hsep). }
  split; [exact Hfrom|].
  split; [|split; [exact Size_fromString_ok|unfold sizeInRange; simpl; lia]].
  intros w h Hw Hh. unfold Size.toString; simpl Size.width; simpl Size.height.
  destruct (decimal_round_trip w) as (Pw & Dw & Nw); [lia|].
  destruct (decimal_round_trip h) as (Ph & Dh & Nh); [lia|].
  change (lit "x" ++ intToString 10 h) with (120 :: intToString 10 h).
  rewrite (Hfrom _ _ 120 Dw Dh Nw Nh (or_introl eq_refl)), Pw, Ph.
  now apply Size_create_in_range.
Qed.

(** The claim C3 as stated fails: a 200 by 300 size is built, and the
    string 300x400 parses. *)
Lemma C3_non_square_is_accepted :
  200 <> 300
  /\ Size.create (Int 200) (Int 300) = Ok (Size.mk 200 300)
  /\ Size.fromString (lit "300x400") = Ok (Size.mk 300 400)
  /\ Size.isSquare (Size.mk 200 300) = false.
Proof. repeat split; try reflexivity. discriminate. Qed.

Lemma C3_size_accepts_every_in_range_pair_witness :
  Size.create (Int 200) (Int 300) = Ok (Size.mk 200 300)
  /\ Size.fromString (lit "300X400")
     = Size.create (parseInt (lit "300") 10) (parseInt (lit "400") 10)
  /\ sizeInRange (Size.mk 300 400).
Proof.
  split; [|split].
  - apply (proj1 C3_size_accepts_every_in_range_pair 200 300); lia.
  - apply (proj1 (proj2 (proj2 C3_size_accepts_every_in_range_pair))
             (lit "300") (lit "400") 88); try reflexivity; try discriminate.
    now right.
  - apply (proj1 (proj2 (proj2 (proj2 (proj2 C3_size_accepts_every_in_range_pair))))
             (lit "300x400")).
    reflexivity.
Defined.

(** ** DataPayload *)

(** C9.  [DataPayload.create] returns the trimmed payload for every input
    that is not blank after trimming, has at most 900 code units and, when
    it starts with [http://], [https://] or [ftp://], is accepted by the URL
    parser; so every such input of exactly 900 units succeeds.  Every input
    of 901 units or more fails, with the error whose message names the 900
    limit unless the input is blank; a blank input is rejected with the
    empty-content error whatever its length, since that check comes
    first. *)
Theorem C9_data_payload_create (P : Platform) (data : jsstring) :
  (trim data <> [] -> JS.length data <= 900 ->
   (DataPayload.isUrlString data = true -> newURL data <> None) ->
   DataPayload.create data = Ok (DataPayload.mk (trim data)))
  /\ (trim data <> [] -> JS.length data = 900 ->
      (DataPayload.isUrlString data = true -> newURL data <> None) ->
      isOk (DataPayload.create data) = true)
  /\ (JS.length data >= 901 ->
      DataPayload.create data
      = Throw (if streq (trim data) [] then DataEmpty else DataTooLong))
  /\ errorMessage DataTooLong = lit "Data content cannot exceed 900 characters"
  /\ (trim data = [] -> DataPayload.create data = Throw DataEmpty).
Proof.
  assert (Hblank : trim data = [] -> DataPayload.create data = Throw DataEmpty).
  { intros E. unfold DataPayload.create.
    rewrite (proj2 (length_zero_nil (trim data)) E), orb_true_r. reflexivity. }
  assert (Hguard : trim data <> [] ->
            streq data [] || (JS.length (trim data) =? 0) = false).
  { intros N. apply orb_false_iff. split.
    - apply streq_neq. intros ->. now apply N.
    - destruct (JS.length (trim data) =? 0) eqn:E; [|reflexivity].
      now apply length_zero_nil in E. }
  assert (Hok : trim data <> [] -> JS.length data <= 900 ->
            (DataPayload.isUrlString data = true -> newURL data <> None) ->
            DataPayload.create data = Ok (DataPayload.mk (trim data))).
  { intros N L U. unfold DataPayload.create. rewrite (Hguard N).
    replace (JS.length data >? 900) with false
      by (rewrite Z.gtb_ltb; symmetry; apply Z.ltb_ge; lia).
    destruct (DataPayload.isUrlString data); [|reflexivity].
    destruct (newURL data); [reflexivity|]. now destruct U. }
  repeat split.
  - exact Hok.
  - intros N L U. rewrite Hok; [reflexivity|assumption|lia|assumption].
  - intros L. destruct (streq (trim data) []) eqn:E.
    + apply Hblank. now apply streq_eq.
    + apply streq_neq in E. unfold DataPayload.create. rewrite (Hguard E).
      replace (JS.length data >? 900) with true; [reflexivity|].
      rewrite Z.gtb_ltb. symmetry. apply Z.ltb_lt. lia.
  - exact Hblank.
Qed.

Lemma C9_data_payload_create_witness :
  @DataPayload.create Sample.platform (repeat 65 900)
  = Ok (DataPayload.mk (repeat 65 900))
  /\ @DataPayload.create Sample.platform (repeat 65 901) = Throw DataTooLong
  /\ @DataPayload.create Sample.platform (repeat 32 901) = Throw DataEmpty.
Proof.
  split; [|split].
  - apply (proj1 (C9_data_payload_create Sample.platform (repeat 65 900))).
    + now vm_compute.
    + now vm_compute.
    + now vm_compute.
  - apply (proj1 (proj2 (proj2
             (C9_data_payload_create Sample.platform (repeat 65 901))))).
    now vm_compute.
  - apply (proj2 (proj2 (proj2 (proj2
             (C9_data_payload_create Sample.platform (repeat 32 901)))))).
    now vm_compute.
Defined.

(** ** Logo *)

(** C10.  For a source that the URL parser reads as an http(s) URL,
    [Logo.create] throws the private-address error as soon as the host name
    is [localhost] or [127.0.0.1] or merely starts with [192.168.], [10.]
    or [172.], which takes in the public address 172.5.5.5 and the name
    10.example.com.  For any other host name whose lower-cased path ends in
    [.png], [.jpg], [.jpeg] or [.svg] the source is accepted: the result is
    that of the size and margin checks, and the logo itself when they are
    left out. *)
Theorem C10_logo_private_host_filter (P : Platform)
  (source : jsstring) (size margin : option number) (url : URL) :
  trim source <> [] ->
  newURL (trim source) = Some url ->
  protocol url = lit "http:" \/ protocol url = lit "https:" ->
  ((hostname url = lit "localhost" \/ hostname url = lit "127.0.0.1"
    \/ startsWith (hostname url) (lit "192.168.") = true
    \/ startsWith (hostname url) (lit "10.") = true
    \/ startsWith (hostname url) (lit "172.") = true) ->
   Logo.create source size margin = Throw LogoPrivateHost)
  /\ (hostname url <> lit "localhost" -> hostname url <> lit "127.0.0.1" ->
      startsWith (hostname url) (lit "192.168.") = false ->
      startsWith (hostname url) (lit "10.") = false ->
      startsWith (hostname url) (lit "172.") = false ->
      (endsWith (toLowerCase (pathname url)) (lit ".png") = true
       \/ endsWith (toLowerCase (pathname url)) (lit ".jpg") = true
       \/ endsWith (toLowerCase (pathname url)) (lit ".jpeg") = true
       \/ endsWith (toLowerCase (pathname url)) (lit ".svg") = true) ->
      Logo.validateSource source = Ok (trim source)
      /\ Logo.create source None None = Ok (Logo.mk (trim source) 50 5))
  /\ startsWith (lit "172.5.5.5") (lit "172.") = true
  /\ startsWith (lit "10.example.com") (lit "10.") = true.
Proof.
  intros N U Hp.
  assert (Hguard : streq source [] || (JS.length (trim source) =? 0) = false).
  { apply orb_false_iff. split.
    - apply streq_neq. intros ->. now apply N.
    - destruct (JS.length (trim source) =? 0) eqn:E; [|reflexivity].
      now apply length_zero_nil in E. }
  assert (HisUrl : Logo.isUrl (trim source) = true).
  { unfold Logo.isUrl. rewrite U.
    destruct Hp as [-> | ->]; reflexivity. }
  split; [|split; [|split; reflexivity]].
  - intros Hhost. unfold Logo.create, Logo.validateSource.
    rewrite Hguard, HisUrl. unfold Logo.validateUrl. rewrite U.
    replace (Logo.isPrivateHost (hostname url)) with true; [reflexivity|].
    symmetry. unfold Logo.isPrivateHost.
    destruct Hhost as [E | [E | [E | [E | E]]]]; rewrite ?E, ?streq_refl,
      ?orb_true_r; reflexivity.
  - intros H1 H2 H3 H4 H5 Hext.
    assert (Hsrc : Logo.validateSource source = Ok (trim source)).
    { unfold Logo.validateSource. rewrite Hguard, HisUrl.
      unfold Logo.validateUrl. rewrite U.
      replace (Logo.isPrivateHost (hostname url)) with false.
      - replace (existsb (fun ext => endsWith (toLowerCase (pathname url)) ext)
                   Logo.supportedExtensions) with true; [reflexivity|].
        symmetry. unfold Logo.supportedExtensions. simpl existsb.
        destruct Hext as [E | [E | [E | E]]]; rewrite E, ?orb_true_r;
          reflexivity.
      - symmetry. unfold Logo.isPrivateHost.
        apply streq_neq in H1, H2. now rewrite H1, H2, H3, H4, H5. }
    split; [exact Hsrc|].
    unfold Logo.create. rewrite Hsrc. reflexivity.
Qed.

Lemma C10_logo_private_host_filter_witness :
  @Logo.create Sample.platform (lit "http://172.5.5.5/logo.png") None None
  = Throw LogoPrivateHost
  /\ @Logo.create Sample.platform (lit "https://10.example.com/a.svg") None None
     = Throw LogoPrivateHost
  /\ @Logo.create Sample.platform (lit "https://cdn.example.com/Logo.PNG")
       None None
     = Ok (Logo.mk (lit "https://cdn.example.com/Logo.PNG") 50 5).
Proof.
  split; [|split].
  - apply (proj1 (C10_logo_private_host_filter Sample.platform
             (lit "http://172.5.5.5/logo.png") None None
             (mkURL (lit "http:") (lit "172.5.5.5") (lit "/logo.png"))
             ltac:(now vm_compute) ltac:(now vm_compute)
             ltac:(now left))).
    do 4 right. now vm_compute.
  - apply (proj1 (C10_logo_private_host_filter Sample.platform
             (lit "https://10.example.com/a.svg") None None
             (mkURL (lit "https:") (lit "10.example.com") (lit "/a.svg"))
             ltac:(now vm_compute) ltac:(now vm_compute)
             ltac:(now right))).
    do 3 right. left. now vm_compute.
  - apply (proj1 (proj2 (C10_logo_private_host_filter Sample.platform
             (lit "https://cdn.example.com/Logo.PNG") None None
             (mkURL (lit "https:") (lit "cdn.example.com") (lit "/Logo.PNG"))
             ltac:(now vm_compute) ltac:(now vm_compute)
             ltac:(now right)))); try (now vm_compute).
    left. now vm_compute.
Defined.

(** ** QRCodeConfiguration: construction *)

(** C4.  Whatever the contrast between the two colours, the constructor
    returns the configuration as soon as the margin, the quiet zone, the
    two charsets and the compatibility of the data with the source charset
    pass their checks: an insufficient contrast only adds one line to the
    console. *)
Theorem C4_contrast_is_only_a_warning (P : Platform)
  (params : QRCodeConfiguration.QRCodeConfigurationParams) (m q : Z) :
  let cs := QRCodeConfiguration.orDefaultString
              (QRCodeConfiguration.p_charsetSource params) (lit "UTF-8") in
  let ct := QRCodeConfiguration.orDefaultString
              (QRCodeConfiguration.p_charsetTarget params) (lit "UTF-8") in
  let fg := QRCodeConfiguration.orDefault
              (QRCodeConfiguration.p_foregroundColor params) ColorValue.black in
  let bg := QRCodeConfiguration.orDefault
              (QRCodeConfiguration.p_backgroundColor params) ColorValue.white in
  QRCodeConfiguration.validateMargin (QRCodeConfiguration.p_margin params) = Ok m ->
  QRCodeConfiguration.validateQuietZone (QRCodeConfiguration.p_quietZone params)
  = Ok q ->
  DataPayload.isCompatibleWithCharset (QRCodeConfiguration.p_data params) cs
  = true ->
  includes QRCodeConfiguration.supportedCharsets cs = true ->
  includes QRCodeConfiguration.supportedCharsets ct = true ->
  QRCodeConfiguration.new params
  = Ok (QRCodeConfiguration.mk (QRCodeConfiguration.p_data params)
          (QRCodeConfiguration.orDefault (QRCodeConfiguration.p_size params)
             Size.default)
          (QRCodeConfiguration.orDefault (QRCodeConfiguration.p_format params)
             OutputFormatValue.default)
          (QRCodeConfiguration.orDefault
             (QRCodeConfiguration.p_errorCorrectionLevel params)
             ErrorCorrectionLevelValue.default)
          fg bg m q cs ct,
        if ColorValue.hasAccessibleContrast fg bg then []
        else [QRCodeConfiguration.contrastWarning]).
Proof.
  intros cs ct fg bg Hm Hq Hcompat Hcs Hct.
  unfold QRCodeConfiguration.new. rewrite Hm, Hq. simpl bind.
  unfold QRCodeConfiguration.validateConfiguration.
  simpl QRCodeConfiguration.data. simpl QRCodeConfiguration.charsetSource.
  simpl QRCodeConfiguration.charsetTarget.
  simpl QRCodeConfiguration.foregroundColor.
  simpl QRCodeConfiguration.backgroundColor.
  fold cs ct fg bg. rewrite Hcompat, Hcs, Hct. simpl negb.
  destruct (ColorValue.hasAccessibleContrast fg bg); reflexivity.
Qed.

Lemma C4_contrast_is_only_a_warning_witness :
  @ColorValue.hasAccessibleContrast Sample.platform ColorValue.black
    ColorValue.black = false
  /\ @QRCodeConfiguration.new Sample.platform
       (QRCodeConfiguration.mkParams (DataPayload.mk (lit "hello")) None None
          None (Some ColorValue.black) (Some ColorValue.black) None None None
          None)
     = Ok (QRCodeConfiguration.mk (DataPayload.mk (lit "hello")) Size.default
             OutputFormatValue.PNG ErrorCorrectionLevelValue.LOW ColorValue.black
             ColorValue.black 1 0 (lit "UTF-8") (lit "UTF-8"),
           [QRCodeConfiguration.contrastWarning]).
Proof.
  split; [reflexivity|].
  exact (C4_contrast_is_only_a_warning Sample.platform
           (QRCodeConfiguration.mkParams (DataPayload.mk (lit "hello")) None None
              None (Some ColorValue.black) (Some ColorValue.black) None None None
              None)
           1 0 eq_refl eq_refl eq_refl eq_refl eq_refl).
Defined.

(** ** ValidateParametersUseCase *)

Section Validation.
Context {P : Platform}.

Import ValidationResult ValidateParametersUseCase.

Lemma failingErrors_app (a b : list ValidationResult.t) :
  failingErrors (a ++ b) = failingErrors a ++ failingErrors b.
Proof. unfold failingErrors. now rewrite filter_app, flat_map_app. Qed.

Lemma pushErrors_spec (errors : list ValidationError) (v : ValidationResult.t) :
  pushErrors errors v = errors ++ failingErrors [v].
Proof.
  unfold pushErrors, failingErrors, notValid. simpl.
  destruct (isValid v); simpl; now rewrite app_nil_r.
Qed.

Lemma checkWhen_spec {A} (o : option A) (check : A -> ValidationResult.t)
  (errors : list ValidationError) :
  checkWhen o check errors = errors ++ failingErrors (whenPresent o check).
Proof.
  destruct o; simpl; [apply pushErrors_spec|].
  unfold failingErrors. simpl. now rewrite app_nil_r.
Qed.

(** The accumulated list is the concatenation, in order, of the errors of
    the checks that fail. *)
Lemma execute_accumulates (request : QRCodeRequestDTO) :
  execute request
  = if (0 <? List.length (failingErrors (fieldChecks request)))%nat
    then failure (failingErrors (fieldChecks request))
    else success.
Proof.
  assert (E : forall errors : list ValidationError,
             errors = failingErrors (fieldChecks request) ->
             (if (0 <? List.length errors)%nat then failure errors else success)
             = if (0 <? List.length (failingErrors (fieldChecks request)))%nat
               then failure (failingErrors (fieldChecks request))
               else success) by (now intros ? ->).
  unfold execute. apply E. clear E.
  rewrite !checkWhen_spec, pushErrors_spec.
  unfold fieldChecks. cbv zeta.
  rewrite !failingErrors_app, <- !app_assoc. reflexivity.
Qed.

Lemma single_wellFormed (e : ValidationError) : wellFormedCheck (single e).
Proof. right. split; [reflexivity|]. now exists e. Qed.

Lemma success_wellFormed : wellFormedCheck success.
Proof. left. now split. Qed.

Lemma whenPresent_wellFormed {A} (o : option A)
  (check : A -> ValidationResult.t) :
  (forall a, wellFormedCheck (check a)) ->
  Forall wellFormedCheck (whenPresent o check).
Proof. intros Hc. destruct o; simpl; auto. Qed.

Ltac check_cases :=
  repeat match goal with
    | |- wellFormedCheck (single _) => apply single_wellFormed
    | |- wellFormedCheck success => apply success_wellFormed
    | |- wellFormedCheck (match ?x with _ => _ end) => destruct x
    | |- wellFormedCheck (if ?x then _ else _) => destruct x
    end.

Lemma fieldChecks_wellFormed (request : QRCodeRequestDTO) :
  Forall wellFormedCheck (fieldChecks request).
Proof.
  unfold fieldChecks. cbv zeta.
  repeat (apply Forall_app; split);
    try (apply whenPresent_wellFormed; intros ?);
    try (apply Forall_cons; [|apply Forall_nil]).
  - unfold validateData. check_cases.
  - unfold validateSize. check_cases.
  - unfold validateFormat. check_cases.
  - unfold validateErrorCorrectionLevel. check_cases.
  - unfold validateColor. check_cases.
  - unfold validateColor. check_cases.
  - unfold validateMargin. check_cases.
  - unfold validateQuietZone. check_cases.
  - unfold validateCharset. check_cases.
  - unfold validateCharset. check_cases.
  - unfold validateLogo. check_cases.
  - unfold validateColorContrast. check_cases.
  - unfold validateLogoSizeRelativeToQR. check_cases.
Qed.

Lemma failingErrors_nil (checks : list ValidationResult.t) :
  Forall wellFormedCheck checks ->
  failingErrors checks = [] <-> forallb isValid checks = true.
Proof.
  induction 1 as [|c checks Hc _ IH]; [now split|].
  change (c :: checks) with ([c] ++ checks). rewrite failingErrors_app.
  simpl forallb. unfold failingErrors at 1, notValid. simpl.
  destruct Hc as [[V E] | [V [e E]]]; rewrite V; simpl.
  - exact IH.
  - rewrite E. simpl. split; discriminate.
Qed.

Lemma failing_entry (checks : list ValidationResult.t) (c : ValidationResult.t) :
  In c checks -> isValid c = false ->
  forall e, In e (getErrors c) -> In e (failingErrors checks).
Proof.
  intros Hin V e He. unfold failingErrors. apply in_flat_map.
  exists c. split; [|exact He].
  apply filter_In. split; [exact Hin|]. unfold notValid. now rewrite V.
Qed.

Lemma failingErrors_length (checks : list ValidationResult.t) :
  Forall wellFormedCheck checks ->
  List.length (failingErrors checks) = List.length (filter notValid checks).
Proof.
  induction 1 as [|c checks Hc _ IH]; [reflexivity|].
  change (c :: checks) with ([c] ++ checks).
  rewrite failingErrors_app, filter_app, !length_app, IH. f_equal.
  unfold failingErrors, notValid. simpl.
  destruct Hc as [[V E] | [V [e E]]]; rewrite V; simpl; [reflexivity|].
  now rewrite E.
Qed.

End Validation.

(** ** The checks and the parameters of the request *)

Section Reports.
Context {P : Platform}.

Import ValidationResult ValidateParametersUseCase.

Lemma failingErrors_success : failingErrors [success] = [].
Proof. reflexivity. Qed.

Lemma failingErrors_single (e : ValidationError) :
  failingErrors [single e] = [e].
Proof. reflexivity. Qed.

(** A check that runs always. *)
Lemma report_check (request : QRCodeRequestDTO) (c : FieldCheck)
  (v : ValidationResult.t) :
  (fails request c = false -> v = success) ->
  (fails request c = true ->
   exists e, v = single e /\ reports request c e) ->
  Forall2 (reports request) (filter (fails request) [c]) (failingErrors [v]).
Proof.
  intros Hpass Hfail. cbn [filter].
  destruct (fails request c).
  - destruct (Hfail eq_refl) as (e & -> & R).
    rewrite failingErrors_single. constructor; [exact R|constructor].
  - rewrite (Hpass eq_refl), failingErrors_success. constructor.
Qed.

(** A check that runs when its parameters are present. *)
Lemma report_when (request : QRCodeRequestDTO) {A} (c : FieldCheck)
  (o : option A) (check : A -> ValidationResult.t) :
  (o = None -> fails request c = false) ->
  (forall a, o = Some a -> fails request c = false -> check a = success) ->
  (forall a, o = Some a -> fails request c = true ->
   exists e, check a = single e /\ reports request c e) ->
  Forall2 (reports request) (filter (fails request) [c])
    (failingErrors (whenPresent o check)).
Proof.
  intros Hnone Hpass Hfail. destruct o as [a|]; cbn [whenPresent].
  - apply report_check; auto.
  - cbn [filter]. rewrite Hnone by reflexivity. constructor.
Qed.

Ltac report_entry :=
  eexists; split; [reflexivity|];
  unfold reports;
  cbn [field type value message checkField checkType offending covered find
       option_map];
  repeat split; try reflexivity; try congruence.

(** The message of a check of one parameter. *)
Ltac one_refusal :=
  let Hp := fresh "Hp" in
  let Hr := fresh "Hr" in
  intros ? ? Hp Hr;
  match type of Hp with
  | (if ?b then _ else _) = _ => destruct b; [|discriminate]
  end;
  injection Hp as <-; unfold refusal in Hr.

Lemma report_data (request : QRCodeRequestDTO) :
  Forall2 (reports request) (filter (fails request) [CData])
    (failingErrors [validateData (data request)]).
Proof.
  apply report_check;
    unfold fails, validateData, invalid, refusal; cbn [covered existsb];
    destruct (present (data request)) as [d|] eqn:Ed.
  - destruct (DataPayload.create d); [reflexivity|discriminate].
  - discriminate.
  - destruct (DataPayload.create d) as [|err] eqn:Ec; [discriminate|].
    intros _. report_entry; rewrite ?Ed; try reflexivity.
    one_refusal. rewrite Ed, Ec in Hr. cbn in Hr. congruence.
  - intros _. report_entry; rewrite ?Ed; try reflexivity.
    one_refusal. now rewrite Ed in Hr.
Qed.

(** The checks of one optional string. *)
Ltac optional_string E :=
  apply report_when;
    [ intros E; unfold fails, invalid, refusal; cbn [covered existsb];
      now rewrite E
    | intros a E; unfold fails, invalid, refusal; cbn [covered existsb];
      rewrite E
    | intros a E; unfold fails, invalid, refusal; cbn [covered existsb];
      rewrite E ].

Lemma report_size (request : QRCodeRequestDTO) :
  Forall2 (reports request) (filter (fails request) [CSize])
    (failingErrors (whenPresent (present (size request)) validateSize)).
Proof.
  optional_string E; unfold validateSize;
    destruct (Size.fromString a) as [|err] eqn:Ec; try discriminate;
    try reflexivity.
  intros _. report_entry; rewrite ?E; try reflexivity.
  one_refusal. rewrite E, Ec in Hr. cbn in Hr. congruence.
Qed.

Lemma report_format (request : QRCodeRequestDTO) :
  Forall2 (reports request) (filter (fails request) [CFormat])
    (failingErrors (whenPresent (present (format request)) validateFormat)).
Proof.
  optional_string E; unfold validateFormat;
    destruct (OutputFormatValue.create a) as [|err] eqn:Ec; try discriminate;
    try reflexivity.
  intros _. report_entry; rewrite ?E; try reflexivity.
  one_refusal. rewrite E, Ec in Hr. cbn in Hr. congruence.
Qed.

Lemma report_ecc (request : QRCodeRequestDTO) :
  Forall2 (reports request) (filter (fails request) [CEcc])
    (failingErrors
       (whenPresent (present (ecc request)) validateErrorCorrectionLevel)).
Proof.
  optional_string E; unfold validateErrorCorrectionLevel;
    destruct (ErrorCorrectionLevelValue.create a) as [|err] eqn:Ec;
    try discriminate; try reflexivity.
  intros _. report_entry; rewrite ?E; try reflexivity.
  one_refusal. rewrite E, Ec in Hr. cbn in Hr. congruence.
Qed.

Lemma report_color (request : QRCodeRequestDTO) :
  Forall2 (reports request) (filter (fails request) [CColor])
    (failingErrors
       (whenPresent (present (color request))
          (fun c => validateColor c (lit "color")))).
Proof.
  optional_string E; unfold validateColor;
    destruct (ColorValue.create a) as [|err] eqn:Ec;
    try discriminate; try reflexivity.
  intros _. report_entry; rewrite ?E; try reflexivity.
  one_refusal. rewrite E, Ec in Hr. cbn in Hr. congruence.
Qed.

Lemma report_bgcolor (request : QRCodeRequestDTO) :
  Forall2 (reports request) (filter (fails request) [CBgColor])
    (failingErrors
       (whenPresent (present (bgcolor request))
          (fun c => validateColor c (lit "bgcolor")))).
Proof.
  optional_string E; unfold validateColor;
    destruct (ColorValue.create a) as [|err] eqn:Ec;
    try discriminate; try reflexivity.
  intros _. report_entry; rewrite ?E; try reflexivity.
  one_refusal. rewrite E, Ec in Hr. cbn in Hr. congruence.
Qed.

Lemma margin_refused (a : number) :
  thrown (QRCodeConfiguration.validateMargin (Some a))
  = if negb (isInteger a) || ltZ a 0 || gtZ a 50 then Some ConfigMargin
    else None.
Proof.
  destruct a as [z| |neg]; cbn; try reflexivity.
  rewrite Z.gtb_ltb. now destruct ((z <? 0) || (50 <? z)).
Qed.

Lemma quietZone_refused (a : number) :
  thrown (QRCodeConfiguration.validateQuietZone (Some a))
  = if negb (isInteger a) || ltZ a 0 || gtZ a 100 then Some ConfigQuietZone
    else None.
Proof.
  destruct a as [z| |neg]; cbn; try reflexivity.
  rewrite Z.gtb_ltb. now destruct ((z <? 0) || (100 <? z)).
Qed.

Lemma report_margin (request : QRCodeRequestDTO) :
  Forall2 (reports request) (filter (fails request) [CMargin])
    (failingErrors (whenPresent (margin request) validateMargin)).
Proof.
  optional_string E; rewrite margin_refused; unfold validateMargin;
    destruct (negb (isInteger a) || ltZ a 0 || gtZ a 50) eqn:Ec;
    try discriminate; try reflexivity.
  intros _. report_entry; rewrite ?E; try reflexivity.
  one_refusal. rewrite E, margin_refused, Ec in Hr. now injection Hr as <-.
Qed.

Lemma report_qzone (request : QRCodeRequestDTO) :
  Forall2 (reports request) (filter (fails request) [CQzone])
    (failingErrors (whenPresent (qzone request) validateQuietZone)).
Proof.
  optional_string E; rewrite quietZone_refused; unfold validateQuietZone;
    destruct (negb (isInteger a) || ltZ a 0 || gtZ a 100) eqn:Ec;
    try discriminate; try reflexivity.
  intros _. report_entry; rewrite ?E; try reflexivity.
  one_refusal. rewrite E, quietZone_refused, Ec in Hr. now injection Hr as <-.
Qed.

Ltac charset E :=
  apply report_when;
    [ intros E; unfold fails, invalid, unsupportedCharset;
      cbn [covered existsb]; now rewrite E
    | intros a E; unfold fails, invalid, unsupportedCharset;
      cbn [covered existsb]; rewrite E
    | intros a E; unfold fails, invalid, unsupportedCharset;
      cbn [covered existsb]; rewrite E ].

Lemma report_charset_source (request : QRCodeRequestDTO) :
  Forall2 (reports request) (filter (fails request) [CCharsetSource])
    (failingErrors
       (whenPresent (present (charset_source request))
          (fun c => validateCharset c (lit "charset-source")))).
Proof.
  charset E; unfold validateCharset;
    change [lit "UTF-8"; lit "ISO-8859-1"]
      with QRCodeConfiguration.supportedCharsets;
    destruct (includes QRCodeConfiguration.supportedCharsets a);
    try discriminate; try reflexivity.
  intros _. report_entry; rewrite ?E; try reflexivity.
  one_refusal. discriminate.
Qed.

Lemma report_charset_target (request : QRCodeRequestDTO) :
  Forall2 (reports request) (filter (fails request) [CCharsetTarget])
    (failingErrors
       (whenPresent (present (charset_target request))
          (fun c => validateCharset c (lit "charset-target")))).
Proof.
  charset E; unfold validateCharset;
    change [lit "UTF-8"; lit "ISO-8859-1"]
      with QRCodeConfiguration.supportedCharsets;
    destruct (includes QRCodeConfiguration.supportedCharsets a);
    try discriminate; try reflexivity.
  intros _. report_entry; rewrite ?E; try reflexivity.
  one_refusal. discriminate.
Qed.

Lemma report_logo (request : QRCodeRequestDTO) :
  Forall2 (reports request) (filter (fails request) [CLogo])
    (failingErrors
       (whenPresent (present (logo request))
          (fun l => validateLogo l (logo_size request) (logo_margin request)))).
Proof.
  apply report_when.
  - intros E. unfold fails, invalid, refusal. cbn [covered existsb].
    now rewrite E.
  - intros l E. unfold fails, invalid, refusal. cbn [covered existsb].
    rewrite E. unfold validateLogo, Logo.create.
    destruct (Logo.validateSource l); [|discriminate].
    destruct (Logo.validateSize _); [|discriminate].
    destruct (Logo.validateMargin _); [|discriminate]. reflexivity.
  - intros l E Hf.
    assert (C : exists err,
               Logo.create l (logo_size request) (logo_margin request)
               = Throw err
               /\ forall p e,
                   find (invalid request) (covered CLogo) = Some p ->
                   refusal request p = Some e -> e = err).
    { revert Hf. unfold fails, invalid, refusal. cbn [covered existsb find].
      rewrite E. unfold Logo.create.
      destruct (Logo.validateSource l) as [src|e1]; cbn [bind thrown isSome].
      2:{ intros _. exists e1. split; [reflexivity|].
          intros p e [= <-]. cbn. congruence. }
      destruct (Logo.validateSize _) as [sz|e2]; cbn [bind thrown isSome].
      2:{ intros _. exists e2. split; [reflexivity|].
          intros p e [= <-]. cbn. congruence. }
      destruct (Logo.validateMargin _) as [mg|e3]; cbn [bind thrown isSome].
      2:{ intros _. exists e3. split; [reflexivity|].
          intros p e [= <-]. cbn. congruence. }
      discriminate. }
    destruct C as (err & C & M). unfold validateLogo. rewrite C.
    report_entry; rewrite ?E; try reflexivity.
    intros p e Hp Hr. now rewrite (M p e Hp Hr).
Qed.

Lemma report_contrast (request : QRCodeRequestDTO) :
  Forall2 (reports request) (filter (fails request) [CContrast])
    (failingErrors
       (whenPresent
          (both (present (color request)) (present (bgcolor request)))
          (fun cb => validateColorContrast (fst cb) (snd cb)))).
Proof.
  apply report_when; unfold fails, lowContrast, both.
  - destruct (present (color request)), (present (bgcolor request));
      try discriminate; reflexivity.
  - intros [c b] E.
    destruct (present (color request)), (present (bgcolor request));
      try discriminate.
    injection E as -> ->. unfold validateColorContrast. cbn [fst snd].
    destruct (ColorValue.create c); [|reflexivity].
    destruct (ColorValue.create b); [|reflexivity].
    now destruct (negb (ColorValue.hasAccessibleContrast _ _)).
  - intros [c b] E.
    destruct (present (color request)), (present (bgcolor request));
      try discriminate.
    injection E as -> ->. unfold validateColorContrast. cbn [fst snd].
    destruct (ColorValue.create c); [|discriminate].
    destruct (ColorValue.create b); [|discriminate].
    destruct (negb (ColorValue.hasAccessibleContrast _ _)); [|discriminate].
    intros _. report_entry.
Qed.

Lemma report_logo_size (request : QRCodeRequestDTO) :
  Forall2 (reports request) (filter (fails request) [CLogoSize])
    (failingErrors
       (whenPresent
          (both (both (present (logo request)) (present (size request)))
             (presentNumber (logo_size request)))
          (fun lsn =>
             validateLogoSizeRelativeToQR (snd (fst lsn)) (snd lsn)))).
Proof.
  apply report_when; unfold fails, logoTooLarge, both.
  - destruct (present (logo request)), (present (size request)),
      (presentNumber (logo_size request)); try discriminate; reflexivity.
  - intros [[l s] n] E.
    destruct (present (logo request)), (present (size request)),
      (presentNumber (logo_size request)); try discriminate.
    injection E as -> -> ->. unfold validateLogoSizeRelativeToQR.
    cbn [fst snd].
    destruct (Size.fromString s); [|reflexivity]. cbv zeta.
    now destruct (exceedsThreeTenths n _).
  - intros [[l s] n] E.
    destruct (present (logo request)), (present (size request)),
      (presentNumber (logo_size request)); try discriminate.
    injection E as -> -> ->. unfold validateLogoSizeRelativeToQR.
    cbn [fst snd].
    destruct (Size.fromString s); [|discriminate]. cbv zeta.
    destruct (exceedsThreeTenths n _); [|discriminate].
    intros _. report_entry.
Qed.

(** The entries of the result are the reports of the failing checks, one
    for one and in the order of the checks. *)
Lemma execute_reports (request : QRCodeRequestDTO) :
  Forall2 (reports request) (filter (fails request) allChecks)
    (getErrors (execute request)).
Proof.
  assert (E : getErrors (execute request) = failingErrors (fieldChecks request)).
  { rewrite execute_accumulates.
    destruct (failingErrors (fieldChecks request)); reflexivity. }
  rewrite E. unfold fieldChecks. cbv zeta.
  change allChecks
    with ([CData] ++ [CSize] ++ [CFormat] ++ [CEcc] ++ [CColor] ++ [CBgColor]
          ++ [CMargin] ++ [CQzone] ++ [CCharsetSource] ++ [CCharsetTarget]
          ++ [CLogo] ++ [CContrast] ++ [CLogoSize]).
  rewrite !filter_app, !failingErrors_app.
  repeat apply Forall2_app.
  - apply report_data.
  - apply report_size.
  - apply report_format.
  - apply report_ecc.
  - apply report_color.
  - apply report_bgcolor.
  - apply report_margin.
  - apply report_qzone.
  - apply report_charset_source.
  - apply report_charset_target.
  - apply report_logo.
  - apply report_contrast.
  - apply report_logo_size.
Qed.

End Reports.

(** C5, as the code has it.  The result of [execute] is valid exactly when
    no check fails.  Its entries are the reports of the failing checks, one
    for one and in the order of the checks, so none is dropped after the
    first: each names the field of its check and carries its kind, the
    offending value and the message of the refusal.  Each of the first ten
    parameters has a check of its own.  The three logo parameters share one
    check: it fails when one of them is unacceptable, and its single entry,
    under the field [logo], has the message of the first one that is.  A
    request without data gets the dedicated required-field entry, first in
    the list. *)
Theorem C5_validation_reports_every_failing_check (P : Platform)
  (request : ValidateParametersUseCase.QRCodeRequestDTO) :
  let result := ValidateParametersUseCase.execute request in
  let failing := filter (fails request) allChecks in
  (ValidationResult.isValid result = true <-> failing = [])
  /\ Forall2 (reports request) failing (ValidationResult.getErrors result)
  /\ (ValidateParametersUseCase.present (ValidateParametersUseCase.data request)
      = None ->
      hd_error (ValidationResult.getErrors result)
      = Some (ValidationResult.mkError (lit "data")
                (lit "Data field is required") ValidationResult.REQUIRED_FIELD
                None)).
Proof.
  intros result failing.
  pose proof (execute_reports request) as R. fold result failing in R.
  split; [|split; [exact R|]].
  - apply Forall2_length in R. unfold result in *.
    rewrite execute_accumulates in *.
    destruct (failingErrors (fieldChecks request)) as [|e l];
      destruct failing; cbn in *; try discriminate; split; congruence.
  - intros Hmissing. unfold result. rewrite execute_accumulates.
    unfold fieldChecks. cbv zeta.
    unfold ValidateParametersUseCase.validateData. rewrite Hmissing.
    reflexivity.
Qed.

Lemma C5_validation_reports_every_failing_check_witness :
  hd_error
    (ValidationResult.getErrors
       (@ValidateParametersUseCase.execute Sample.platform
          Sample.faultyRequest))
  = Some (ValidationResult.mkError (lit "data") (lit "Data field is required")
            ValidationResult.REQUIRED_FIELD None)
  /\ List.length
       (ValidationResult.getErrors
          (@ValidateParametersUseCase.execute Sample.platform
             Sample.faultyRequest))
     = 4%nat.
Proof.
  pose proof (C5_validation_reports_every_failing_check Sample.platform
                Sample.faultyRequest) as T.
  cbv zeta in T. destruct T as (_ & R & Hmissing).
  split; [apply Hmissing; reflexivity|].
  apply Forall2_length in R. now rewrite <- R.
Defined.

(** The claim C5 as stated fails.  In the request [Sample.logoRequest] the
    logo size 5 and the logo margin 99 are both unacceptable, and the result
    has one entry: it reports the size, and nothing reports the margin,
    because [Logo.create] stops at the first refusal. *)
Lemma C5_later_logo_violations_are_not_reported :
  filter (@invalid Sample.platform Sample.logoRequest) allParams
  = [PLogoSize; PLogoMargin]
  /\ @refusal Sample.platform Sample.logoRequest PLogoMargin
     = Some LogoMarginRange
  /\ ValidationResult.getErrors
       (@ValidateParametersUseCase.execute Sample.platform Sample.logoRequest)
     = [ValidationResult.mkError (lit "logo") (errorMessage LogoSizeRange)
          ValidationResult.INVALID_VALUE
          (Some (ValidationResult.VLogo (lit "google") (Some (Int 5))
                   (Some (Int 99))))]
  /\ ~ (forall p,
           @invalid Sample.platform Sample.logoRequest p = true ->
           exists e err,
             In e (ValidationResult.getErrors
                     (@ValidateParametersUseCase.execute Sample.platform
                        Sample.logoRequest))
             /\ @refusal Sample.platform Sample.logoRequest p = Some err
             /\ ValidationResult.message e = errorMessage err).
Proof.
  split; [now vm_compute|]. split; [now vm_compute|].
  assert (E : ValidationResult.getErrors
                (@ValidateParametersUseCase.execute Sample.platform
                   Sample.logoRequest)
              = [ValidationResult.mkError (lit "logo")
                   (errorMessage LogoSizeRange) ValidationResult.INVALID_VALUE
                   (Some (ValidationResult.VLogo (lit "google") (Some (Int 5))
                            (Some (Int 99))))]) by now vm_compute.
  split; [exact E|].
  intros H. destruct (H PLogoMargin eq_refl) as (e & err & I & Rf & M).
  rewrite E in I. destruct I as [<-|[]].
  vm_compute in Rf. injection Rf as <-. vm_compute in M. discriminate.
Qed.

(** ** The map of the repository *)

Section MapFacts.
Context {V : Type}.

Lemma has_In (key : jsstring) (m : list (jsstring * V)) :
  JSMap.has key m = true <-> In key (map fst m).
Proof.
  unfold JSMap.has. induction m as [|[k v] m IH]; simpl.
  - split; [discriminate|contradiction].
  - destruct (streq k key) eqn:E.
    + apply streq_eq in E. split; auto.
    + apply streq_neq in E. rewrite IH. split; [auto|]. now intros [|].
Qed.

Lemma get_In (key : jsstring) (m : list (jsstring * V)) (v : V) :
  JSMap.get key m = Some v -> In (key, v) m.
Proof.
  induction m as [|[k v'] m IH]; simpl; [discriminate|].
  destruct (streq k key) eqn:E.
  - apply streq_eq in E. intros [= ->]. subst. now left.
  - intros G. right. now apply IH.
Qed.

Lemma get_set_same (key : jsstring) (v : V) (m : list (jsstring * V)) :
  JSMap.get key (JSMap.set key v m) = Some v.
Proof.
  induction m as [|[k v'] m IH]; simpl.
  - now rewrite streq_refl.
  - destruct (streq k key) eqn:E; simpl; rewrite E; [reflexivity|exact IH].
Qed.

Lemma keys_set (key : jsstring) (v : V) (m : list (jsstring * V)) :
  map fst (JSMap.set key v m)
  = if JSMap.has key m then map fst m else map fst m ++ [key].
Proof.
  unfold JSMap.has. induction m as [|[k v'] m IH]; simpl; [reflexivity|].
  destruct (streq k key) eqn:E; simpl; [reflexivity|].
  rewrite IH. now destruct (JSMap.get key m).
Qed.

Lemma length_set (key : jsstring) (v : V) (m : list (jsstring * V)) :
  List.length (JSMap.set key v m)
  = if JSMap.has key m then List.length m else S (List.length m).
Proof.
  rewrite <- (length_map fst), keys_set.
  destruct (JSMap.has key m); rewrite ?length_app, length_map; simpl; lia.
Qed.

Lemma keys_delete_incl (key : jsstring) (m : list (jsstring * V)) :
  incl (map fst (JSMap.delete key m)) (map fst m).
Proof.
  induction m as [|[k v] m IH]; simpl; [apply incl_refl|].
  destruct (streq k key); simpl.
  - apply incl_tl, incl_refl.
  - apply incl_cons; [now left|]. now apply incl_tl.
Qed.

Lemma NoDup_delete (key : jsstring) (m : list (jsstring * V)) :
  NoDup (map fst m) -> NoDup (map fst (JSMap.delete key m)).
Proof.
  induction m as [|[k v] m IH]; simpl; [auto|].
  intros ND. inversion ND as [|? ? Hk Hm]; subst.
  destruct (streq k key); simpl; [exact Hm|].
  constructor; [|now apply IH].
  intros Hin. apply Hk. now apply (keys_delete_incl key m).
Qed.

Lemma NoDup_set (key : jsstring) (v : V) (m : list (jsstring * V)) :
  NoDup (map fst m) -> NoDup (map fst (JSMap.set key v m)).
Proof.
  intros ND. rewrite keys_set. destruct (JSMap.has key m) eqn:E; [exact ND|].
  apply NoDup_app; [exact ND|repeat constructor; auto|].
  intros x Hx [<-|[]]. apply has_In in Hx. congruence.
Qed.

Lemma get_delete_same (key : jsstring) (m : list (jsstring * V)) :
  NoDup (map fst m) -> JSMap.get key (JSMap.delete key m) = None.
Proof.
  induction m as [|[k v] m IH]; simpl; [reflexivity|].
  intros ND. inversion ND as [|? ? Hk Hm]; subst.
  destruct (streq k key) eqn:E; simpl.
  - apply streq_eq in E. subst.
    destruct (JSMap.get key m) eqn:G; [|reflexivity].
    exfalso. apply Hk. apply has_In. unfold JSMap.has. now rewrite G.
  - rewrite E. now apply IH.
Qed.

Lemma length_delete (key : jsstring) (m : list (jsstring * V)) :
  In key (map fst m) ->
  S (List.length (JSMap.delete key m)) = List.length m.
Proof.
  induction m as [|[k v] m IH]; simpl; [contradiction|].
  destruct (streq k key) eqn:E; simpl; [reflexivity|].
  apply streq_neq in E. intros [|Hin]; [contradiction|]. now rewrite IH.
Qed.

Lemma length_delete_le (key : jsstring) (m : list (jsstring * V)) :
  (List.length (JSMap.delete key m) <= List.length m)%nat.
Proof.
  induction m as [|[k v] m IH]; simpl; [lia|].
  destruct (streq k key); simpl; lia.
Qed.

End MapFacts.

(** ** InMemoryCacheRepository *)

Section Repository.

Import InMemoryCacheRepository.

Lemma scan_from (c : list (jsstring * CacheEntry)) :
  forall (k0 : jsstring) (e0 : CacheEntry),
  exists k e,
    fold_left
      (fun (acc : option jsstring * option Z) (kv : jsstring * CacheEntry) =>
         let '(oldestKey, oldestTime) := acc in
         let '(key, entry) := kv in
         if match oldestTime with
            | None => true
            | Some t => createdAt entry <? t
            end
         then (Some key, Some (createdAt entry))
         else (oldestKey, oldestTime))
      c (Some k0, Some (createdAt e0))
    = (Some k, Some (createdAt e))
    /\ ((k, e) = (k0, e0) \/ In (k, e) c)
    /\ createdAt e <= createdAt e0
    /\ oldestOf c e.
Proof.
  induction c as [|[k1 e1] c IH]; intros k0 e0; simpl.
  - exists k0, e0. repeat split; auto; try lia. intros kv [].
  - destruct (createdAt e1 <? createdAt e0) eqn:L.
    + apply Z.ltb_lt in L.
      destruct (IH k1 e1) as (k & e & F & Hin & Hle & Hold).
      exists k, e. repeat split; auto; try lia.
      * destruct Hin as [[= -> ->]|Hin]; auto.
      * intros kv [<-|Hkv]; simpl; [lia|now apply Hold].
    + apply Z.ltb_ge in L.
      destruct (IH k0 e0) as (k & e & F & Hin & Hle & Hold).
      exists k, e. repeat split; auto.
      * destruct Hin as [E|Hin]; auto.
      * intros kv [<-|Hkv]; simpl; [lia|now apply Hold].
Qed.

(** On a non-empty cache the loop of [evictOldest] stops on an entry that
    no other one predates. *)
Lemma scanOldest_spec (c : list (jsstring * CacheEntry)) :
  c <> [] ->
  exists k e,
    scanOldest c = (Some k, Some (createdAt e))
    /\ In (k, e) c /\ oldestOf c e.
Proof.
  destruct c as [|[k0 e0] c]; [contradiction|]. intros _.
  unfold scanOldest. simpl fold_left.
  destruct (scan_from c k0 e0) as (k & e & F & Hin & Hle & Hold).
  exists k, e. split; [exact F|]. split.
  - destruct Hin as [[= -> ->]|Hin]; [now left|now right].
  - intros kv [<-|Hkv]; simpl; [lia|now apply Hold].
Qed.

(** With non-empty keys, [evictOldest] removes one entry, and it is an
    oldest one. *)
Lemma evictOldest_spec (this : t) :
  cache this <> [] ->
  (forall k, In k (getKeys this) -> k <> []) ->
  exists k e,
    In (k, e) (cache this) /\ oldestOf (cache this) e
    /\ evictOldest this = withCache this (JSMap.delete k (cache this))
    /\ S (List.length (cache (evictOldest this))) = List.length (cache this).
Proof.
  intros Hne Hkeys.
  destruct (scanOldest_spec (cache this) Hne) as (k & e & F & Hin & Hold).
  assert (Hk : In k (getKeys this)) by (apply (in_map fst _ _ Hin)).
  exists k, e. unfold evictOldest. rewrite F. simpl fst.
  destruct k as [|c k]; [now destruct (Hkeys [] Hk)|].
  repeat split; auto. simpl cache. now apply length_delete.
Qed.

Lemma cleanup_fold (keys : list jsstring) (c : list (jsstring * CacheEntry)) :
  NoDup (map fst c) ->
  let c' := fold_left (fun c key => JSMap.delete key c) keys c in
  NoDup (map fst c') /\ incl (map fst c') (map fst c)
  /\ (List.length c' <= List.length c)%nat.
Proof.
  revert c. induction keys as [|k keys IH]; intros c ND; simpl.
  - repeat split; auto. apply incl_refl.
  - destruct (IH (JSMap.delete k c) (NoDup_delete k c ND)) as (A & B & C).
    repeat split; auto.
    + eapply incl_tran; [exact B|apply keys_delete_incl].
    + pose proof (length_delete_le k c). lia.
Qed.

Lemma step_bounded (this : t) (op : Op) :
  1 <= maxKeys this ->
  match op with OpSet _ key _ _ => key <> [] | _ => True end ->
  bounded this ->
  bounded (step this op) /\ maxKeys (step this op) = maxKeys this.
Proof.
  intros Hmax Hop (ND & NE & SZ). unfold bounded, getKeys, JSMap.size in *.
  destruct op as [now key|now key q ttl|key| |now key|now]; simpl step.
  - (* get *)
    unfold get. destruct (JSMap.get key (cache this)) as [entry|];
      [destruct (now >? expiresAt entry)|]; simpl; repeat split; auto.
    + now apply NoDup_delete.
    + intros k Hk. apply NE. now apply (keys_delete_incl key (cache this)).
    + pose proof (length_delete_le key (cache this)). lia.
  - (* set *)
    unfold set, JSMap.size.
    destruct ((Z.of_nat (List.length (cache this)) >=? maxKeys this)
              && negb (JSMap.has key (cache this))) eqn:G.
    + apply andb_prop in G as [G1 G2]. apply negb_true_iff in G2.
      assert (Hne : cache this <> []).
      { intros E. rewrite E in G1. simpl in G1.
        apply Z.geb_le in G1. lia. }
      destruct (evictOldest_spec this Hne NE) as (k & e & Hin & _ & Ev & Len).
      rewrite Ev in *. simpl cache in *. simpl maxKeys.
      assert (Hhas : JSMap.has key (JSMap.delete k (cache this)) = false).
      { destruct (JSMap.has key (JSMap.delete k (cache this))) eqn:Hh; auto.
        apply has_In in Hh. apply (keys_delete_incl k (cache this)) in Hh.
        apply has_In in Hh. congruence. }
      repeat split.
      * apply NoDup_set. now apply NoDup_delete.
      * intros x. rewrite keys_set, Hhas. intros Hx.
        apply in_app_or in Hx as [Hx|[<-|[]]]; [|exact Hop].
        apply NE. now apply (keys_delete_incl k (cache this)).
      * rewrite length_set, Hhas. lia.
    + simpl cache. simpl maxKeys. repeat split.
      * now apply NoDup_set.
      * intros x. rewrite keys_set. destruct (JSMap.has key (cache this)).
        -- apply NE.
        -- intros Hx. apply in_app_or in Hx as [Hx|[<-|[]]]; auto.
      * rewrite length_set.
        destruct (JSMap.has key (cache this)) eqn:Hh; [lia|].
        rewrite andb_true_r, Z.geb_leb in G. apply Z.leb_gt in G. lia.
  - (* delete *)
    unfold delete. destruct (JSMap.has key (cache this)); simpl;
      repeat split; auto.
    + now apply NoDup_delete.
    + intros k Hk. apply NE. now apply (keys_delete_incl key (cache this)).
    + pose proof (length_delete_le key (cache this)). lia.
  - (* clear *)
    simpl. repeat split; auto; try (now constructor); try contradiction; lia.
  - (* exists *)
    unfold exists_. destruct (JSMap.get key (cache this)) as [entry|];
      [destruct (now >? expiresAt entry)|]; simpl; repeat split; auto.
    + now apply NoDup_delete.
    + intros k Hk. apply NE. now apply (keys_delete_incl key (cache this)).
    + pose proof (length_delete_le key (cache this)). lia.
  - (* cleanup *)
    unfold cleanup. simpl cache. simpl maxKeys.
    destruct (cleanup_fold
                (map fst (filter (fun kv => now >? expiresAt (snd kv)) (cache this)))
                (cache this) ND) as (A & B & C).
    repeat split; auto. lia.
Qed.

(** Starting from an empty store with [maxKeys >= 1], calls that store
    non-empty keys never leave more than [maxKeys] entries. *)
Lemma run_bounded (ops : list Op) (this : t) :
  1 <= maxKeys this -> storesNonEmptyKeys ops -> bounded this ->
  bounded (run this ops) /\ maxKeys (run this ops) = maxKeys this.
Proof.
  revert this. induction ops as [|op ops IH]; intros this Hmax Hops Hb.
  - now split.
  - inversion Hops as [|? ? Hop Hrest]; subst. simpl.
    destruct (step_bounded this op Hmax Hop Hb) as [Hb' Hm'].
    destruct (IH (step this op)) as [Hb'' Hm'']; auto; [lia|].
    split; [exact Hb''|congruence].
Qed.

Lemma new_bounded (maxKeys defaultTTL : option Z) :
  1 <= InMemoryCacheRepository.maxKeys (new maxKeys defaultTTL) ->
  bounded (new maxKeys defaultTTL).
Proof.
  intros H. unfold bounded, getKeys, JSMap.size. simpl.
  repeat split; [constructor|contradiction|simpl in H; lia].
Qed.

End Repository.

Section RepositoryClaims.

Import InMemoryCacheRepository.

(** When [set] meets a full cache with a new, non-empty key, the entry it
    evicts is one that no other entry predates, and the new entry takes
    its place in the count. *)
Lemma set_at_capacity_evicts_an_oldest (this : t) (now : Z) (key : jsstring)
  (q : QRCode.t) (ttl : option Z) :
  1 <= maxKeys this -> bounded this ->
  JSMap.size (cache this) >= maxKeys this ->
  JSMap.has key (cache this) = false ->
  exists k e,
    In (k, e) (cache this) /\ oldestOf (cache this) e
    /\ cache (set this now key q ttl)
       = JSMap.set key
           (mkEntry q (now + orDefaultTTL ttl (defaultTTL this) * 1000) now)
           (JSMap.delete k (cache this))
    /\ JSMap.size (cache (set this now key q ttl)) = JSMap.size (cache this).
Proof.
  intros Hmax (ND & NE & SZ) Hfull Hnew.
  assert (Hne : cache this <> []).
  { intros E. rewrite E in Hfull. unfold JSMap.size in Hfull.
    simpl in Hfull. lia. }
  destruct (evictOldest_spec this Hne NE) as (k & e & Hin & Hold & Ev & Len).
  exists k, e. split; [exact Hin|]. split; [exact Hold|].
  unfold set. replace (JSMap.size (cache this) >=? maxKeys this) with true
    by (symmetry; apply Z.geb_le; lia).
  rewrite Hnew. simpl andb. cbv iota. rewrite Ev in *. simpl cache in *.
  simpl defaultTTL. split; [reflexivity|].
  assert (Hhas : JSMap.has key (JSMap.delete k (cache this)) = false).
  { destruct (JSMap.has key (JSMap.delete k (cache this))) eqn:Hh; auto.
    apply has_In in Hh. apply (keys_delete_incl k (cache this)) in Hh.
    apply has_In in Hh. congruence. }
  unfold JSMap.size. rewrite length_set, Hhas. lia.
Qed.

(** C6 on the code.  With [maxKeys = 1], storing the key [''] and then the
    key ['a'] leaves two entries: the loop of [evictOldest] finds [''] as
    the oldest key, and [if (oldestKey)] takes the empty string for "no
    key", so nothing is evicted before the insertion. *)
Theorem C6_empty_key_is_not_evicted :
  let repo :=
    run (new (Some 1) None)
      [OpSet 1000 [] Sample.qrCode (Some 60);
       OpSet 2000 (lit "a") Sample.qrCode (Some 60)] in
  maxKeys repo = 1
  /\ getKeys repo = [[]; lit "a"]
  /\ JSMap.size (cache repo) = 2
  /\ fst (scanOldest
            (cache (run (new (Some 1) None)
                      [OpSet 1000 [] Sample.qrCode (Some 60)])))
     = Some [].
Proof. repeat split. Qed.

(** C7.  On a repository whose map has distinct keys: a [get] no later than
    the [expiresAt] of the entry returns its artifact, counts a hit and
    leaves the map as it is, and this holds of the entry that [set] has just
    stored; a [get] after [expiresAt] returns nothing, removes the entry and
    counts a miss; a [get] of an absent key returns nothing and counts a
    miss. *)
Theorem C7_get_hit_expiry_and_miss (this : t) (key : jsstring) :
  NoDup (getKeys this) ->
  (forall (now0 now1 : Z) (v : QRCode.t) (ttl : option Z),
      let stored := set this now0 key v ttl in
      let expiry := now0 + orDefaultTTL ttl (defaultTTL this) * 1000 in
      inspectEntry stored key = Some (mkEntry v expiry now0)
      /\ (now1 <= expiry ->
          fst (get stored now1 key) = Some v
          /\ hits (stats (snd (get stored now1 key))) = hits (stats stored) + 1
          /\ misses (stats (snd (get stored now1 key))) = misses (stats stored)
          /\ cache (snd (get stored now1 key)) = cache stored)
      /\ (now1 > expiry ->
          fst (get stored now1 key) = None
          /\ inspectEntry (snd (get stored now1 key)) key = None
          /\ misses (stats (snd (get stored now1 key)))
             = misses (stats stored) + 1
          /\ hits (stats (snd (get stored now1 key))) = hits (stats stored)))
  /\ (forall (now : Z) (entry : CacheEntry),
         inspectEntry this key = Some entry ->
         (now <= expiresAt entry ->
          get this now key
          = (Some (qrCode entry),
             withStats this
               (mkStats (hits (stats this) + 1) (misses (stats this))
                  (sets (stats this)) (deletes (stats this)))))
         /\ (now > expiresAt entry ->
             get this now key
             = (None,
                withStats (withCache this (JSMap.delete key (cache this)))
                  (mkStats (hits (stats this)) (misses (stats this) + 1)
                     (sets (stats this)) (deletes (stats this))))
             /\ inspectEntry (snd (get this now key)) key = None))
  /\ (forall now : Z,
         inspectEntry this key = None ->
         get this now key
         = (None,
            withStats this
              (mkStats (hits (stats this)) (misses (stats this) + 1)
                 (sets (stats this)) (deletes (stats this))))).
Proof.
  intros ND.
  assert (Hpresent : forall (that : t) (now : Z) (entry : CacheEntry),
             NoDup (getKeys that) ->
             inspectEntry that key = Some entry ->
             (now <= expiresAt entry ->
              get that now key
              = (Some (qrCode entry),
                 withStats that
                   (mkStats (hits (stats that) + 1) (misses (stats that))
                      (sets (stats that)) (deletes (stats that)))))
             /\ (now > expiresAt entry ->
                 get that now key
                 = (None,
                    withStats (withCache that (JSMap.delete key (cache that)))
                      (mkStats (hits (stats that)) (misses (stats that) + 1)
                         (sets (stats that)) (deletes (stats that))))
                 /\ inspectEntry (snd (get that now key)) key = None)).
  { intros that now entry NDt Hentry. unfold inspectEntry in Hentry.
    unfold get. rewrite Hentry. split; intros Hnow.
    - replace (now >? expiresAt entry) with false
        by (rewrite Z.gtb_ltb; symmetry; apply Z.ltb_ge; lia).
      reflexivity.
    - replace (now >? expiresAt entry) with true
        by (rewrite Z.gtb_ltb; symmetry; apply Z.ltb_lt; lia).
      split; [reflexivity|]. unfold inspectEntry. simpl.
      now apply get_delete_same. }
  split; [|split].
  - intros now0 now1 v ttl stored expiry.
    assert (Hstored : inspectEntry stored key = Some (mkEntry v expiry now0)).
    { unfold stored, set, inspectEntry. simpl cache.
      rewrite get_set_same. unfold expiry.
      destruct ((JSMap.size (cache this) >=? maxKeys this)
                && negb (JSMap.has key (cache this))); [|reflexivity].
      unfold evictOldest.
      destruct (fst (scanOldest (cache this))) as [[|c k]|]; reflexivity. }
    assert (NDs : NoDup (getKeys stored)).
    { unfold stored, set, getKeys. simpl cache. apply NoDup_set.
      destruct ((JSMap.size (cache this) >=? maxKeys this)
                && negb (JSMap.has key (cache this))); [|exact ND].
      unfold evictOldest.
      destruct (fst (scanOldest (cache this))) as [[|c k]|]; try exact ND.
      simpl cache. now apply NoDup_delete. }
    destruct (Hpresent stored now1 _ NDs Hstored) as [Hhit Hexp].
    split; [exact Hstored|]. split; intros Hnow.
    + rewrite (Hhit Hnow). simpl. repeat split.
    + destruct (Hexp Hnow) as [E1 E2]. rewrite E2, E1. simpl. repeat split.
  - intros now entry Hentry. now apply Hpresent.
  - intros now Habsent. unfold inspectEntry in Habsent. unfold get.
    now rewrite Habsent.
Qed.

Lemma C7_get_hit_expiry_and_miss_witness :
  fst (get (set (new None None) 0 (lit "k") Sample.qrCode (Some 1)) 0 (lit "k"))
  = Some Sample.qrCode
  /\ fst (get (set (new None None) 0 (lit "k") Sample.qrCode (Some 1)) 1100
            (lit "k"))
     = None
  /\ misses (stats (snd (get (set (new None None) 0 (lit "k") Sample.qrCode
                               (Some 1)) 1100 (lit "k"))))
     = 1.
Proof.
  pose proof (proj1 (C7_get_hit_expiry_and_miss (new None None) (lit "k")
                       ltac:(constructor))
                0 0 Sample.qrCode (Some 1)) as Hhit.
  pose proof (proj1 (C7_get_hit_expiry_and_miss (new None None) (lit "k")
                       ltac:(constructor))
                0 1100 Sample.qrCode (Some 1)) as Hexp.
  cbv zeta in Hhit, Hexp.
  destruct Hhit as (_ & Hhit & _). destruct Hexp as (_ & _ & Hexp).
  split; [|split].
  - apply Hhit. now vm_compute.
  - apply Hexp. now vm_compute.
  - destruct Hexp as (_ & _ & Hm & _); [now vm_compute|]. rewrite Hm. reflexivity.
Defined.

End RepositoryClaims.

(** ** CacheManagementUseCase *)

Section CacheManagement.
Context {S : Type} {repo : ICacheRepository S}.

Lemma get_never_throws (this : CacheManagementUseCase.t) (now : Z)
  (key : jsstring) (w : World S) :
  exists w',
    CacheManagementUseCase.get this now key w
    = (Ok match fst (repoGet (repository w) now key) with
          | Ok cached => cached
          | Throw _ => None
          end, w')
    /\ repository w' = snd (repoGet (repository w) now key)
    /\ counters w' = counters w /\ console w' = console w.
Proof.
  unfold CacheManagementUseCase.get, tryCatch, mbind, logLine, onRepository,
    ret. simpl.
  destruct (repoGet (repository w) now key) as [[[q|]|e] s]; simpl;
    eexists; repeat split.
Qed.

Lemma set_never_throws (this : CacheManagementUseCase.t) (now : Z)
  (key : jsstring) (q : QRCode.t) (ttlSeconds : option Z) (w : World S) :
  let ttl :=
    InMemoryCacheRepository.orDefaultTTL ttlSeconds
      (CacheManagementUseCase.defaultTTL this) in
  exists w',
    CacheManagementUseCase.set this now key q ttlSeconds w
    = (Ok (isOk (fst (repoSet (repository w) now key q (Some ttl)))), w')
    /\ repository w' = snd (repoSet (repository w) now key q (Some ttl))
    /\ counters w' = counters w /\ console w' = console w.
Proof.
  unfold CacheManagementUseCase.set, tryCatch, mbind, logLine, onRepository,
    ret. simpl.
  destruct (repoSet (repository w) now key q _) as [[[]|e] s]; simpl;
    eexists; repeat split.
Qed.

Lemma delete_never_throws (this : CacheManagementUseCase.t) (key : jsstring)
  (w : World S) :
  exists w',
    CacheManagementUseCase.delete this key w
    = (Ok (isOk (fst (repoDelete (repository w) key))), w')
    /\ repository w' = snd (repoDelete (repository w) key).
Proof.
  unfold CacheManagementUseCase.delete, tryCatch, mbind, logLine, onRepository,
    ret. simpl.
  destruct (repoDelete (repository w) key) as [[[]|e] s]; simpl;
    eexists; repeat split.
Qed.

Lemma clear_never_throws (this : CacheManagementUseCase.t) (w : World S) :
  exists w',
    CacheManagementUseCase.clear this w
    = (Ok (isOk (fst (repoClear (repository w)))), w')
    /\ repository w' = snd (repoClear (repository w)).
Proof.
  unfold CacheManagementUseCase.clear, tryCatch, mbind, logLine, onRepository,
    ret. simpl.
  destruct (repoClear (repository w)) as [[[]|e] s]; simpl;
    eexists; repeat split.
Qed.

End CacheManagement.

(** C8.  Over any repository, [get], [set], [delete] and [clear] of the
    cache use case return normally in every world (the logger being one
    that only records its lines): [get] yields what the repository
    returned, and nothing when the repository threw; [set], [delete] and
    [clear] yield [true] when the repository call returned and [false] when
    it threw. *)
Theorem C8_cache_use_case_never_throws (S : Type) (repo : ICacheRepository S)
  (this : CacheManagementUseCase.t) (now : Z) (key : jsstring) (q : QRCode.t)
  (ttlSeconds : option Z) (w : World S) :
  fst (CacheManagementUseCase.get this now key w)
  = Ok match fst (repoGet (repository w) now key) with
       | Ok cached => cached
       | Throw _ => None
       end
  /\ fst (CacheManagementUseCase.set this now key q ttlSeconds w)
     = Ok match
            fst (repoSet (repository w) now key q
                   (Some (InMemoryCacheRepository.orDefaultTTL ttlSeconds
                            (CacheManagementUseCase.defaultTTL this))))
          with
          | Ok _ => true
          | Throw _ => false
          end
  /\ fst (CacheManagementUseCase.delete this key w)
     = Ok match fst (repoDelete (repository w) key) with
          | Ok _ => true
          | Throw _ => false
          end
  /\ fst (CacheManagementUseCase.clear this w)
     = Ok match fst (repoClear (repository w)) with
          | Ok _ => true
          | Throw _ => false
          end.
Proof.
  destruct (get_never_throws this now key w) as (w1 & E1 & _).
  destruct (set_never_throws this now key q ttlSeconds w) as (w2 & E2 & _).
  destruct (delete_never_throws this key w) as (w3 & E3 & _).
  destruct (clear_never_throws this w) as (w4 & E4 & _).
  rewrite E1, E2, E3, E4. repeat split.
Qed.

(** ** GenerateQRCodeUseCase: the TTL of a stored result *)

Lemma get_keeps_defaultTTL (this : InMemoryCacheRepository.t) (now : Z)
  (key : jsstring) :
  InMemoryCacheRepository.defaultTTL
    (snd (InMemoryCacheRepository.get this now key))
  = InMemoryCacheRepository.defaultTTL this.
Proof.
  unfold InMemoryCacheRepository.get.
  destruct (JSMap.get key (InMemoryCacheRepository.cache this)) as [entry|];
    [destruct (now >? InMemoryCacheRepository.expiresAt entry)|]; reflexivity.
Qed.

Lemma storedTTL_set (this : InMemoryCacheRepository.t) (now : Z)
  (key : jsstring) (q : QRCode.t) (ttl : option Z) :
  Policy.storedTTL (InMemoryCacheRepository.set this now key q ttl) key
  = Some (InMemoryCacheRepository.orDefaultTTL ttl
            (InMemoryCacheRepository.defaultTTL this)).
Proof.
  unfold Policy.storedTTL, InMemoryCacheRepository.inspectEntry,
    InMemoryCacheRepository.set.
  simpl InMemoryCacheRepository.cache. rewrite get_set_same.
  simpl InMemoryCacheRepository.expiresAt.
  simpl InMemoryCacheRepository.createdAt. f_equal.
  match goal with
  | |- (now + ?t * 1000 - now) / 1000 = _ =>
      replace (now + t * 1000 - now) with (t * 1000) by lia
  end.
  now rewrite Z.div_mul.
Qed.

(** C2, as the code has it.  Whenever [execute] answers a request with a
    freshly generated result (a miss), the in-memory repository holds that
    result under the hash key of the configuration with the default TTL of
    the cache use case (that of the repository when the former is 0): the
    TTL is the same for every configuration, complex or not. *)
Theorem C2_miss_stores_with_the_default_ttl (P : Platform)
  (gen : IQRCodeGenerator) (uc : CacheManagementUseCase.t) (now : Z)
  (request : ValidateParametersUseCase.QRCodeRequestDTO)
  (w w' : World InMemoryCacheRepository.t)
  (resp : GenerateQRCodeUseCase.QRCodeResponseDTO) :
  GenerateQRCodeUseCase.execute uc now request w = (Ok resp, w') ->
  GenerateQRCodeUseCase.success resp = true ->
  GenerateQRCodeUseCase.cacheStatus resp = GenerateQRCodeUseCase.miss ->
  exists configuration warnings,
    GenerateQRCodeUseCase.buildConfiguration request
    = Ok (configuration, warnings)
    /\ Policy.storedTTL (repository w')
         (QRCodeConfiguration.getHashKey configuration)
       = Some (InMemoryCacheRepository.orDefaultTTL
                 (Some (CacheManagementUseCase.defaultTTL uc))
                 (InMemoryCacheRepository.defaultTTL (repository w))).
Proof.
  unfold GenerateQRCodeUseCase.execute, CacheManagementUseCase.get,
    CacheManagementUseCase.set, tryCatch, mbind, ret, raise, logLine,
    consoleWarn, incrementCounter, ofResult, onRepository.
  destruct (ValidationResult.isValid (ValidateParametersUseCase.execute request)).
  2:{ cbn. intros [= <- <-]. discriminate. }
  destruct (GenerateQRCodeUseCase.buildConfiguration request)
    as [[configuration warnings]|e] eqn:B.
  2:{ cbn. intros [= <- <-]. discriminate. }
  cbn -[InMemoryCacheRepository.get InMemoryCacheRepository.set
        InMemoryCacheRepository.orDefaultTTL QRCodeConfiguration.getHashKey
        lit GenerateQRCodeUseCase.respond].
  destruct (InMemoryCacheRepository.get (repository w) now
              (QRCodeConfiguration.getHashKey configuration))
    as [[cached|] s1] eqn:G.
  { cbn -[QRCodeConfiguration.getHashKey lit]. intros [= <- <-]. discriminate. }
  cbn -[InMemoryCacheRepository.get InMemoryCacheRepository.set
        InMemoryCacheRepository.orDefaultTTL QRCodeConfiguration.getHashKey
        lit GenerateQRCodeUseCase.respond].
  destruct (generate now configuration) as [q|e] eqn:Gen.
  2:{ cbn. intros [= <- <-]. discriminate. }
  cbn -[InMemoryCacheRepository.get InMemoryCacheRepository.set
        InMemoryCacheRepository.orDefaultTTL QRCodeConfiguration.getHashKey
        lit GenerateQRCodeUseCase.respond].
  intros [= <- <-] _ _. exists configuration, warnings. split; [reflexivity|].
  cbn -[InMemoryCacheRepository.get InMemoryCacheRepository.set
        InMemoryCacheRepository.orDefaultTTL QRCodeConfiguration.getHashKey
        lit GenerateQRCodeUseCase.respond].
  rewrite storedTTL_set. f_equal. f_equal.
  replace s1 with (snd (InMemoryCacheRepository.get (repository w) now
                          (QRCodeConfiguration.getHashKey configuration)))
    by (now rewrite G).
  apply get_keeps_defaultTTL.
Qed.

(** The claim C2 as stated fails: of two requests that miss an empty cache,
    the one whose configuration is complex (highest error-correction level)
    is stored with the same 3600 seconds as the one that is not. *)
Lemma C2_complex_result_is_not_cached_longer :
  @GenerateQRCodeUseCase.buildConfiguration Sample.platform Sample.complexRequest
  = Ok (Sample.complexConfiguration, [])
  /\ @GenerateQRCodeUseCase.buildConfiguration Sample.platform
       Sample.simpleRequest
     = Ok (Sample.configuration, [])
  /\ Policy.isComplex 500 Sample.complexConfiguration = true
  /\ Policy.isComplex 500 Sample.configuration = false
  /\ Policy.storedTTL (repository (snd (Sample.run Sample.complexRequest)))
       (QRCodeConfiguration.getHashKey Sample.complexConfiguration)
     = Some 3600
  /\ Policy.storedTTL (repository (snd (Sample.run Sample.simpleRequest)))
       (QRCodeConfiguration.getHashKey Sample.configuration)
     = Some 3600
  /\ ~ 3600 > 3600.
Proof.
  repeat split; now vm_compute.
Qed.

Lemma C2_miss_stores_with_the_default_ttl_witness :
  exists configuration warnings,
    @GenerateQRCodeUseCase.buildConfiguration Sample.platform
      Sample.complexRequest
    = Ok (configuration, warnings)
    /\ Policy.storedTTL (repository (snd (Sample.run Sample.complexRequest)))
         (QRCodeConfiguration.getHashKey configuration)
       = Some (InMemoryCacheRepository.orDefaultTTL (Some 3600) 3600).
Proof.
  apply (C2_miss_stores_with_the_default_ttl Sample.platform Sample.generator
           Sample.useCase 0 Sample.complexRequest Sample.emptyWorld
           (snd (Sample.run Sample.complexRequest))
           (@GenerateQRCodeUseCase.respond Sample.platform
              Sample.complexConfiguration
              (QRCode.mk (lit "id") 0 Sample.complexConfiguration
                 [137; 80; 78; 71])
              false GenerateQRCodeUseCase.miss)).
  - now vm_compute.
  - reflexivity.
  - reflexivity.
Defined.

(** ** Buffer: base64 is injective on bytes *)

Lemma b64char_facts (n : Z) :
  0 <= n < 64 ->
  b64index (Buffer.b64char n) = n /\ Buffer.b64char n <> 61
  /\ 0 <= Buffer.b64char n < 128.
Proof.
  intros Hn.
  assert (H : b64RoundTrips n = true).
  { apply (forallb_interval b64RoundTrips 0 64); [now vm_compute|lia]. }
  unfold b64RoundTrips in H.
  apply andb_prop in H as [H H4]. apply andb_prop in H as [H H3].
  apply andb_prop in H as [H1 H2].
  apply Z.eqb_eq in H1. apply negb_true_iff, Z.eqb_neq in H2.
  apply Z.leb_le in H3. apply Z.ltb_lt in H4. repeat split; assumption.
Qed.

Lemma b64char_inj (m n : Z) :
  0 <= m < 64 -> 0 <= n < 64 -> Buffer.b64char m = Buffer.b64char n -> m = n.
Proof.
  intros Hm Hn E.
  rewrite <- (proj1 (b64char_facts m Hm)), <- (proj1 (b64char_facts n Hn)).
  now rewrite E.
Qed.

Lemma b64char_not_pad (n : Z) : 0 <= n < 64 -> 61 = Buffer.b64char n -> False.
Proof. intros Hn E. now apply (proj1 (proj2 (b64char_facts n Hn))). Qed.

Ltac sextet := Z.div_mod_to_equations; lia.

Lemma toBase64_inj_upto (n : nat) :
  forall x y : list Z,
    (List.length x <= n)%nat -> Forall isByte x -> Forall isByte y ->
    Buffer.toBase64 x = Buffer.toBase64 y -> x = y.
Proof.
  unfold isByte.
  induction n as [|n IH]; intros x y Hlen Hx Hy E.
  - destruct x; [|simpl in Hlen; lia].
    destruct y as [|a [|b [|c y]]]; [reflexivity|discriminate..].
  - destruct x as [|a [|b [|c x]]]; destruct y as [|a' [|b' [|c' y]]];
      try reflexivity; try discriminate;
      repeat match goal with
        | H : Forall _ (_ :: _) |- _ => inversion H; clear H; subst
        end;
      simpl in E.
    + injection E as E1 E2.
      apply b64char_inj in E1; [|sextet|sextet].
      apply b64char_inj in E2; [|sextet|sextet].
      f_equal. sextet.
    + injection E as E1 E2 E3.
      exfalso. apply (b64char_not_pad ((b' mod 16) * 4)); [sextet|exact E3].
    + injection E as E1 E2 E3 E4 E5.
      exfalso. apply (b64char_not_pad (c' mod 64)); [sextet|exact E4].
    + injection E as E1 E2 E3.
      exfalso. symmetry in E3.
      apply (b64char_not_pad ((b mod 16) * 4)); [sextet|exact E3].
    + injection E as E1 E2 E3.
      apply b64char_inj in E1; [|sextet|sextet].
      apply b64char_inj in E2; [|sextet|sextet].
      apply b64char_inj in E3; [|sextet|sextet].
      assert (a = a') by sextet. assert (b = b') by sextet. now subst.
    + injection E as E1 E2 E3 E4 E5.
      exfalso. apply (b64char_not_pad (c' mod 64)); [sextet|exact E4].
    + injection E as E1 E2 E3 E4 E5.
      exfalso. symmetry in E4.
      apply (b64char_not_pad (c mod 64)); [sextet|exact E4].
    + injection E as E1 E2 E3 E4 E5.
      exfalso. symmetry in E4.
      apply (b64char_not_pad (c mod 64)); [sextet|exact E4].
    + injection E as E1 E2 E3 E4 E5.
      apply b64char_inj in E1; [|sextet|sextet].
      apply b64char_inj in E2; [|sextet|sextet].
      apply b64char_inj in E3; [|sextet|sextet].
      apply b64char_inj in E4; [|sextet|sextet].
      assert (a = a') by sextet. assert (b = b') by sextet.
      assert (c = c') by sextet. subst. do 3 f_equal.
      apply IH; auto. simpl in Hlen. lia.
Qed.

Lemma toBase64_inj (x y : list Z) :
  Forall isByte x -> Forall isByte y ->
  Buffer.toBase64 x = Buffer.toBase64 y -> x = y.
Proof. apply (toBase64_inj_upto (List.length x)). lia. Qed.

(** ** Buffer: UTF-8 is injective on well-formed strings *)

Ltac bools :=
  repeat match goal with
    | H : (_ && _) = true |- _ => apply andb_prop in H as [? ?]
    | H : (_ && _) = false |- _ => apply andb_false_iff in H
    | H : negb _ = true |- _ => apply negb_true_iff in H
    | H : (_ <=? _) = true |- _ => apply Z.leb_le in H
    | H : (_ <=? _) = false |- _ => apply Z.leb_gt in H
    | H : (_ <? _) = true |- _ => apply Z.ltb_lt in H
    | H : (_ <? _) = false |- _ => apply Z.ltb_ge in H
    | H : (_ =? _) = true |- _ => apply Z.eqb_eq in H
    | H : (_ =? _) = false |- _ => apply Z.eqb_neq in H
    end.

Lemma cons_inj {A} (a b : A) (l m : list A) :
  a :: l = b :: m -> a = b /\ l = m.
Proof. intros [= -> ->]. now split. Qed.

Ltac uncons :=
  repeat match goal with
    | H : _ :: _ = _ :: _ |- _ =>
        apply cons_inj in H; let E := fresh "E" in destruct H as [E H]
    end.

Lemma encodeCodePoint_bytes (cp : Z) :
  isCodePoint cp -> Forall isByte (Buffer.encodeCodePoint cp).
Proof.
  unfold isCodePoint, isByte, Buffer.encodeCodePoint. intros Hcp.
  destruct (cp <? 128) eqn:E1; [|destruct (cp <? 2048) eqn:E2;
    [|destruct (cp <? 65536) eqn:E3]]; bools;
    repeat constructor; sextet.
Qed.

(** The encodings form a prefix code. *)
Lemma encodeCodePoint_prefix (a b : Z) (x y : list Z) :
  isCodePoint a -> isCodePoint b ->
  Buffer.encodeCodePoint a ++ x = Buffer.encodeCodePoint b ++ y ->
  a = b /\ x = y.
Proof.
  unfold isCodePoint, Buffer.encodeCodePoint. intros Ha Hb.
  destruct (a <? 128) eqn:A1; [|destruct (a <? 2048) eqn:A2;
    [|destruct (a <? 65536) eqn:A3]];
  (destruct (b <? 128) eqn:B1; [|destruct (b <? 2048) eqn:B2;
    [|destruct (b <? 65536) eqn:B3]]);
  bools; cbn [app]; intros E; uncons;
    try (exfalso; sextet); (split; [sextet|assumption]).
Qed.

Lemma encodeCodePoint_nonempty (cp : Z) (x : list Z) :
  Buffer.encodeCodePoint cp ++ x <> [].
Proof.
  unfold Buffer.encodeCodePoint.
  destruct (cp <? 128); [|destruct (cp <? 2048); [|destruct (cp <? 65536)]];
    cbn [app]; discriminate.
Qed.

Lemma utf8_inj (l1 : list Z) :
  forall l2, Forall isCodePoint l1 -> Forall isCodePoint l2 ->
  flat_map Buffer.encodeCodePoint l1 = flat_map Buffer.encodeCodePoint l2 ->
  l1 = l2.
Proof.
  induction l1 as [|a l1 IH]; intros [|b l2] H1 H2 E; simpl in E.
  - reflexivity.
  - symmetry in E. now apply encodeCodePoint_nonempty in E.
  - now apply encodeCodePoint_nonempty in E.
  - inversion H1; inversion H2; subst.
    apply encodeCodePoint_prefix in E as [-> E]; auto.
    f_equal. now apply IH.
Qed.

Lemma utf8_bytes (l : list Z) :
  Forall isCodePoint l -> Forall isByte (flat_map Buffer.encodeCodePoint l).
Proof.
  induction 1 as [|cp l Hcp _ IH]; simpl; [constructor|].
  apply Forall_app. split; [now apply encodeCodePoint_bytes|exact IH].
Qed.

Lemma wellFormed_upto (n : nat) :
  forall s, (List.length s <= n)%nat -> wellFormed s = true -> WellFormed s.
Proof.
  induction n as [|n IH]; intros s Hlen Hwf.
  - destruct s; [constructor|simpl in Hlen; lia].
  - destruct s as [|c r]; [constructor|]. simpl in Hwf, Hlen.
    destruct (Buffer.isHighSurrogate c) eqn:Hc.
    + destruct r as [|d r]; [discriminate|].
      apply andb_prop in Hwf as [Hd Hr].
      apply WF_pair; auto. apply IH; auto. simpl in Hlen. lia.
    + apply andb_prop in Hwf as [Hwf Hr]. apply andb_prop in Hwf as [Hwf H3].
      apply andb_prop in Hwf as [H1 H2]. bools.
      apply WF_unit; [lia|assumption|assumption|apply IH; [lia|assumption]].
Qed.

Lemma wellFormed_WellFormed (s : jsstring) :
  wellFormed s = true -> WellFormed s.
Proof. apply (wellFormed_upto (List.length s)). lia. Qed.

Lemma WellFormed_app (a b : jsstring) :
  WellFormed a -> WellFormed b -> WellFormed (a ++ b).
Proof.
  induction 1; intros Hb; simpl; auto.
  - apply WF_unit; auto.
  - apply WF_pair; auto.
Qed.

Lemma isAscii_WellFormed (s : jsstring) : isAscii s = true -> WellFormed s.
Proof.
  unfold isAscii. induction s as [|c s IH]; simpl; [constructor|].
  intros H. apply andb_prop in H as [Hc Hs]. bools.
  apply WF_unit; [lia| | |now apply IH];
    unfold Buffer.isHighSurrogate, Buffer.isLowSurrogate;
    apply andb_false_iff; left; apply Z.leb_gt; lia.
Qed.

Lemma toCodePoints_unit (c : Z) (r : jsstring) :
  Buffer.isHighSurrogate c = false -> Buffer.isLowSurrogate c = false ->
  Buffer.toCodePoints (c :: r) = c :: Buffer.toCodePoints r.
Proof. intros H1 H2. cbn [Buffer.toCodePoints]. now rewrite H1, H2. Qed.

Lemma toCodePoints_pair (c d : Z) (r : jsstring) :
  Buffer.isHighSurrogate c = true -> Buffer.isLowSurrogate d = true ->
  Buffer.toCodePoints (c :: d :: r)
  = (65536 + (c - 55296) * 1024 + (d - 56320)) :: Buffer.toCodePoints r.
Proof. intros H1 H2. cbn [Buffer.toCodePoints]. now rewrite H1, H2. Qed.

Lemma toCodePoints_range (s : jsstring) :
  WellFormed s -> Forall isCodePoint (Buffer.toCodePoints s).
Proof.
  induction 1 as [|c r Hc H1 H2 _ IH|c d r H1 H2 _ IH].
  - constructor.
  - rewrite toCodePoints_unit by assumption.
    constructor; [unfold isCodePoint; lia|exact IH].
  - rewrite toCodePoints_pair by assumption.
    unfold Buffer.isHighSurrogate, Buffer.isLowSurrogate in *. bools.
    constructor; [unfold isCodePoint; lia|exact IH].
Qed.

Lemma toCodePoints_inj (s1 : jsstring) :
  WellFormed s1 -> forall s2, WellFormed s2 ->
  Buffer.toCodePoints s1 = Buffer.toCodePoints s2 -> s1 = s2.
Proof.
  induction 1 as [|c r Hc H1 H2 _ IH|c d r H1 H2 _ IH];
    intros s2 W2; destruct W2 as [|c' r' Hc' H1' H2' W2|c' d' r' H1' H2' W2];
    repeat match goal with
      | |- context [Buffer.toCodePoints (?x :: ?y :: ?l)] =>
          rewrite (toCodePoints_pair x y l) by assumption
      | |- context [Buffer.toCodePoints (?x :: ?l)] =>
          rewrite (toCodePoints_unit x l) by assumption
      end;
    change (Buffer.toCodePoints []) with (@nil Z);
    intros E; try discriminate E; try reflexivity;
    uncons;
    unfold Buffer.isHighSurrogate, Buffer.isLowSurrogate in *; bools.
  - subst. f_equal. now apply IH.
  - exfalso. lia.
  - exfalso. lia.
  - assert (c = c') by lia. assert (d = d') by lia. subst.
    do 2 f_equal. now apply IH.
Qed.

(** [Buffer.from(s).toString('base64')] is injective on well-formed
    strings. *)
Lemma base64_of_utf8_inj (s1 s2 : jsstring) :
  WellFormed s1 -> WellFormed s2 ->
  Buffer.toBase64 (Buffer.from s1) = Buffer.toBase64 (Buffer.from s2) ->
  s1 = s2.
Proof.
  intros W1 W2 E. unfold Buffer.from in E.
  apply toBase64_inj in E;
    try (apply utf8_bytes; now apply toCodePoints_range).
  apply utf8_inj in E; try now apply toCodePoints_range.
  now apply toCodePoints_inj.
Qed.

(** ** QRCodeConfiguration: the hash key *)

Lemma intToString_inj (a b : Z) :
  0 <= a <= 1000 -> 0 <= b <= 1000 ->
  intToString 10 a = intToString 10 b -> a = b.
Proof.
  intros Ha Hb E.
  destruct (decimal_round_trip a Ha) as (Pa & _).
  destruct (decimal_round_trip b Hb) as (Pb & _).
  rewrite E in Pa. congruence.
Qed.

Lemma isDigit_isAscii (s : jsstring) :
  forallb Size.isDigit s = true -> isAscii s = true.
Proof.
  unfold isAscii. induction s as [|c s IH]; simpl; [reflexivity|].
  intros H. apply andb_prop in H as [Hc Hs]. rewrite (IH Hs), andb_true_r.
  unfold Size.isDigit in Hc. bools. apply andb_true_intro.
  split; [apply Z.leb_le|apply Z.ltb_lt]; lia.
Qed.

Lemma isAscii_app (a b : jsstring) :
  isAscii a = true -> isAscii b = true -> isAscii (a ++ b) = true.
Proof. unfold isAscii. intros Ha Hb. now rewrite forallb_app, Ha, Hb. Qed.

Lemma Size_toString_ascii (s : Size.t) :
  sizeInRange s -> isAscii (Size.toString s) = true.
Proof.
  intros [Hw Hh]. unfold Size.toString.
  destruct (decimal_round_trip (Size.width s)) as (_ & Dw & _); [lia|].
  destruct (decimal_round_trip (Size.height s)) as (_ & Dh & _); [lia|].
  repeat apply isAscii_app; try now apply isDigit_isAscii. reflexivity.
Qed.

Lemma Size_toString_inj (a b : Size.t) :
  sizeInRange a -> sizeInRange b -> Size.toString a = Size.toString b -> a = b.
Proof.
  intros [Haw Hah] [Hbw Hbh] E. unfold Size.toString in E.
  destruct (decimal_round_trip (Size.width a)) as (_ & Da & _); [lia|].
  destruct (decimal_round_trip (Size.width b)) as (_ & Db & _); [lia|].
  change (lit "x" ++ ?t) with (120 :: t) in E.
  apply (f_equal Size.takeDigits) in E.
  rewrite !takeDigits_app in E by (assumption || reflexivity).
  injection E as Ew Eh.
  apply intToString_inj in Ew; [|lia|lia].
  apply intToString_inj in Eh; [|lia|lia].
  destruct a, b; simpl in *. congruence.
Qed.

Lemma format_toString_inj (a b : OutputFormatValue.t) :
  OutputFormatValue.toString a = OutputFormatValue.toString b -> a = b.
Proof. destruct a, b; intros E; try reflexivity; now vm_compute in E. Qed.

Lemma format_toString_ascii (a : OutputFormatValue.t) :
  isAscii (OutputFormatValue.toString a) = true.
Proof. now destruct a. Qed.

Lemma ecc_toString_inj (a b : ErrorCorrectionLevelValue.t) :
  ErrorCorrectionLevelValue.toString a = ErrorCorrectionLevelValue.toString b ->
  a = b.
Proof. destruct a, b; intros E; try reflexivity; now vm_compute in E. Qed.

Lemma ecc_toString_ascii (a : ErrorCorrectionLevelValue.t) :
  isAscii (ErrorCorrectionLevelValue.toString a) = true.
Proof. now destruct a. Qed.

Lemma hexByte_facts (z : Z) :
  -15 <= z <= 255 ->
  (exists x y, hexByte z = [x; y])
  /\ parseInt (hexByte z) 16 = Int z
  /\ isAscii (hexByte z) = true.
Proof.
  intros Hz.
  assert (H : hexRoundTrips z = true).
  { apply (forallb_interval hexRoundTrips (-15) 271); [now vm_compute|lia]. }
  unfold hexRoundTrips in H.
  apply andb_prop in H as [H H3]. apply andb_prop in H as [H1 H2].
  repeat split; [| |exact H3].
  - apply Nat.eqb_eq in H1.
    destruct (hexByte z) as [|x [|y [|? ?]]]; try discriminate. now exists x, y.
  - destruct (parseInt (hexByte z) 16); try discriminate.
    apply Z.eqb_eq in H2. now subst.
Qed.

Lemma toHex_valid (c : ColorValue.t) :
  validColor c ->
  exists r g b,
    ColorValue.r c = Int r /\ ColorValue.g c = Int g /\ ColorValue.b c = Int b
    /\ -15 <= r <= 255 /\ -15 <= g <= 255 /\ -15 <= b <= 255
    /\ ColorValue.toString c = 35 :: hexByte r ++ hexByte g ++ hexByte b.
Proof.
  intros ((r & Er & Hr) & (g & Eg & Hg) & (b & Eb & Hb)).
  exists r, g, b. repeat split; try assumption; try lia.
  unfold ColorValue.toString, ColorValue.toHex. now rewrite Er, Eg, Eb.
Qed.

Lemma color_toString_ascii (c : ColorValue.t) :
  validColor c -> isAscii (ColorValue.toString c) = true.
Proof.
  intros V. destruct (toHex_valid c V) as (r & g & b & _ & _ & _ & Hr & Hg & Hb & E).
  rewrite E. change (35 :: ?t) with ([35] ++ t).
  repeat apply isAscii_app; try reflexivity;
    now apply hexByte_facts.
Qed.

Lemma color_toString_inj (c1 c2 : ColorValue.t) :
  validColor c1 -> validColor c2 ->
  ColorValue.toString c1 = ColorValue.toString c2 -> c1 = c2.
Proof.
  intros V1 V2 E.
  destruct (toHex_valid c1 V1)
    as (r1 & g1 & b1 & Er1 & Eg1 & Eb1 & Hr1 & Hg1 & Hb1 & T1).
  destruct (toHex_valid c2 V2)
    as (r2 & g2 & b2 & Er2 & Eg2 & Eb2 & Hr2 & Hg2 & Hb2 & T2).
  rewrite T1, T2 in E.
  destruct (hexByte_facts r1 Hr1) as ((x1 & y1 & X1) & P1 & _).
  destruct (hexByte_facts g1 Hg1) as ((x2 & y2 & X2) & P2 & _).
  destruct (hexByte_facts b1 Hb1) as ((x3 & y3 & X3) & P3 & _).
  destruct (hexByte_facts r2 Hr2) as ((x4 & y4 & X4) & P4 & _).
  destruct (hexByte_facts g2 Hg2) as ((x5 & y5 & X5) & P5 & _).
  destruct (hexByte_facts b2 Hb2) as ((x6 & y6 & X6) & P6 & _).
  rewrite X1, X2, X3, X4, X5, X6 in E. cbn [app] in E.
  injection E as -> -> -> -> -> ->.
  rewrite <- X4 in X1. rewrite <- X5 in X2. rewrite <- X6 in X3.
  rewrite X1 in P1. rewrite X2 in P2. rewrite X3 in P3.
  assert (r1 = r2) by congruence. assert (g1 = g2) by congruence.
  assert (b1 = b2) by congruence. subst.
  destruct c1, c2; simpl in *. congruence.
Qed.

Lemma supported_charset (s : jsstring) :
  includes QRCodeConfiguration.supportedCharsets s = true ->
  s = lit "UTF-8" \/ s = lit "ISO-8859-1".
Proof.
  unfold includes, QRCodeConfiguration.supportedCharsets. simpl existsb.
  intros H. apply orb_prop in H as [H|H].
  - left. now apply streq_eq.
  - right. rewrite orb_false_r in H. now apply streq_eq.
Qed.

Lemma supported_charset_ascii (s : jsstring) :
  includes QRCodeConfiguration.supportedCharsets s = true -> isAscii s = true.
Proof. intros H. now destruct (supported_charset s H) as [-> | ->]. Qed.

Lemma margin_ascii (z : Z) : 0 <= z <= 1000 -> isAscii (intToString 10 z) = true.
Proof.
  intros Hz. apply isDigit_isAscii. now apply decimal_round_trip.
Qed.

(** The text that is hashed, for a valid configuration, is well-formed. *)
Lemma components_WellFormed (c : QRCodeConfiguration.t) :
  validConfiguration c ->
  WellFormed (join (lit "|") (QRCodeConfiguration.components c)).
Proof.
  intros (Hd & Hs & Hf & Hb & Hm & Hq & Hcs & Hct).
  unfold QRCodeConfiguration.components. cbn [join].
  apply WellFormed_app; [now apply wellFormed_WellFormed|].
  apply isAscii_WellFormed.
  pose proof (Size_toString_ascii _ Hs) as A1.
  pose proof (format_toString_ascii (QRCodeConfiguration.format c)) as A2.
  pose proof (ecc_toString_ascii (QRCodeConfiguration.errorCorrectionLevel c))
    as A3.
  pose proof (color_toString_ascii _ Hf) as A4.
  pose proof (color_toString_ascii _ Hb) as A5.
  assert (A6 : isAscii (intToString 10 (QRCodeConfiguration.margin c)) = true)
    by (apply margin_ascii; lia).
  assert (A7 : isAscii (intToString 10 (QRCodeConfiguration.quietZone c)) = true)
    by (apply margin_ascii; lia).
  pose proof (supported_charset_ascii _ Hcs) as A8.
  pose proof (supported_charset_ascii _ Hct) as A9.
  unfold isAscii in *. rewrite !forallb_app.
  rewrite A1, A2, A3, A4, A5, A6, A7, A8, A9. reflexivity.
Qed.

Lemma hashed_text_inj (c1 c2 : QRCodeConfiguration.t) :
  validConfiguration c1 -> validConfiguration c2 ->
  QRCodeConfiguration.getHashKey c1 = QRCodeConfiguration.getHashKey c2 ->
  join (lit "|") (QRCodeConfiguration.components c1)
  = join (lit "|") (QRCodeConfiguration.components c2).
Proof.
  intros V1 V2. unfold QRCodeConfiguration.getHashKey.
  apply base64_of_utf8_inj; now apply components_WellFormed.
Qed.

(** C1.  The hash key does not tell apart two configurations that differ in
    the data field only.  The payloads [\uD800] and [\uD801] are accepted,
    the two configurations built from them differ in no other field and
    [equals] tells them apart, but both have the same key, because
    [Buffer.from] writes every unpaired surrogate as U+FFFD; a request for
    the second payload is then answered from the cache with what was
    generated for the first. *)
Theorem C1_unpaired_surrogates_share_a_hash_key :
  @GenerateQRCodeUseCase.buildConfiguration Sample.platform
    (Sample.surrogateRequest 55296)
  = Ok (Sample.surrogateConfiguration 55296, [])
  /\ @GenerateQRCodeUseCase.buildConfiguration Sample.platform
       (Sample.surrogateRequest 55297)
     = Ok (Sample.surrogateConfiguration 55297, [])
  /\ differOnlyIn FData (Sample.surrogateConfiguration 55296)
       (Sample.surrogateConfiguration 55297)
  /\ QRCodeConfiguration.equals (Sample.surrogateConfiguration 55296)
       (Sample.surrogateConfiguration 55297)
     = false
  /\ QRCodeConfiguration.getHashKey (Sample.surrogateConfiguration 55296)
     = QRCodeConfiguration.getHashKey (Sample.surrogateConfiguration 55297)
  /\ fst (@GenerateQRCodeUseCase.execute Sample.platform _ inMemory
            Sample.generator Sample.useCase 1 (Sample.surrogateRequest 55297)
            (snd (@GenerateQRCodeUseCase.execute Sample.platform _ inMemory
                    Sample.generator Sample.useCase 0
                    (Sample.surrogateRequest 55296) Sample.emptyWorld)))
     = Ok (@GenerateQRCodeUseCase.respond Sample.platform
             (Sample.surrogateConfiguration 55297)
             (QRCode.mk (lit "id") 0 (Sample.surrogateConfiguration 55296)
                [137; 80; 78; 71])
             true GenerateQRCodeUseCase.hit).
Proof.
  split; [now vm_compute|]. split; [now vm_compute|].
  split.
  { split.
    - cbn [agreeOn]. simpl. discriminate.
    - intros g Hg. destruct g; try reflexivity. now destruct Hg. }
  split; [now vm_compute|]. split; [now vm_compute|].
  vm_compute. reflexivity.
Qed.

(** ** What the factories guarantee *)

Lemma radixDigit_bound (radix c d : Z) :
  radixDigit radix c = Some d -> 0 <= d < radix.
Proof.
  unfold radixDigit, digitValue.
  destruct ((48 <=? c) && (c <=? 57)) eqn:E1;
    [|destruct ((97 <=? c) && (c <=? 122)) eqn:E2;
      [|destruct ((65 <=? c) && (c <=? 90)) eqn:E3; [|discriminate]]];
    match goal with |- context [?v <? radix] => destruct (v <? radix) eqn:L end;
    try discriminate; intros [= <-]; bools; lia.
Qed.

Lemma parseDigits_short (s : jsstring) (v : Z) :
  parseDigits 16 None s = Some v ->
  ((List.length s <= 1)%nat -> 0 <= v <= 15)
  /\ ((List.length s <= 2)%nat -> 0 <= v <= 255).
Proof.
  destruct s as [|x [|y s]]; cbn [parseDigits]; [discriminate| |].
  - destruct (radixDigit 16 x) as [d|] eqn:D; [|discriminate].
    intros [= <-]. apply radixDigit_bound in D. split; intros _; lia.
  - destruct (radixDigit 16 x) as [d|] eqn:D; [|discriminate].
    apply radixDigit_bound in D.
    destruct (radixDigit 16 y) as [e|] eqn:D'.
    + apply radixDigit_bound in D'. intros Hv. split; simpl; intros L; [lia|].
      destruct s; [|simpl in L; lia]. simpl in Hv. injection Hv as <-. lia.
    + intros [= <-]. split; intros _; lia.
Qed.

Lemma trimStart_length (s : jsstring) :
  (List.length (trimStart s) <= List.length s)%nat.
Proof.
  induction s as [|c s IH]; simpl; [lia|].
  destruct (isWhiteSpace c); simpl; lia.
Qed.

(** Two characters read in base 16 give an integer from -15 to 255, or
    no integer at all. *)
Lemma parseInt_two_hex (a b : Z) (n : number) :
  parseInt [a; b] 16 = n -> isNaN n = false -> validChannel n.
Proof.
  unfold parseInt, validChannel.
  pose proof (trimStart_length [a; b]) as L.
  change (List.length [a; b]) with 2%nat in L.
  destruct (trimStart [a; b]) as [|c r]; [intros <-; discriminate|].
  cbn [List.length] in L.
  change (16 =? 16) with true. cbv iota.
  assert (Hover : forall v, 0 <= v <= 255 -> (doubleOverflow <=? v) = false).
  { intros v Hv. apply Z.leb_gt. unfold doubleOverflow.
    assert (256 < 2 ^ 1024 - 2 ^ 970) by now vm_compute. lia. }
  assert (Hrest : forall (neg : bool) (s : jsstring),
             (List.length s <= (if neg then 1 else 2))%nat ->
             match parseDigits 16 None s with
             | Some v =>
                 if doubleOverflow <=? v then Infinity neg
                 else Int (if neg then - v else v)
             | None => NaN
             end = n ->
             isNaN n = false -> exists z : Z, n = Int z /\ -15 <= z <= 255).
  { intros neg s Ls. destruct (parseDigits 16 None s) as [v|] eqn:Pv;
      [|intros <-; discriminate].
    destruct (parseDigits_short s v Pv) as [S1 S2].
    assert (Hv : 0 <= v <= 255) by (apply S2; destruct neg; lia).
    rewrite (Hover v Hv). intros <- _. eexists. split; [reflexivity|].
    destruct neg; [specialize (S1 Ls)|]; lia. }
  assert (Hstrip : forall (neg : bool) (s : jsstring),
             (List.length s <= (if neg then 1 else 2))%nat ->
             match
               parseDigits 16 None
                 match s with
                 | z :: x :: r' =>
                     if (z =? 48) && ((x =? 120) || (x =? 88)) then r' else s
                 | _ => s
                 end
             with
             | Some v =>
                 if doubleOverflow <=? v then Infinity neg
                 else Int (if neg then - v else v)
             | None => NaN
             end = n ->
             isNaN n = false -> exists z : Z, n = Int z /\ -15 <= z <= 255).
  { intros neg s Ls. destruct s as [|z [|x r']]; try (now apply Hrest).
    destruct ((z =? 48) && ((x =? 120) || (x =? 88))); apply Hrest; auto.
    simpl in *. destruct neg; lia. }
  destruct (c =? 45); [|destruct (c =? 43)].
  - apply (Hstrip true r). lia.
  - apply (Hstrip false r). lia.
  - apply (Hstrip false (c :: r)). cbn [List.length]. lia.
Qed.

Lemma parseHexColor_valid (hex : jsstring) (c : ColorValue.t) :
  ColorValue.parseHexColor hex = Ok c -> validColor c.
Proof.
  unfold ColorValue.parseHexColor.
  destruct (removeFirst 35 hex) as [|c0 [|c1 [|c2 [|c3 [|c4 [|c5 [|? ?]]]]]]];
    try discriminate;
    match goal with
    | |- (if isNaN ?r || isNaN ?g || isNaN ?b then _ else _) = _ -> _ =>
        destruct (isNaN r) eqn:Nr; [discriminate|];
        destruct (isNaN g) eqn:Ng; [discriminate|];
        destruct (isNaN b) eqn:Nb; [discriminate|];
        simpl; intros [= <-]; repeat split; simpl;
        eapply parseInt_two_hex; eauto
    end.
Qed.

Lemma validateRGBComponent_valid (n : number) (ch : Channel) :
  isNaN n = false -> ColorValue.validateRGBComponent n ch = Ok tt ->
  validChannel n.
Proof.
  unfold ColorValue.validateRGBComponent, validChannel.
  destruct n as [z| |[|]]; simpl; try discriminate.
  intros _. destruct (z <? 0) eqn:E1; [discriminate|].
  destruct (255 <? z) eqn:E2; [discriminate|]. bools.
  intros _. exists z. split; [reflexivity|lia].
Qed.

Lemma parseRGBString_valid (rgb : jsstring) (c : ColorValue.t) :
  ColorValue.parseRGBString rgb = Ok c -> validColor c.
Proof.
  unfold ColorValue.parseRGBString.
  destruct (split 45 rgb) as [|p0 [|p1 [|p2 [|? ?]]]]; try discriminate.
  destruct (isNaN (parseInt p0 10)) eqn:N0; [discriminate|].
  destruct (isNaN (parseInt p1 10)) eqn:N1; [discriminate|].
  destruct (isNaN (parseInt p2 10)) eqn:N2; [discriminate|]. simpl orb.
  destruct (ColorValue.validateRGBComponent (parseInt p0 10) Red) as [[]|]
    eqn:V0; [|discriminate].
  destruct (ColorValue.validateRGBComponent (parseInt p1 10) Green) as [[]|]
    eqn:V1; [|discriminate].
  destruct (ColorValue.validateRGBComponent (parseInt p2 10) Blue) as [[]|]
    eqn:V2; [|discriminate].
  simpl. intros [= <-]. repeat split; simpl;
    eapply validateRGBComponent_valid; eauto.
Qed.

(** Every colour that [ColorValue.create] returns has valid channels, and
    so have the two default colours. *)
Lemma create_validColor (input : jsstring) (c : ColorValue.t) :
  ColorValue.create input = Ok c -> validColor c.
Proof.
  unfold ColorValue.create, ColorValue.parseColor.
  destruct (startsWith input (lit "#")); [apply parseHexColor_valid|].
  destruct (includesChar input 45); [apply parseRGBString_valid|].
  destruct (ColorValue.isBareHex input); [apply parseHexColor_valid|discriminate].
Qed.

Lemma default_colors_valid :
  validColor ColorValue.black /\ validColor ColorValue.white.
Proof.
  split; repeat split; simpl; eexists; (split; [reflexivity|lia]).
Qed.

(** The constructor establishes the invariants of [validConfiguration] from
    those of the values it is given. *)
Lemma new_validConfiguration (P : Platform)
  (params : QRCodeConfiguration.QRCodeConfigurationParams)
  (c : QRCodeConfiguration.t) (warnings : list jsstring) :
  QRCodeConfiguration.new params = Ok (c, warnings) ->
  wellFormed (DataPayload.content (QRCodeConfiguration.p_data params)) = true ->
  (forall s, QRCodeConfiguration.p_size params = Some s -> sizeInRange s) ->
  (forall x, QRCodeConfiguration.p_foregroundColor params = Some x ->
             validColor x) ->
  (forall x, QRCodeConfiguration.p_backgroundColor params = Some x ->
             validColor x) ->
  validConfiguration c.
Proof.
  unfold QRCodeConfiguration.new.
  destruct (QRCodeConfiguration.validateMargin _) as [m|] eqn:Hm;
    [|discriminate].
  destruct (QRCodeConfiguration.validateQuietZone _) as [q|] eqn:Hq;
    [|discriminate].
  cbn [bind]. unfold QRCodeConfiguration.validateConfiguration.
  cbn [QRCodeConfiguration.data QRCodeConfiguration.charsetSource
       QRCodeConfiguration.charsetTarget QRCodeConfiguration.foregroundColor
       QRCodeConfiguration.backgroundColor].
  destruct (DataPayload.isCompatibleWithCharset _ _); [|discriminate].
  destruct (includes QRCodeConfiguration.supportedCharsets
              (QRCodeConfiguration.orDefaultString
                 (QRCodeConfiguration.p_charsetSource params) (lit "UTF-8")))
    eqn:Hcs; [|discriminate].
  destruct (includes QRCodeConfiguration.supportedCharsets
              (QRCodeConfiguration.orDefaultString
                 (QRCodeConfiguration.p_charsetTarget params) (lit "UTF-8")))
    eqn:Hct; [|discriminate].
  cbn [negb].
  intros Hnew Hdata Hsize Hfg Hbg.
  assert (Ec : c = QRCodeConfiguration.mk (QRCodeConfiguration.p_data params)
                 (QRCodeConfiguration.orDefault
                    (QRCodeConfiguration.p_size params) Size.default)
                 (QRCodeConfiguration.orDefault
                    (QRCodeConfiguration.p_format params)
                    OutputFormatValue.default)
                 (QRCodeConfiguration.orDefault
                    (QRCodeConfiguration.p_errorCorrectionLevel params)
                    ErrorCorrectionLevelValue.default)
                 (QRCodeConfiguration.orDefault
                    (QRCodeConfiguration.p_foregroundColor params)
                    ColorValue.black)
                 (QRCodeConfiguration.orDefault
                    (QRCodeConfiguration.p_backgroundColor params)
                    ColorValue.white)
                 m q
                 (QRCodeConfiguration.orDefaultString
                    (QRCodeConfiguration.p_charsetSource params) (lit "UTF-8"))
                 (QRCodeConfiguration.orDefaultString
                    (QRCodeConfiguration.p_charsetTarget params) (lit "UTF-8"))).
  { destruct (negb (ColorValue.hasAccessibleContrast _ _));
      cbn [bind] in Hnew; now injection Hnew as <- _. }
  subst c. unfold validConfiguration.
  cbn [QRCodeConfiguration.data QRCodeConfiguration.size
       QRCodeConfiguration.foregroundColor QRCodeConfiguration.backgroundColor
       QRCodeConfiguration.margin QRCodeConfiguration.quietZone
       QRCodeConfiguration.charsetSource QRCodeConfiguration.charsetTarget].
  repeat split; try assumption.
  - destruct (QRCodeConfiguration.p_size params) as [s|]; simpl;
      [now apply Hsize|lia].
  - destruct (QRCodeConfiguration.p_size params) as [s|]; simpl;
      [now apply Hsize|lia].
  - destruct (QRCodeConfiguration.p_size params) as [s|]; simpl;
      [now apply Hsize|lia].
  - destruct (QRCodeConfiguration.p_size params) as [s|]; simpl;
      [now apply Hsize|lia].
  - destruct (QRCodeConfiguration.p_foregroundColor params) as [x|]; simpl;
      [now apply Hfg|apply default_colors_valid].
  - destruct (QRCodeConfiguration.p_foregroundColor params) as [x|]; simpl;
      [now apply Hfg|apply default_colors_valid].
  - destruct (QRCodeConfiguration.p_foregroundColor params) as [x|]; simpl;
      [now apply Hfg|apply default_colors_valid].
  - destruct (QRCodeConfiguration.p_backgroundColor params) as [x|]; simpl;
      [now apply Hbg|apply default_colors_valid].
  - destruct (QRCodeConfiguration.p_backgroundColor params) as [x|]; simpl;
      [now apply Hbg|apply default_colors_valid].
  - destruct (QRCodeConfiguration.p_backgroundColor params) as [x|]; simpl;
      [now apply Hbg|apply default_colors_valid].
  - unfold QRCodeConfiguration.validateMargin in Hm.
    destruct (QRCodeConfiguration.p_margin params) as [[z| |]|];
      try discriminate; [|injection Hm as <-; lia].
    destruct ((z <? 0) || (z >? 50)) eqn:G; [discriminate|].
    injection Hm as <-. apply orb_false_iff in G as [G1 G2].
    rewrite Z.gtb_ltb in G2. bools. lia.
  - unfold QRCodeConfiguration.validateMargin in Hm.
    destruct (QRCodeConfiguration.p_margin params) as [[z| |]|];
      try discriminate; [|injection Hm as <-; lia].
    destruct ((z <? 0) || (z >? 50)) eqn:G; [discriminate|].
    injection Hm as <-. apply orb_false_iff in G as [G1 G2].
    rewrite Z.gtb_ltb in G2. bools. lia.
  - unfold QRCodeConfiguration.validateQuietZone in Hq.
    destruct (QRCodeConfiguration.p_quietZone params) as [[z| |]|];
      try discriminate; [|injection Hq as <-; lia].
    destruct ((z <? 0) || (z >? 100)) eqn:G; [discriminate|].
    injection Hq as <-. apply orb_false_iff in G as [G1 G2].
    rewrite Z.gtb_ltb in G2. bools. lia.
  - unfold QRCodeConfiguration.validateQuietZone in Hq.
    destruct (QRCodeConfiguration.p_quietZone params) as [[z| |]|];
      try discriminate; [|injection Hq as <-; lia].
    destruct ((z <? 0) || (z >? 100)) eqn:G; [discriminate|].
    injection Hq as <-. apply orb_false_iff in G as [G1 G2].
    rewrite Z.gtb_ltb in G2. bools. lia.
Qed.

(** ** The map of a reachable repository has distinct keys *)

Lemma evictOldest_NoDup (this : InMemoryCacheRepository.t) :
  NoDup (InMemoryCacheRepository.getKeys this) ->
  NoDup (InMemoryCacheRepository.getKeys
           (InMemoryCacheRepository.evictOldest this)).
Proof.
  intros ND. unfold InMemoryCacheRepository.evictOldest.
  destruct (fst (InMemoryCacheRepository.scanOldest
                   (InMemoryCacheRepository.cache this))) as [[|c k]|];
    try exact ND.
  unfold InMemoryCacheRepository.getKeys. simpl. now apply NoDup_delete.
Qed.

Lemma step_NoDup (this : InMemoryCacheRepository.t)
  (op : InMemoryCacheRepository.Op) :
  NoDup (InMemoryCacheRepository.getKeys this) ->
  NoDup (InMemoryCacheRepository.getKeys (InMemoryCacheRepository.step this op)).
Proof.
  intros ND. unfold InMemoryCacheRepository.getKeys in *.
  destruct op as [now key|now key q ttl|key| |now key|now];
    cbn [InMemoryCacheRepository.step].
  - unfold InMemoryCacheRepository.get.
    destruct (JSMap.get key (InMemoryCacheRepository.cache this)) as [entry|];
      [destruct (now >? InMemoryCacheRepository.expiresAt entry)|]; simpl;
      auto using NoDup_delete.
  - unfold InMemoryCacheRepository.set. simpl. apply NoDup_set.
    destruct ((JSMap.size (InMemoryCacheRepository.cache this)
               >=? InMemoryCacheRepository.maxKeys this)
              && negb (JSMap.has key (InMemoryCacheRepository.cache this)));
      [|exact ND].
    now apply evictOldest_NoDup.
  - unfold InMemoryCacheRepository.delete.
    destruct (JSMap.has key (InMemoryCacheRepository.cache this)); simpl;
      auto using NoDup_delete.
  - simpl. constructor.
  - unfold InMemoryCacheRepository.exists_.
    destruct (JSMap.get key (InMemoryCacheRepository.cache this)) as [entry|];
      [destruct (now >? InMemoryCacheRepository.expiresAt entry)|]; simpl;
      auto using NoDup_delete.
  - unfold InMemoryCacheRepository.cleanup. simpl.
    now apply cleanup_fold.
Qed.

Lemma run_NoDup (ops : list InMemoryCacheRepository.Op)
  (maxKeys defaultTTL : option Z) :
  NoDup (InMemoryCacheRepository.getKeys
           (InMemoryCacheRepository.run
              (InMemoryCacheRepository.new maxKeys defaultTTL) ops)).
Proof.
  unfold InMemoryCacheRepository.run.
  assert (G : forall this,
             NoDup (InMemoryCacheRepository.getKeys this) ->
             NoDup (InMemoryCacheRepository.getKeys
                      (fold_left InMemoryCacheRepository.step ops this))).
  { induction ops as [|op ops IH]; intros this ND; simpl; [exact ND|].
    apply IH. now apply step_NoDup. }
  apply G. constructor.
Qed.

(** ** The examples of the test suites *)

Example shorthand_and_full_hex_agree :
  ColorValue.create (lit "F00") = ColorValue.create (lit "FF0000")
  /\ ColorValue.create (lit "#F00") = ColorValue.create (lit "FF0000")
  /\ ColorValue.create (lit "255-0-0") = ColorValue.create (lit "#ff0000").
Proof. repeat split. Qed.

Example invalid_colors :
  ColorValue.create (lit "invalid-color")
  = Throw (ColorRGBFormat (lit "invalid-color"))
  /\ ColorValue.create (lit "256-0-0") = Throw (ColorComponent Red (Int 256))
  /\ ColorValue.create (lit "xyz") = Throw (ColorFormat (lit "xyz")).
Proof. repeat split. Qed.

Example area_of_200_by_300 :
  Size.create (Int 200) (Int 300) = Ok (Size.mk 200 300)
  /\ Size.getArea (Size.mk 200 300) = 60000
  /\ Size.toString (Size.mk 200 300) = lit "200x300".
Proof. repeat split. Qed.

Example size_strings :
  Size.fromString (lit "300X400") = Ok (Size.mk 300 400)
  /\ Size.fromString (lit "300-400") = Throw SizeFormat
  /\ Size.fromString (lit "300") = Throw SizeFormat
  /\ Size.fromString (lit "5x200") = Throw SizeWidthRange
  /\ Size.fromString (lit "200x1001") = Throw SizeHeightRange.
Proof. repeat split. Qed.

Example complexity_tiers :
  DataPayload.getComplexityLevel (DataPayload.mk (repeat 65 100))
  = DataPayload.low
  /\ DataPayload.getComplexityLevel (DataPayload.mk (repeat 65 400))
     = DataPayload.medium
  /\ DataPayload.getComplexityLevel (DataPayload.mk (repeat 65 401))
     = DataPayload.high.
Proof. repeat split. Qed.

Example logo_of_31_is_too_large_for_100 :
  ValidationResult.isValid
    (@ValidateParametersUseCase.validateLogoSizeRelativeToQR Sample.platform
       (lit "100x100") (Int 31)) = false
  /\ ValidationResult.isValid
       (@ValidateParametersUseCase.validateLogoSizeRelativeToQR Sample.platform
          (lit "100x100") (Int 30)) = true.
Proof. split; reflexivity. Qed.

Example hash_key_of_the_default_configuration :
  QRCodeConfiguration.getHashKey Sample.configuration
  = lit "aGVsbG98MjAweDIwMHxwbmd8THwjMDAwMDAwfCNmZmZmZmZ8MXwwfFVURi04fFVURi04".
Proof. now vm_compute. Qed.

Example request_of_the_specification_is_valid :
  ValidationResult.isValid
    (@ValidateParametersUseCase.execute Sample.platform
       (ValidateParametersUseCase.mkRequest (Some (lit "https://example.com"))
          (Some (lit "300x300")) None None (Some (lit "0066ff"))
          (Some (lit "eeeeee")) None None None None None None None))
  = true.
Proof. now vm_compute. Qed.

Example contrast_of_black_and_white :
  @ColorValue.getContrastRatio Sample.platform ColorValue.black ColorValue.white
  = 21000000
  /\ @ColorValue.getContrastRatio Sample.platform ColorValue.white
       ColorValue.white
     = 1000000.
Proof. split; reflexivity. Qed.

(** ** Hash keys are never the empty string

    The keys that the orchestrator stores are hash keys, so the entry that
    [evictOldest] fails to remove for the key [''] does not arise from
    [GenerateQRCodeUseCase.execute]. *)

Lemma toCodePoints_nonempty (c : Z) (s : jsstring) :
  Buffer.toCodePoints (c :: s) <> [].
Proof.
  cbn [Buffer.toCodePoints].
  destruct (Buffer.isHighSurrogate c);
    [destruct s as [|d s]; [|destruct (Buffer.isLowSurrogate d)]
    |destruct (Buffer.isLowSurrogate c)]; discriminate.
Qed.

Lemma toBase64_nonempty (b : Z) (bytes : list Z) :
  Buffer.toBase64 (b :: bytes) <> [].
Proof. destruct bytes as [|b1 [|b2 bytes]]; discriminate. Qed.

Lemma getHashKey_nonempty (c : QRCodeConfiguration.t) :
  QRCodeConfiguration.getHashKey c <> [].
Proof.
  unfold QRCodeConfiguration.getHashKey, Buffer.from,
    QRCodeConfiguration.components.
  cbn [join].
  destruct (DataPayload.toString (QRCodeConfiguration.data c)
            ++ lit "|" ++ _) as [|u text] eqn:E.
  - destruct (DataPayload.toString (QRCodeConfiguration.data c));
      discriminate E.
  - destruct (Buffer.toCodePoints (u :: text)) as [|cp cps] eqn:C.
    + now apply toCodePoints_nonempty in C.
    + cbn [flat_map].
      destruct (Buffer.encodeCodePoint cp ++ flat_map Buffer.encodeCodePoint cps)
        as [|b bytes] eqn:B.
      * now apply encodeCodePoint_nonempty in B.
      * apply toBase64_nonempty.
Qed.

(* ------------------------------------------------------------------ *)
(** ** The hash key and equality of configurations *)

Lemma sep_left (a b x y : jsstring) :
  ~ In 124 a -> ~ In 124 b -> a ++ 124 :: x = b ++ 124 :: y -> a = b /\ x = y.
Proof.
  revert b; induction a as [|a0 a IH]; intros [|b0 b] Ha Hb E; cbn [app] in E.
  - apply cons_inj in E as [_ E]. now split.
  - apply cons_inj in E as [E _]. exfalso; apply Hb; left; now symmetry.
  - apply cons_inj in E as [E _]. exfalso; apply Ha; now left.
  - apply cons_inj in E as [E0 E]. subst b0.
    destruct (IH b) as [E1 E2]; auto.
    + intro; apply Ha; now right.
    + intro; apply Hb; now right.
    + now subst.
Qed.

Lemma sep_right (a b x y : jsstring) :
  ~ In 124 a -> ~ In 124 b -> x ++ 124 :: a = y ++ 124 :: b -> x = y /\ a = b.
Proof.
  intros Ha Hb E. apply (f_equal (@rev Z)) in E.
  rewrite !rev_app_distr in E. cbn [rev] in E. rewrite <- !app_assoc in E.
  cbn [app] in E.
  apply sep_left in E as [E1 E2].
  - split.
    + rewrite <- (rev_involutive x), <- (rev_involutive y). now f_equal.
    + rewrite <- (rev_involutive a), <- (rev_involutive b). now f_equal.
  - intro I; apply Ha. now apply in_rev.
  - intro I; apply Hb. now apply in_rev.
Qed.

Lemma join_snoc (sep z : jsstring) (m : list jsstring) :
  m <> [] -> join sep (m ++ [z]) = join sep m ++ sep ++ z.
Proof.
  induction m as [|x [|y r] IH]; intros Hm.
  - contradiction.
  - reflexivity.
  - change (x ++ sep ++ join sep ((y :: r) ++ [z])
            = (x ++ sep ++ join sep (y :: r)) ++ sep ++ z).
    rewrite IH by discriminate. now rewrite <- !app_assoc.
Qed.

(** A joined text whose fields after the first hold no separator
    determines its fields. *)
Lemma join_inj (l1 : list jsstring) :
  forall (l2 : list jsstring) (d1 d2 : jsstring),
    List.length l1 = List.length l2 ->
    Forall (fun s => ~ In 124 s) l1 -> Forall (fun s => ~ In 124 s) l2 ->
    join [124] (d1 :: l1) = join [124] (d2 :: l2) ->
    d1 = d2 /\ l1 = l2.
Proof.
  induction l1 as [|z1 l1 IH] using rev_ind; intros l2 d1 d2 Hlen F1 F2 E.
  - destruct l2; [|discriminate]. now split.
  - destruct (exists_last (l := l2)) as [l2' [z2 ->]].
    { intro; subst; rewrite length_app in Hlen; simpl in Hlen; lia. }
    rewrite !length_app in Hlen. cbn [List.length] in Hlen.
    apply Forall_app in F1 as [F1 G1]. apply Forall_app in F2 as [F2 G2].
    inversion G1; subst. inversion G2; subst.
    change (join [124] ((d1 :: l1) ++ [z1]) = join [124] ((d2 :: l2') ++ [z2]))
      in E.
    rewrite !join_snoc in E by discriminate.
    rewrite !app_assoc in E. cbn [app] in E.
    rewrite <- !app_assoc in E.
    assert (E' : join [124] (d1 :: l1) ++ 124 :: z1
                 = join [124] (d2 :: l2') ++ 124 :: z2) by exact E.
    apply sep_right in E' as [E1 E2]; auto.
    destruct (IH l2' d1 d2) as [Ed El]; auto; [lia|].
    now subst.
Qed.

Lemma digits_no_bar (s : jsstring) :
  forallb Size.isDigit s = true -> ~ In 124 s.
Proof.
  intros H I. rewrite forallb_forall in H. specialize (H _ I).
  unfold Size.isDigit in H. bools. lia.
Qed.

Lemma no_bar_app (a b : jsstring) :
  ~ In 124 a -> ~ In 124 b -> ~ In 124 (a ++ b).
Proof. intros Ha Hb I. apply in_app_or in I as [I|I]; auto. Qed.

Lemma decimal_no_bar (z : Z) : 0 <= z <= 1000 -> ~ In 124 (intToString 10 z).
Proof. intros Hz. apply digits_no_bar. now apply decimal_round_trip. Qed.

Lemma hexByte_no_bar (z : Z) : -15 <= z <= 255 -> ~ In 124 (hexByte z).
Proof.
  intros Hz I.
  assert (H : forallb (fun c => negb (c =? 124)) (hexByte z) = true).
  { apply (forallb_interval
             (fun z => forallb (fun c => negb (c =? 124)) (hexByte z))
             (-15) 271); [now vm_compute | lia]. }
  rewrite forallb_forall in H. specialize (H _ I).
  now rewrite Z.eqb_refl in H.
Qed.

Lemma color_no_bar (c : ColorValue.t) :
  validColor c -> ~ In 124 (ColorValue.toString c).
Proof.
  intros V. destruct (toHex_valid c V) as (r & g & b & _ & _ & _ & Hr & Hg & Hb & ->).
  intros [I|I]; [discriminate|].
  revert I. repeat apply no_bar_app; now apply hexByte_no_bar.
Qed.

Lemma literal_no_bar (s : jsstring) :
  forallb (fun c => negb (c =? 124)) s = true -> ~ In 124 s.
Proof.
  intros H I. rewrite forallb_forall in H. specialize (H _ I).
  now rewrite Z.eqb_refl in H.
Qed.

Lemma tail_components_no_bar (c : QRCodeConfiguration.t) :
  validConfiguration c ->
  Forall (fun s => ~ In 124 s) (tl (QRCodeConfiguration.components c)).
Proof.
  intros (_ & [Hw Hh] & Hfg & Hbg & Hm & Hq & Hcs & Hct).
  cbn [QRCodeConfiguration.components tl].
  repeat constructor.
  - unfold Size.toString. apply no_bar_app; [apply decimal_no_bar; lia|].
    apply no_bar_app; [now apply literal_no_bar|apply decimal_no_bar; lia].
  - apply literal_no_bar. now destruct (QRCodeConfiguration.format c).
  - apply literal_no_bar.
    now destruct (QRCodeConfiguration.errorCorrectionLevel c).
  - now apply color_no_bar.
  - now apply color_no_bar.
  - apply decimal_no_bar; lia.
  - apply decimal_no_bar; lia.
  - apply literal_no_bar.
    destruct (supported_charset _ Hcs) as [-> | ->]; reflexivity.
  - apply literal_no_bar.
    destruct (supported_charset _ Hct) as [-> | ->]; reflexivity.
Qed.

Lemma components_inj (c1 c2 : QRCodeConfiguration.t) :
  validConfiguration c1 -> validConfiguration c2 ->
  join (lit "|") (QRCodeConfiguration.components c1)
  = join (lit "|") (QRCodeConfiguration.components c2) ->
  c1 = c2.
Proof.
  intros V1 V2 E.
  pose proof (tail_components_no_bar c1 V1) as T1.
  pose proof (tail_components_no_bar c2 V2) as T2.
  change (lit "|") with [124] in E.
  cbn [QRCodeConfiguration.components tl] in *.
  apply join_inj in E as [Ed El]; auto.
  destruct V1 as (_ & S1 & Hfg1 & Hbg1 & Hm1 & Hq1 & _ & _).
  destruct V2 as (_ & S2 & Hfg2 & Hbg2 & Hm2 & Hq2 & _ & _).
  uncons.
  destruct c1 as [[d1] s1 f1 e1 fg1 bg1 m1 q1 cs1 ct1],
           c2 as [[d2] s2 f2 e2 fg2 bg2 m2 q2 cs2 ct2].
  cbn in *.
  f_equal; auto using Size_toString_inj, format_toString_inj, ecc_toString_inj,
    color_toString_inj.
  - now f_equal.
  - apply intToString_inj; auto; lia.
  - apply intToString_inj; auto; lia.
Qed.

(** ** Configurations built from requests *)

Section Built.
Context {P : Platform}.

Import ValidateParametersUseCase.

Ltac next_step x E :=
  match goal with
  | |- bind ?m _ = _ -> _ =>
      destruct m as [x|] eqn:E; cbn [bind];
      [|let Hx := fresh in intros Hx; discriminate Hx]
  end.

(** What [buildConfiguration] builds satisfies [validConfiguration] as soon
    as its payload is well-formed: the size comes from [Size.fromString] or
    is the default, the colours come from [ColorValue.create] or are black
    and white, and the constructor has checked the rest. *)
Lemma buildConfiguration_valid (request : QRCodeRequestDTO)
  (c : QRCodeConfiguration.t) (warnings : list jsstring) :
  GenerateQRCodeUseCase.buildConfiguration request = Ok (c, warnings) ->
  wellFormed (DataPayload.content (QRCodeConfiguration.data c)) = true ->
  validConfiguration c.
Proof.
  unfold GenerateQRCodeUseCase.buildConfiguration.
  destruct (DataPayload.create _) as [d|]; cbn [bind];
    [|intros Hx; discriminate Hx].
  next_step sz Hsz. next_step fm Hfm. next_step ec Hec. next_step fg Hfg.
  next_step bg Hbg. next_step lg Hlg.
  cbn [bind]. intros Hnew Hwf.
  assert (Hd : QRCodeConfiguration.data c = d).
  { revert Hnew. unfold QRCodeConfiguration.new.
    destruct (QRCodeConfiguration.validateMargin _); [|discriminate].
    destruct (QRCodeConfiguration.validateQuietZone _); [|discriminate].
    cbn [bind QRCodeConfiguration.p_data].
    destruct (QRCodeConfiguration.validateConfiguration _); [|discriminate].
    cbn [bind]. now intros [= <- _]. }
  apply (new_validConfiguration P _ c warnings Hnew);
    cbn [QRCodeConfiguration.p_data QRCodeConfiguration.p_size
         QRCodeConfiguration.p_foregroundColor
         QRCodeConfiguration.p_backgroundColor].
  - now rewrite <- Hd.
  - intros s [= <-]. destruct (present (size request)) as [s|].
    + now apply Size_fromString_ok in Hsz.
    + injection Hsz as <-. unfold sizeInRange. cbn. lia.
  - intros x [= <-]. destruct (present (color request)) as [s|].
    + now apply create_validColor in Hfg.
    + injection Hfg as <-. apply default_colors_valid.
  - intros x [= <-]. destruct (present (bgcolor request)) as [s|].
    + now apply create_validColor in Hbg.
    + injection Hbg as <-. apply default_colors_valid.
Qed.

End Built.

(** X1. Two configurations that [buildConfiguration] builds from requests,
    with payloads that are well-formed UTF-16, have the same hash key
    exactly when they are the same configuration: the cache key identifies
    the configuration, even when the payload contains the separator. *)
Theorem X1_hash_key_is_injective (P : Platform)
  (request1 request2 : ValidateParametersUseCase.QRCodeRequestDTO)
  (c1 c2 : QRCodeConfiguration.t) (warnings1 warnings2 : list jsstring) :
  GenerateQRCodeUseCase.buildConfiguration request1 = Ok (c1, warnings1) ->
  GenerateQRCodeUseCase.buildConfiguration request2 = Ok (c2, warnings2) ->
  wellFormed (DataPayload.content (QRCodeConfiguration.data c1)) = true ->
  wellFormed (DataPayload.content (QRCodeConfiguration.data c2)) = true ->
  QRCodeConfiguration.getHashKey c1 = QRCodeConfiguration.getHashKey c2
  <-> c1 = c2.
Proof.
  intros B1 B2 W1 W2.
  pose proof (buildConfiguration_valid _ _ _ B1 W1) as V1.
  pose proof (buildConfiguration_valid _ _ _ B2 W2) as V2.
  split.
  - intros E. apply components_inj; auto. now apply hashed_text_inj.
  - now intros ->.
Qed.

Lemma X1_hash_key_is_injective_witness :
  @GenerateQRCodeUseCase.buildConfiguration Sample.platform Sample.simpleRequest
  = Ok (Sample.configuration, [])
  /\ @GenerateQRCodeUseCase.buildConfiguration Sample.platform
       Sample.otherRequest
     = Ok (Sample.otherConfiguration, [])
  /\ (QRCodeConfiguration.getHashKey Sample.configuration
      = QRCodeConfiguration.getHashKey Sample.otherConfiguration
      <-> Sample.configuration = Sample.otherConfiguration).
Proof.
  split; [vm_compute; reflexivity|]. split; [vm_compute; reflexivity|].
  apply (X1_hash_key_is_injective Sample.platform Sample.simpleRequest
           Sample.otherRequest Sample.configuration Sample.otherConfiguration
           [] []);
    vm_compute; reflexivity.
Defined.

Lemma strictEq_eq (x y : number) : ColorValue.strictEq x y = true -> x = y.
Proof.
  destruct x as [a| |s], y as [b| |s']; simpl; try discriminate.
  - intros H. apply Z.eqb_eq in H. now subst.
  - intros H. apply Bool.eqb_prop in H. now subst.
Qed.

Lemma color_equals_eq (x y : ColorValue.t) :
  ColorValue.equals x y = true -> x = y.
Proof.
  unfold ColorValue.equals. intros H. bools.
  destruct x, y; simpl in *. f_equal; now apply strictEq_eq.
Qed.

Lemma color_equals_refl (x : ColorValue.t) :
  validColor x -> ColorValue.equals x x = true.
Proof.
  destruct x as [xr xg xb].
  intros ((r & Hr & _) & (g & Hg & _) & (b & Hb & _)). simpl in *. subst.
  unfold ColorValue.equals; simpl.
  now rewrite !Z.eqb_refl.
Qed.

Lemma configuration_equals_eq (c1 c2 : QRCodeConfiguration.t) :
  QRCodeConfiguration.equals c1 c2 = true -> c1 = c2.
Proof.
  unfold QRCodeConfiguration.equals, DataPayload.equals, Size.equals,
    OutputFormatValue.equals, ErrorCorrectionLevelValue.equals.
  intros H.
  repeat match goal with
         | H : (_ && _) = true |- _ => apply andb_prop in H as [H ?]
         end.
  repeat match goal with
         | H : streq _ _ = true |- _ => apply streq_eq in H
         | H : (_ =? _) = true |- _ => apply Z.eqb_eq in H
         | H : ColorValue.equals _ _ = true |- _ => apply color_equals_eq in H
         end.
  destruct c1 as [[d1] [w1 h1] f1 e1 fg1 bg1 m1 q1 cs1 ct1],
           c2 as [[d2] [w2 h2] f2 e2 fg2 bg2 m2 q2 cs2 ct2].
  simpl in *.
  repeat match goal with
         | H : OutputFormatValue.toString _ = _ |- _ =>
             apply format_toString_inj in H
         | H : ErrorCorrectionLevelValue.toString _ = _ |- _ =>
             apply ecc_toString_inj in H
         end.
  now subst.
Qed.

Lemma configuration_equals_refl (c : QRCodeConfiguration.t) :
  validConfiguration c -> QRCodeConfiguration.equals c c = true.
Proof.
  intros (_ & _ & Hfg & Hbg & _).
  unfold QRCodeConfiguration.equals, DataPayload.equals, Size.equals,
    OutputFormatValue.equals, ErrorCorrectionLevelValue.equals.
  now rewrite !streq_refl, !Z.eqb_refl, !color_equals_refl.
Qed.

(** [fromRGB] admits a channel that is [NaN], and a colour with such a
    channel is not [equals] to itself: the next statement is about the
    colours that [ColorValue.create] reads and the two defaults. *)
Lemma nan_colour_differs_from_itself :
  ColorValue.fromRGB NaN (Int 0) (Int 0)
  = Ok (ColorValue.mkRGB NaN (Int 0) (Int 0))
  /\ ColorValue.equals (ColorValue.mkRGB NaN (Int 0) (Int 0))
       (ColorValue.mkRGB NaN (Int 0) (Int 0))
     = false.
Proof. split; reflexivity. Qed.

(** X2. On configurations that [buildConfiguration] builds from requests,
    with payloads that are well-formed UTF-16, [equals] holds exactly when
    the hash keys are the same: a cache entry is found for such a
    configuration exactly when it was stored for an equal one. *)
Theorem X2_equals_agrees_with_the_hash_key (P : Platform)
  (request1 request2 : ValidateParametersUseCase.QRCodeRequestDTO)
  (c1 c2 : QRCodeConfiguration.t) (warnings1 warnings2 : list jsstring) :
  GenerateQRCodeUseCase.buildConfiguration request1 = Ok (c1, warnings1) ->
  GenerateQRCodeUseCase.buildConfiguration request2 = Ok (c2, warnings2) ->
  wellFormed (DataPayload.content (QRCodeConfiguration.data c1)) = true ->
  wellFormed (DataPayload.content (QRCodeConfiguration.data c2)) = true ->
  QRCodeConfiguration.equals c1 c2 = true
  <-> QRCodeConfiguration.getHashKey c1 = QRCodeConfiguration.getHashKey c2.
Proof.
  intros B1 B2 W1 W2.
  pose proof (buildConfiguration_valid _ _ _ B1 W1) as V1.
  pose proof (buildConfiguration_valid _ _ _ B2 W2) as V2.
  split.
  - intros E. apply configuration_equals_eq in E. now subst.
  - intros E. apply hashed_text_inj in E; auto.
    apply components_inj in E; auto. subst.
    now apply configuration_equals_refl.
Qed.

Lemma X2_equals_agrees_with_the_hash_key_witness :
  @GenerateQRCodeUseCase.buildConfiguration Sample.platform Sample.simpleRequest
  = Ok (Sample.configuration, [])
  /\ @GenerateQRCodeUseCase.buildConfiguration Sample.platform
       Sample.otherRequest
     = Ok (Sample.otherConfiguration, [])
  /\ (QRCodeConfiguration.equals Sample.configuration
        Sample.otherConfiguration = true
      <-> QRCodeConfiguration.getHashKey Sample.configuration
          = QRCodeConfiguration.getHashKey Sample.otherConfiguration).
Proof.
  split; [vm_compute; reflexivity|]. split; [vm_compute; reflexivity|].
  apply (X2_equals_agrees_with_the_hash_key Sample.platform
           Sample.simpleRequest Sample.otherRequest Sample.configuration
           Sample.otherConfiguration [] []);
    vm_compute; reflexivity.
Defined.

(* ------------------------------------------------------------------ *)
(** ** Colours and their two texts *)

Lemma split_app (c : Z) (a r : jsstring) :
  ~ In c a -> split c (a ++ c :: r) = a :: split c r.
Proof.
  induction a as [|x a IH]; intros Ha; cbn [app split].
  - now rewrite Z.eqb_refl.
  - destruct (Z.eqb_spec x c) as [->|_]; [exfalso; apply Ha; now left|].
    rewrite IH; [reflexivity|]. intro; apply Ha; now right.
Qed.

Lemma split_none (c : Z) (a : jsstring) : ~ In c a -> split c a = [a].
Proof.
  induction a as [|x a IH]; intros Ha; cbn [split].
  - reflexivity.
  - destruct (Z.eqb_spec x c) as [->|_]; [exfalso; apply Ha; now left|].
    rewrite IH; [reflexivity|]. intro; apply Ha; now right.
Qed.

Lemma digits_without (c : Z) (s : jsstring) :
  Size.isDigit c = false -> forallb Size.isDigit s = true -> ~ In c s.
Proof.
  intros Hc H I. rewrite forallb_forall in H. specialize (H _ I). congruence.
Qed.

Lemma toHex_bytes (r g b : Z) :
  ColorValue.toHex (ColorValue.mkRGB (Int r) (Int g) (Int b))
  = 35 :: hexByte r ++ hexByte g ++ hexByte b.
Proof. reflexivity. Qed.

Lemma create_of_toHex (r g b : Z) :
  -15 <= r <= 255 -> -15 <= g <= 255 -> -15 <= b <= 255 ->
  ColorValue.create (ColorValue.toHex (ColorValue.mkRGB (Int r) (Int g) (Int b)))
  = Ok (ColorValue.mkRGB (Int r) (Int g) (Int b)).
Proof.
  intros Hr Hg Hb. rewrite toHex_bytes.
  destruct (hexByte_facts r Hr) as ((r1 & r2 & Er) & Pr & _).
  destruct (hexByte_facts g Hg) as ((g1 & g2 & Eg) & Pg & _).
  destruct (hexByte_facts b Hb) as ((b1 & b2 & Eb) & Pb & _).
  rewrite Er, Eg, Eb in *. cbn [app].
  unfold ColorValue.create, ColorValue.parseColor.
  change (startsWith (35 :: [r1; r2; g1; g2; b1; b2]) (lit "#"))
    with ((35 =? 35) && true).
  cbn [Z.eqb Pos.eqb andb].
  unfold ColorValue.parseHexColor.
  change (removeFirst 35 [35; r1; r2; g1; g2; b1; b2])
    with (if 35 =? 35 then [r1; r2; g1; g2; b1; b2]
          else 35 :: removeFirst 35 [r1; r2; g1; g2; b1; b2]).
  cbn [Z.eqb Pos.eqb].
  now rewrite Pr, Pg, Pb.
Qed.

Lemma create_of_toRGBString (r g b : Z) :
  0 <= r <= 255 -> 0 <= g <= 255 -> 0 <= b <= 255 ->
  ColorValue.create
    (ColorValue.toRGBString (ColorValue.mkRGB (Int r) (Int g) (Int b)))
  = Ok (ColorValue.mkRGB (Int r) (Int g) (Int b)).
Proof.
  intros Hr Hg Hb.
  destruct (decimal_round_trip r ltac:(lia)) as (Pr & Dr & Nr).
  destruct (decimal_round_trip g ltac:(lia)) as (Pg & Dg & Ng).
  destruct (decimal_round_trip b ltac:(lia)) as (Pb & Db & Nb).
  unfold ColorValue.toRGBString. cbn [ColorValue.r ColorValue.g ColorValue.b
    numberToString].
  change (lit "-") with [45]. cbn [app].
  remember (intToString 10 r) as dr eqn:Edr.
  remember (intToString 10 g) as dg eqn:Edg.
  remember (intToString 10 b) as db eqn:Edb. clear Edr Edg Edb.
  assert (Mr : ~ In 45 dr) by now apply digits_without.
  assert (Mg : ~ In 45 dg) by now apply digits_without.
  assert (Mb : ~ In 45 db) by now apply digits_without.
  unfold ColorValue.create, ColorValue.parseColor.
  assert (S0 : startsWith (dr ++ 45 :: dg ++ 45 :: db) (lit "#") = false).
  { destruct dr as [|x dr']; [contradiction|]. cbn [forallb] in Dr.
    apply andb_prop in Dr as [Dx _]. unfold Size.isDigit in Dx. bools.
    change (lit "#") with [35]. cbn [app startsWith].
    apply andb_false_iff; left. apply Z.eqb_neq. lia. }
  rewrite S0.
  assert (I : includesChar (dr ++ 45 :: dg ++ 45 :: db) 45 = true).
  { unfold includesChar. rewrite existsb_app. cbn [existsb].
    rewrite Z.eqb_refl. now rewrite orb_true_r. }
  rewrite I.
  unfold ColorValue.parseRGBString.
  rewrite split_app, split_app, split_none by assumption.
  rewrite Pr, Pg, Pb. cbn [isNaN orb].
  unfold ColorValue.validateRGBComponent, ltZ, gtZ.
  repeat match goal with
         | |- context [?a <? ?b] =>
             let E := fresh in
             destruct (Z.ltb_spec a b) as [E|E]; [lia|clear E]
         end.
  reflexivity.
Qed.

(** X3. A colour with channels from 0 to 255 is read back from both of
    its texts: [create] returns it for the hexadecimal text of [toHex] and
    for the decimal text of [toRGBString], and [fromRGB] accepts its
    channels. *)
Theorem X3_color_texts_round_trip (r g b : Z) :
  0 <= r <= 255 -> 0 <= g <= 255 -> 0 <= b <= 255 ->
  let c := ColorValue.mkRGB (Int r) (Int g) (Int b) in
  ColorValue.create (ColorValue.toHex c) = Ok c
  /\ ColorValue.create (ColorValue.toRGBString c) = Ok c
  /\ ColorValue.fromRGB (Int r) (Int g) (Int b) = Ok c.
Proof.
  intros Hr Hg Hb c. subst c. split; [|split].
  - apply create_of_toHex; lia.
  - now apply create_of_toRGBString.
  - unfold ColorValue.fromRGB, ColorValue.validateRGBComponent, ltZ, gtZ.
    repeat match goal with
           | |- context [?a <? ?b] =>
               let E := fresh in
               destruct (Z.ltb_spec a b) as [E|E]; [lia|clear E]
           end.
    reflexivity.
Qed.

Lemma X3_color_texts_round_trip_witness :
  ColorValue.create (lit "#0066ff")
  = Ok (ColorValue.mkRGB (Int 0) (Int 102) (Int 255))
  /\ ColorValue.create (lit "0-102-255")
     = Ok (ColorValue.mkRGB (Int 0) (Int 102) (Int 255))
  /\ ColorValue.fromRGB (Int 0) (Int 102) (Int 255)
     = Ok (ColorValue.mkRGB (Int 0) (Int 102) (Int 255)).
Proof.
  apply (X3_color_texts_round_trip 0 102 255); lia.
Defined.

Lemma hex_pair_nonneg (a b : Z) :
  ColorValue.isHexDigit a = true -> ColorValue.isHexDigit b = true ->
  exists z, parseInt [a; b] 16 = Int z /\ 0 <= z <= 255.
Proof.
  intros Ha Hb.
  assert (Ra : 48 <= a < 48 + Z.of_nat 55)
    by (unfold ColorValue.isHexDigit in Ha;
        repeat (apply orb_prop in Ha as [Ha|Ha]); bools; lia).
  assert (Rb : 48 <= b < 48 + Z.of_nat 55)
    by (unfold ColorValue.isHexDigit in Hb;
        repeat (apply orb_prop in Hb as [Hb|Hb]); bools; lia).
  pose (ok := fun a b : Z =>
          negb (ColorValue.isHexDigit a && ColorValue.isHexDigit b)
          || match parseInt [a; b] 16 with
             | Int z => (0 <=? z) && (z <=? 255)
             | _ => false
             end).
  assert (H : ok a b = true).
  { apply (forallb_interval (fun b => ok a b) 48 55); [|exact Rb].
    apply (forallb_interval
             (fun a => forallb (fun k => ok a (48 + Z.of_nat k)) (seq 0 55))
             48 55); [now vm_compute | exact Ra]. }
  unfold ok in H. rewrite Ha, Hb in H. cbn [andb negb orb] in H.
  destruct (parseInt [a; b] 16) as [z| |]; try discriminate.
  exists z. split; [reflexivity|]. bools. lia.
Qed.

Lemma validateRGBComponent_range (n : number) (ch : Channel) :
  isNaN n = false -> ColorValue.validateRGBComponent n ch = Ok tt ->
  exists z, n = Int z /\ 0 <= z <= 255.
Proof.
  unfold ColorValue.validateRGBComponent.
  destruct n as [z| |[|]]; simpl; try discriminate.
  intros _. destruct (z <? 0) eqn:E1; [discriminate|].
  destruct (255 <? z) eqn:E2; [discriminate|]. bools.
  intros _. exists z. split; [reflexivity|lia].
Qed.

(** X4. A colour that [create] returns has three integer channels, none
    above 255 and none below -15; when the input does not start with [#]
    no channel is negative.  (After [#] a sign is read with the digit that
    follows it.) *)
Theorem X4_created_color_channels (input : jsstring) (c : ColorValue.t) :
  ColorValue.create input = Ok c ->
  exists r g b : Z,
    c = ColorValue.mkRGB (Int r) (Int g) (Int b)
    /\ -15 <= r <= 255 /\ -15 <= g <= 255 /\ -15 <= b <= 255
    /\ (startsWith input (lit "#") = false ->
        0 <= r /\ 0 <= g /\ 0 <= b).
Proof.
  intros H.
  destruct (create_validColor input c H)
    as ((r & Hr & Rr) & (g & Hg & Rg) & (b & Hb & Rb)).
  destruct c as [cr cg cb]. simpl in Hr, Hg, Hb. subst.
  exists r, g, b. repeat split; try lia; revert H;
    unfold ColorValue.create, ColorValue.parseColor; rewrite H0;
    (destruct (includesChar input 45);
     [ unfold ColorValue.parseRGBString;
       destruct (split 45 input) as [|p0 [|p1 [|p2 [|? ?]]]]; try discriminate;
       destruct (isNaN (parseInt p0 10)) eqn:N0; [discriminate|];
       destruct (isNaN (parseInt p1 10)) eqn:N1; [discriminate|];
       destruct (isNaN (parseInt p2 10)) eqn:N2; [discriminate|]; simpl orb;
       destruct (ColorValue.validateRGBComponent (parseInt p0 10) Red) as [[]|]
         eqn:V0; [|discriminate];
       destruct (ColorValue.validateRGBComponent (parseInt p1 10) Green)
         as [[]|] eqn:V1; [|discriminate];
       destruct (ColorValue.validateRGBComponent (parseInt p2 10) Blue)
         as [[]|] eqn:V2; [|discriminate];
       simpl; intros [= E0 E1 E2];
       destruct (validateRGBComponent_range _ _ N0 V0) as (z0 & Z0 & ?);
       destruct (validateRGBComponent_range _ _ N1 V1) as (z1 & Z1 & ?);
       destruct (validateRGBComponent_range _ _ N2 V2) as (z2 & Z2 & ?);
       congruence || (rewrite Z0 in E0; rewrite Z1 in E1; rewrite Z2 in E2;
                      injection E0; injection E1; injection E2; lia)
     | destruct (ColorValue.isBareHex input) eqn:B; [|discriminate];
       unfold ColorValue.isBareHex in B; apply andb_prop in B as [_ B];
       unfold ColorValue.parseHexColor;
       change (removeFirst 35 (35 :: input)) with input;
       destruct input as [|c0 [|c1 [|c2 [|c3 [|c4 [|c5 [|? ?]]]]]]];
       try discriminate; cbn [forallb] in B; bools;
       match goal with
       | |- context [parseInt [?x; ?y] 16] =>
           destruct (hex_pair_nonneg x y) as (v0 & P0 & ?); [assumption..|];
           rewrite P0
       end;
       match goal with
       | |- context [parseInt [?x; ?y] 16] =>
           destruct (hex_pair_nonneg x y) as (v1 & P1 & ?); [assumption..|];
           rewrite P1
       end;
       match goal with
       | |- context [parseInt [?x; ?y] 16] =>
           destruct (hex_pair_nonneg x y) as (v2 & P2 & ?); [assumption..|];
           rewrite P2
       end;
       simpl; intros [= -> -> ->]; lia ]).
Qed.

Lemma X4_created_color_channels_witness :
  exists r g b : Z,
    ColorValue.mkRGB (Int (-1)) (Int (-2)) (Int (-3))
    = ColorValue.mkRGB (Int r) (Int g) (Int b)
    /\ -15 <= r <= 255 /\ -15 <= g <= 255 /\ -15 <= b <= 255
    /\ (startsWith (lit "#-1-2-3") (lit "#") = false ->
        0 <= r /\ 0 <= g /\ 0 <= b).
Proof.
  apply (X4_created_color_channels (lit "#-1-2-3")). reflexivity.
Defined.

(* ------------------------------------------------------------------ *)
(** ** What a created payload and a created logo satisfy *)

Lemma trimStart_split (s : jsstring) :
  exists p, s = p ++ trimStart s /\ forallb isWhiteSpace p = true.
Proof.
  induction s as [|c s (p & E & W)]; [now exists []|].
  cbn [trimStart]. destruct (isWhiteSpace c) eqn:Wc.
  - exists (c :: p). split; [cbn [app]; now f_equal|]. cbn [forallb].
    now rewrite Wc.
  - now exists [].
Qed.

Lemma trimStart_head (s : jsstring) (c : Z) (r : jsstring) :
  trimStart s = c :: r -> isWhiteSpace c = false.
Proof.
  induction s as [|x s IH]; [discriminate|]. cbn [trimStart].
  destruct (isWhiteSpace x) eqn:Wx; [exact IH|]. now intros [= <- _].
Qed.

Lemma trimStart_fixed (s : jsstring) :
  match s with c :: _ => isWhiteSpace c = false | [] => True end ->
  trimStart s = s.
Proof. destruct s as [|c s]; [reflexivity|]. cbn [trimStart]. now intros ->. Qed.

Lemma trimStart_idempotent (s : jsstring) : trimStart (trimStart s) = trimStart s.
Proof.
  apply trimStart_fixed. destruct (trimStart s) as [|c r] eqn:E; [exact I|].
  now apply trimStart_head in E.
Qed.

Lemma trimEnd_prefix (s : jsstring) : exists p, s = trimEnd s ++ p.
Proof.
  unfold trimEnd. destruct (trimStart_split (rev s)) as (p & E & _).
  exists (rev p). rewrite <- rev_app_distr, <- E. now rewrite rev_involutive.
Qed.

Lemma trim_idempotent (s : jsstring) : trim (trim s) = trim s.
Proof.
  unfold trim. set (t := trimStart s).
  assert (Hstart : trimStart (trimEnd t) = trimEnd t).
  { apply trimStart_fixed. destruct (trimEnd t) as [|c r] eqn:E; [exact I|].
    destruct (trimEnd_prefix t) as (p & Ep). rewrite E in Ep.
    apply (trimStart_head s c (r ++ p)). exact Ep. }
  rewrite Hstart. unfold trimEnd at 1. unfold trimEnd.
  now rewrite rev_involutive, trimStart_idempotent.
Qed.

Lemma trim_length (s : jsstring) : JS.length (trim s) <= JS.length s.
Proof.
  unfold trim, trimEnd, JS.length. rewrite length_rev.
  pose proof (trimStart_length (rev (trimStart s))) as L1.
  pose proof (trimStart_length s) as L2. rewrite length_rev in L1. lia.
Qed.

(** X5. The content of a created payload is the trimmed input: it is not
    empty, has at most 900 code units, and trimming it again changes
    nothing; an input with a URL scheme was accepted by the URL parser. *)
Theorem X5_created_payload_is_trimmed (P : Platform) (data : jsstring)
  (d : DataPayload.t) :
  DataPayload.create data = Ok d ->
  DataPayload.getContent d = trim data
  /\ DataPayload.getContent d <> []
  /\ 1 <= DataPayload.getLength d <= 900
  /\ trim (DataPayload.getContent d) = DataPayload.getContent d
  /\ (DataPayload.isUrlString data = true -> newURL data <> None).
Proof.
  unfold DataPayload.create.
  destruct (streq data [] || (JS.length (trim data) =? 0)) eqn:E;
    [discriminate|].
  apply orb_false_iff in E as [_ E].
  destruct (JS.length data >? 900) eqn:L; [discriminate|].
  rewrite Z.gtb_ltb in L. apply Z.ltb_ge in L.
  assert (N : trim data <> []).
  { intros T. rewrite T in E. discriminate. }
  assert (Q : DataPayload.mk (trim data) = d ->
              DataPayload.getContent d = trim data
              /\ DataPayload.getContent d <> []
              /\ 1 <= DataPayload.getLength d <= 900
              /\ trim (DataPayload.getContent d) = DataPayload.getContent d).
  { intros <-. unfold DataPayload.getContent, DataPayload.getLength.
    cbn [DataPayload.content]. repeat split; auto.
    - apply Z.eqb_neq in E. unfold JS.length in *. lia.
    - pose proof (trim_length data). lia.
    - apply trim_idempotent. }
  destruct (DataPayload.isUrlString data).
  - destruct (newURL data) eqn:U; [|discriminate].
    intros [= D]. destruct (Q D) as (Q1 & Q2 & Q3 & Q4).
    repeat split; auto; try apply Q3. discriminate.
  - intros [= D]. destruct (Q D) as (Q1 & Q2 & Q3 & Q4).
    repeat split; auto; try apply Q3. discriminate.
Qed.

Lemma X5_created_payload_is_trimmed_witness :
  DataPayload.getContent (DataPayload.mk (lit "https://example.com"))
  = trim (lit "  https://example.com ")
  /\ DataPayload.getContent (DataPayload.mk (lit "https://example.com")) <> []
  /\ 1 <= DataPayload.getLength (DataPayload.mk (lit "https://example.com"))
     <= 900
  /\ trim (DataPayload.getContent (DataPayload.mk (lit "https://example.com")))
     = DataPayload.getContent (DataPayload.mk (lit "https://example.com"))
  /\ (DataPayload.isUrlString (lit "  https://example.com ") = true ->
      @newURL Sample.platform (lit "  https://example.com ") <> None).
Proof.
  apply (X5_created_payload_is_trimmed Sample.platform
           (lit "  https://example.com ")).
  reflexivity.
Defined.

Lemma predefined_has_url (P : Platform) (key : jsstring) :
  includes Logo.predefinedLogos key = true ->
  exists url, Logo.lookupLogo key = Some url /\ url <> [].
Proof.
  unfold includes. intros H. apply existsb_exists in H as (x & I & E).
  apply streq_eq in E. subst x.
  unfold Logo.predefinedLogos in I. cbn [In] in I.
  repeat (destruct I as [<-|I];
          [eexists; split; [reflexivity|discriminate]|]).
  contradiction.
Qed.

(** X6. A created logo keeps the trimmed source, a size from 10 to 200
    and a margin from 0 to 50 (50 and 5 when they are not given); its
    source is a URL whose host passed the private-host filter and whose
    path has a supported extension, or one of the predefined names; and
    [getEffectiveUrl] returns a non-empty URL for it instead of
    throwing. *)
Theorem X6_created_logo (P : Platform) (source : jsstring)
  (size margin : option number) (l : Logo.t) :
  Logo.create source size margin = Ok l ->
  Logo.source l = trim source
  /\ 10 <= Logo.size l <= 200 /\ 0 <= Logo.margin l <= 50
  /\ (size = None -> Logo.size l = 50) /\ (margin = None -> Logo.margin l = 5)
  /\ (if Logo.isUrl (Logo.source l)
      then exists url,
          newURL (Logo.source l) = Some url
          /\ Logo.isPrivateHost (hostname url) = false
          /\ existsb (endsWith (toLowerCase (pathname url)))
               Logo.supportedExtensions = true
      else Logo.isPredefinedLogo (Logo.source l) = true)
  /\ exists url,
      Logo.getEffectiveUrl l = Ok url /\ url <> []
      /\ (Logo.isUrl (Logo.source l) = true -> url = Logo.source l).
Proof.
  unfold Logo.create.
  destruct (Logo.validateSource source) as [src|] eqn:Vs; [|discriminate].
  cbn [bind].
  destruct (Logo.validateSize _) as [sz|] eqn:Vz; [|discriminate].
  cbn [bind].
  destruct (Logo.validateMargin _) as [mg|] eqn:Vm; [|discriminate].
  cbn [bind]. intros [= <-]. cbn [Logo.source Logo.size Logo.margin].
  (* the source *)
  unfold Logo.validateSource in Vs.
  destruct (streq source [] || (JS.length (trim source) =? 0)) eqn:E;
    [discriminate|].
  apply orb_false_iff in E as [_ E].
  assert (N : trim source <> []).
  { intros T. rewrite T in E. discriminate. }
  assert (Hsrc : src = trim source
                 /\ if Logo.isUrl (trim source)
                    then Logo.validateUrl (trim source) = Ok tt
                    else Logo.isPredefinedLogo (trim source) = true).
  { destruct (Logo.isUrl (trim source)).
    - destruct (Logo.validateUrl (trim source)) as [[]|]; [|discriminate].
      injection Vs as <-. now split.
    - destruct (Logo.isPredefinedLogo (trim source)); [|discriminate].
      injection Vs as <-. now split. }
  destruct Hsrc as [-> Hsrc]. clear Vs.
  (* size and margin *)
  assert (Hsz : 10 <= sz <= 200 /\ (size = None -> sz = 50)).
  { unfold Logo.validateSize in Vz.
    destruct (match size with
              | Some n => if truthy n then n else Int 50
              | None => Int 50
              end) as [z| |] eqn:Ez; try discriminate.
    destruct ((z <? 10) || (z >? 200)) eqn:R; [discriminate|].
    injection Vz as <-. apply orb_false_iff in R as [R1 R2].
    rewrite Z.gtb_ltb in R2. bools. split; [lia|].
    intros ->. now injection Ez as <-. }
  assert (Hmg : 0 <= mg <= 50 /\ (margin = None -> mg = 5)).
  { unfold Logo.validateMargin in Vm.
    destruct (match margin with Some n => n | None => Int 5 end)
      as [z| |] eqn:Ez; try discriminate.
    destruct ((z <? 0) || (z >? 50)) eqn:R; [discriminate|].
    injection Vm as <-. apply orb_false_iff in R as [R1 R2].
    rewrite Z.gtb_ltb in R2. bools. split; [lia|].
    intros ->. now injection Ez as <-. }
  destruct Hsz as [Hsz Dsz], Hmg as [Hmg Dmg].
  split; [reflexivity|]. split; [exact Hsz|]. split; [exact Hmg|].
  split; [exact Dsz|]. split; [exact Dmg|].
  unfold Logo.getEffectiveUrl, Logo.getPredefinedLogoUrl.
  cbn [Logo.source].
  destruct (Logo.isUrl (trim source)) eqn:U.
  - split.
    + unfold Logo.validateUrl in Hsrc.
      destruct (newURL (trim source)) as [url|]; [|discriminate].
      exists url. split; [reflexivity|].
      destruct (Logo.isPrivateHost (hostname url)); [discriminate|].
      split; [reflexivity|].
      destruct (existsb _ Logo.supportedExtensions); [reflexivity|discriminate].
    + exists (trim source). now repeat split.
  - split; [exact Hsrc|].
    rewrite Hsrc. cbn [negb].
    destruct (predefined_has_url P (toLowerCase (trim source)) Hsrc)
      as (url & -> & Nurl).
    exists url. repeat split; auto. discriminate.
Qed.

Lemma X6_created_logo_witness :
  @Logo.create Sample.platform (lit " GitHub ") None None
  = Ok (Logo.mk (lit "GitHub") 50 5)
  /\ exists url,
      @Logo.getEffectiveUrl Sample.platform (Logo.mk (lit "GitHub") 50 5)
      = Ok url
      /\ url <> [].
Proof.
  split; [reflexivity|].
  destruct (X6_created_logo Sample.platform (lit " GitHub ") None None
              (Logo.mk (lit "GitHub") 50 5) eq_refl)
    as (_ & _ & _ & _ & _ & _ & url & E & N & _).
  now exists url.
Defined.

(* ------------------------------------------------------------------ *)
(** ** Formats, levels and combined validation results *)

(** X7. [OutputFormatValue.create] returns the format whose name is the
    lower-cased input and throws when there is none;
    [ErrorCorrectionLevelValue.create] does the same with the upper-cased
    input; and every format is a bitmap format or a vector format, never
    both. *)
Theorem X7_formats_and_levels_are_canonical (P : Platform) (s : jsstring) :
  (forall f, OutputFormatValue.create s = Ok f
             <-> OutputFormatValue.toString f = toLowerCase s)
  /\ ((forall f, OutputFormatValue.toString f <> toLowerCase s) ->
      OutputFormatValue.create s = Throw (FormatInvalid s))
  /\ (forall e, ErrorCorrectionLevelValue.create s = Ok e
                <-> ErrorCorrectionLevelValue.toString e = toUpperCase s)
  /\ ((forall e, ErrorCorrectionLevelValue.toString e <> toUpperCase s) ->
      ErrorCorrectionLevelValue.create s = Throw (EccInvalid s))
  /\ (forall f, OutputFormatValue.isBitmapFormat f
                = negb (OutputFormatValue.isVectorFormat f)).
Proof.
  repeat split.
  - unfold OutputFormatValue.create.
    destruct (find _ OutputFormatValue.values) as [f'|] eqn:F; [|discriminate].
    intros [= <-]. apply find_some in F as [_ F]. now apply streq_eq in F.
  - unfold OutputFormatValue.create. intros <-. now destruct f.
  - intros N. unfold OutputFormatValue.create.
    destruct (find _ OutputFormatValue.values) as [f'|] eqn:F; [|reflexivity].
    apply find_some in F as [_ F]. apply streq_eq in F. now destruct (N f').
  - unfold ErrorCorrectionLevelValue.create.
    destruct (find _ ErrorCorrectionLevelValue.values) as [e'|] eqn:F;
      [|discriminate].
    intros [= <-]. apply find_some in F as [_ F]. now apply streq_eq in F.
  - unfold ErrorCorrectionLevelValue.create. intros <-. now destruct e.
  - intros N. unfold ErrorCorrectionLevelValue.create.
    destruct (find _ ErrorCorrectionLevelValue.values) as [e'|] eqn:F;
      [|reflexivity].
    apply find_some in F as [_ F]. apply streq_eq in F. now destruct (N e').
  - now intros [].
Qed.

Lemma X7_formats_and_levels_are_canonical_witness :
  @OutputFormatValue.create Sample.platform (lit "JpEg")
  = Ok OutputFormatValue.JPEG
  /\ @OutputFormatValue.create Sample.platform (lit "bmp")
     = Throw (FormatInvalid (lit "bmp"))
  /\ @ErrorCorrectionLevelValue.create Sample.platform (lit "q")
     = Ok ErrorCorrectionLevelValue.QUARTILE.
Proof.
  destruct (X7_formats_and_levels_are_canonical Sample.platform (lit "JpEg"))
    as (F & _).
  destruct (X7_formats_and_levels_are_canonical Sample.platform (lit "bmp"))
    as (_ & T & _).
  destruct (X7_formats_and_levels_are_canonical Sample.platform (lit "q"))
    as (_ & _ & E & _).
  split; [|split].
  - apply F. reflexivity.
  - apply T. now intros [].
  - apply E. reflexivity.
Defined.

Section Combine.
Context {P : Platform}.
Import ValidationResult.

Lemma combine_loop (results : list ValidationResult.t) :
  forall (hasError : bool) (allErrors : list ValidationError),
    fold_left
      (fun (acc : bool * list ValidationError) (result : ValidationResult.t) =>
         if negb (isValid result) then (true, snd acc ++ errors result)
         else acc)
      results (hasError, allErrors)
    = (hasError || existsb notValid results,
       allErrors ++ failingErrors results).
Proof.
  induction results as [|r rs IH]; intros hasError allErrors; cbn [fold_left].
  - unfold failingErrors. cbn. now rewrite orb_false_r, app_nil_r.
  - destruct (isValid r) eqn:V; cbn [negb snd]; rewrite IH;
      unfold failingErrors; cbn [existsb filter];
      change (notValid r) with (negb (isValid r)); rewrite V; cbn [negb orb].
    + reflexivity.
    + cbn [flat_map]. unfold getErrors at 1.
      now rewrite orb_true_r, <- app_assoc.
Qed.

Lemma combineAll_spec (results : list ValidationResult.t) :
  combineAll results
  = if existsb notValid results then failure (failingErrors results)
    else success.
Proof. unfold combineAll. now rewrite combine_loop. Qed.

Lemma existsb_notValid (results : list ValidationResult.t) :
  existsb notValid results = negb (forallb isValid results).
Proof.
  induction results as [|r rs IH]; [reflexivity|]. cbn [existsb forallb].
  rewrite IH. unfold notValid. now destruct (isValid r).
Qed.

Lemma failingErrors_when_valid (results : list ValidationResult.t) :
  forallb isValid results = true -> failingErrors results = [].
Proof.
  induction results as [|r rs IH]; [reflexivity|]. cbn [forallb].
  intros H. apply andb_prop in H as [Hr Hrs].
  unfold failingErrors in *. cbn [filter]. unfold notValid at 1.
  rewrite Hr. cbn [negb]. now apply IH.
Qed.

Lemma combine_fold (results : list ValidationResult.t) :
  Forall (fun r => isValid r = true -> getErrors r = []) results ->
  forall acc : ValidationResult.t,
    (isValid acc = true -> getErrors acc = []) ->
    fold_left combine results acc
    = if isValid acc && forallb isValid results then success
      else failure (getErrors acc ++ failingErrors results).
Proof.
  induction 1 as [|r rs Hr _ IH]; intros acc Hacc; cbn [fold_left forallb].
  - rewrite andb_true_r. unfold failingErrors. cbn. rewrite app_nil_r.
    destruct acc as [[|] e]; cbn in *; [now rewrite Hacc|reflexivity].
  - rewrite IH.
    + unfold combine, isValid, getErrors in *.
      unfold failingErrors. cbn [filter]. unfold notValid at 2.
      unfold isValid.
      destruct (isValidFlag acc) eqn:Va, (isValidFlag r) eqn:Vr;
        cbn [andb negb isValidFlag errors success failure flat_map].
      * now rewrite Hacc.
      * unfold getErrors. now rewrite <- app_assoc.
      * rewrite Hr by reflexivity. now rewrite app_nil_r.
      * unfold getErrors. now rewrite <- app_assoc.
    + unfold combine, isValid, getErrors in *.
      destruct (isValidFlag acc && isValidFlag r); cbn; [reflexivity|].
      discriminate.
Qed.

End Combine.

(** X8. The static [combine] of a list of results is valid exactly when
    every result is, and carries the errors of the failing results in
    order; it is what the validation use case returns for the list of its
    field checks, and what folding the method [combine] over the list
    gives when valid results carry no error. *)
Theorem X8_combined_results (P : Platform)
  (results : list ValidationResult.t)
  (request : ValidateParametersUseCase.QRCodeRequestDTO) :
  ValidationResult.isValid (ValidationResult.combineAll results)
  = forallb ValidationResult.isValid results
  /\ ValidationResult.getErrors (ValidationResult.combineAll results)
     = failingErrors results
  /\ ValidateParametersUseCase.execute request
     = ValidationResult.combineAll (fieldChecks request)
  /\ (Forall (fun r => ValidationResult.isValid r = true ->
                       ValidationResult.getErrors r = []) results ->
      fold_left ValidationResult.combine results ValidationResult.success
      = ValidationResult.combineAll results).
Proof.
  rewrite !combineAll_spec, !existsb_notValid.
  split; [|split; [|split]].
  - now destruct (forallb ValidationResult.isValid results).
  - destruct (forallb ValidationResult.isValid results) eqn:V; cbn [negb].
    + now rewrite failingErrors_when_valid.
    + reflexivity.
  - rewrite execute_accumulates.
    pose proof (failingErrors_nil (fieldChecks request)
                  (fieldChecks_wellFormed request)) as N.
    destruct (forallb ValidationResult.isValid (fieldChecks request)) eqn:V;
      cbn [negb].
    + now rewrite (proj2 N eq_refl).
    + destruct (failingErrors (fieldChecks request)) as [|e es] eqn:F;
        [|reflexivity].
      destruct N as [N _]. specialize (N eq_refl). discriminate.
  - intros W. rewrite (combine_fold results W ValidationResult.success)
      by reflexivity.
    cbn [ValidationResult.isValid ValidationResult.isValidFlag
           ValidationResult.success andb ValidationResult.getErrors
           ValidationResult.errors app].
    now destruct (forallb ValidationResult.isValid results).
Qed.

Lemma X8_combined_results_witness :
  fold_left (@ValidationResult.combine Sample.platform)
    [@ValidateParametersUseCase.validateSize Sample.platform (lit "1x1");
     @ValidationResult.success Sample.platform;
     @ValidateParametersUseCase.validateMargin Sample.platform (Int 51)]
    (@ValidationResult.success Sample.platform)
  = @ValidationResult.combineAll Sample.platform
      [@ValidateParametersUseCase.validateSize Sample.platform (lit "1x1");
       @ValidationResult.success Sample.platform;
       @ValidateParametersUseCase.validateMargin Sample.platform (Int 51)].
Proof.
  apply (X8_combined_results Sample.platform _ Sample.simpleRequest).
  repeat constructor; intros; try reflexivity; discriminate.
Defined.

(* ------------------------------------------------------------------ *)
(** ** The orchestrator, path by path *)

Section Orchestrator.
Context {P : Platform} {S : Type} {repo : ICacheRepository S}
  {gen : IQRCodeGenerator}.

Import GenerateQRCodeUseCase.

(** Every call of [execute] returns a response; which one, and what it
    leaves in the repository and on the counters, is fixed by the
    validation, the construction, the cache lookup and the generator. *)
Lemma execute_spec (uc : CacheManagementUseCase.t) (now : Z)
  (request : ValidateParametersUseCase.QRCodeRequestDTO) (w : World S) :
  exists resp w',
    execute uc now request w = (Ok resp, w')
    /\ ((ValidationResult.isValid (ValidateParametersUseCase.execute request)
         = false
         /\ resp
            = mkResponse false None
                (Some (mkRespError (lit "VALIDATION_ERROR")
                         (lit "Invalid input parameters")
                         (ValidationDetails
                            (ValidationResult.getErrors
                               (ValidateParametersUseCase.execute request)))))
                error 0
         /\ repository w' = repository w
         /\ counters w' = counters w ++ [lit "qr_generation_errors_total"]
         /\ console w' = console w)
        \/ (ValidationResult.isValid (ValidateParametersUseCase.execute request)
            = true
            /\ exists e,
                buildConfiguration request = Throw e
                /\ resp
                   = mkResponse false None
                       (Some (mkRespError (lit "GENERATION_ERROR")
                                (errorMessage e) StackTrace))
                       error 0
                /\ repository w' = repository w
                /\ counters w'
                   = counters w ++ [lit "qr_generation_errors_total"]
                /\ console w' = console w)
        \/ (ValidationResult.isValid (ValidateParametersUseCase.execute request)
            = true
            /\ exists configuration warnings,
                buildConfiguration request = Ok (configuration, warnings)
                /\ console w' = console w ++ warnings
                /\ let key := QRCodeConfiguration.getHashKey configuration in
                   let looked := repoGet (repository w) now key in
                   (exists cached,
                       fst looked = Ok (Some cached)
                       /\ resp = respond configuration cached true hit
                       /\ repository w' = snd looked
                       /\ counters w' = counters w ++ [lit "qr_cache_hits_total"])
                   \/ ((fst looked = Ok None \/ exists e, fst looked = Throw e)
                       /\ ((exists qrCode,
                               generate now configuration = Ok qrCode
                               /\ resp = respond configuration qrCode false miss
                               /\ repository w'
                                  = snd (repoSet (snd looked) now key qrCode
                                           (Some (CacheManagementUseCase.defaultTTL uc)))
                               /\ counters w'
                                  = counters w
                                    ++ [lit "qr_cache_misses_total";
                                        lit "qr_codes_generated_total"])
                           \/ (exists e,
                                  generate now configuration = Throw e
                                  /\ resp
                                     = mkResponse false None
                                         (Some (mkRespError
                                                  (lit "GENERATION_ERROR")
                                                  (exceptionMessage e)
                                                  StackTrace))
                                         error 0
                                  /\ repository w' = snd looked
                                  /\ counters w'
                                     = counters w
                                       ++ [lit "qr_cache_misses_total";
                                           lit "qr_generation_errors_total"]))))).
Proof.
  unfold execute, CacheManagementUseCase.get, CacheManagementUseCase.set,
    tryCatch, mbind, ret, raise, logLine, consoleWarn, incrementCounter,
    ofResult, onRepository.
  destruct (ValidationResult.isValid (ValidateParametersUseCase.execute request))
    eqn:V.
  2:{ cbn -[lit]. do 2 eexists. split; [reflexivity|]. left.
      cbn -[lit]. now repeat split. }
  destruct (buildConfiguration request) as [[configuration warnings]|e] eqn:B.
  2:{ cbn -[lit errorMessage]. do 2 eexists. split; [reflexivity|].
      right; left. split; [reflexivity|]. exists e.
      cbn -[lit errorMessage]. now repeat split. }
  cbn -[QRCodeConfiguration.getHashKey lit respond
        InMemoryCacheRepository.orDefaultTTL].
  destruct (repoGet (repository w) now
              (QRCodeConfiguration.getHashKey configuration))
    as [[[cached|]|e] s1] eqn:G.
  - cbn -[QRCodeConfiguration.getHashKey lit respond].
    do 2 eexists. split; [reflexivity|]. right; right.
    split; [reflexivity|]. exists configuration, warnings.
    cbn -[QRCodeConfiguration.getHashKey lit respond].
    split; [reflexivity|]. split; [reflexivity|]. left. exists cached.
    rewrite G. cbn -[lit]. now repeat split.
  - cbn -[QRCodeConfiguration.getHashKey lit respond
          InMemoryCacheRepository.orDefaultTTL].
    destruct (generate now configuration) as [q|e] eqn:Gen.
    + cbn -[QRCodeConfiguration.getHashKey lit respond].
      destruct (repoSet s1 now (QRCodeConfiguration.getHashKey configuration) q
                  (Some (CacheManagementUseCase.defaultTTL uc)))
        as [[[]|e] s2] eqn:St;
        cbn -[QRCodeConfiguration.getHashKey lit respond];
        (do 2 eexists; split; [reflexivity|]; right; right;
         split; [reflexivity|]; exists configuration, warnings;
         cbn -[QRCodeConfiguration.getHashKey lit respond];
         split; [reflexivity|]; split; [reflexivity|]; right;
         rewrite G; cbn -[QRCodeConfiguration.getHashKey lit respond];
         split; [now left|]; left; exists q; rewrite St; cbn -[lit];
         repeat split; try assumption; now rewrite <- app_assoc).
    + cbn -[QRCodeConfiguration.getHashKey lit respond exceptionMessage].
      do 2 eexists. split; [reflexivity|]. right; right.
      split; [reflexivity|]. exists configuration, warnings.
      cbn -[QRCodeConfiguration.getHashKey lit respond exceptionMessage].
      split; [reflexivity|]. split; [reflexivity|]. right.
      rewrite G. cbn -[QRCodeConfiguration.getHashKey lit respond exceptionMessage].
      split; [now left|]. right. exists e. cbn -[lit exceptionMessage].
      repeat split; try assumption; now rewrite <- app_assoc.
  - cbn -[QRCodeConfiguration.getHashKey lit respond
          InMemoryCacheRepository.orDefaultTTL].
    destruct (generate now configuration) as [q|e'] eqn:Gen.
    + cbn -[QRCodeConfiguration.getHashKey lit respond].
      destruct (repoSet s1 now (QRCodeConfiguration.getHashKey configuration) q
                  (Some (CacheManagementUseCase.defaultTTL uc)))
        as [[[]|e''] s2] eqn:St;
        cbn -[QRCodeConfiguration.getHashKey lit respond];
        (do 2 eexists; split; [reflexivity|]; right; right;
         split; [reflexivity|]; exists configuration, warnings;
         cbn -[QRCodeConfiguration.getHashKey lit respond];
         split; [reflexivity|]; split; [reflexivity|]; right;
         rewrite G; cbn -[QRCodeConfiguration.getHashKey lit respond];
         split; [right; now exists e|]; left; exists q; rewrite St;
         cbn -[lit]; repeat split; try assumption; now rewrite <- app_assoc).
    + cbn -[QRCodeConfiguration.getHashKey lit respond exceptionMessage].
      do 2 eexists. split; [reflexivity|]. right; right.
      split; [reflexivity|]. exists configuration, warnings.
      cbn -[QRCodeConfiguration.getHashKey lit respond exceptionMessage].
      split; [reflexivity|]. split; [reflexivity|]. right.
      rewrite G. cbn -[QRCodeConfiguration.getHashKey lit respond exceptionMessage].
      split; [right; now exists e|]. right. exists e'.
      cbn -[lit exceptionMessage].
      repeat split; try assumption; now rewrite <- app_assoc.
Qed.

End Orchestrator.

(** X9. [execute] never throws: it returns a response for every request,
    repository and generator.  A successful response carries the image
    data, no error, and the status [hit] or [miss] in agreement with its
    [cacheHit] flag; a failed one carries no data, the status [error], a
    data size of 0 and the code [VALIDATION_ERROR] (exactly when the
    validation failed) or [GENERATION_ERROR]; each request increments the
    error counter, the hit counter, or the miss counter followed by the
    generated or the error counter. *)
Theorem X9_execute_always_answers (P : Platform) (S : Type)
  (repo : ICacheRepository S) (gen : IQRCodeGenerator)
  (uc : CacheManagementUseCase.t) (now : Z)
  (request : ValidateParametersUseCase.QRCodeRequestDTO) (w : World S) :
  exists resp w',
    GenerateQRCodeUseCase.execute uc now request w = (Ok resp, w')
    /\ (if GenerateQRCodeUseCase.success resp
        then exists d,
            GenerateQRCodeUseCase.data resp = Some d
            /\ GenerateQRCodeUseCase.error_ resp = None
            /\ GenerateQRCodeUseCase.dataSize resp
               = GenerateQRCodeUseCase.rd_size d
            /\ ((GenerateQRCodeUseCase.cacheStatus resp
                 = GenerateQRCodeUseCase.hit
                 /\ GenerateQRCodeUseCase.rd_cacheHit d = true
                 /\ counters w' = counters w ++ [lit "qr_cache_hits_total"])
                \/ (GenerateQRCodeUseCase.cacheStatus resp
                    = GenerateQRCodeUseCase.miss
                    /\ GenerateQRCodeUseCase.rd_cacheHit d = false
                    /\ counters w'
                       = counters w
                         ++ [lit "qr_cache_misses_total";
                             lit "qr_codes_generated_total"]))
        else GenerateQRCodeUseCase.data resp = None
             /\ GenerateQRCodeUseCase.cacheStatus resp
                = GenerateQRCodeUseCase.error
             /\ GenerateQRCodeUseCase.dataSize resp = 0
             /\ exists err,
                 GenerateQRCodeUseCase.error_ resp = Some err
                 /\ ((GenerateQRCodeUseCase.re_code err = lit "VALIDATION_ERROR"
                      /\ ValidationResult.isValid
                           (ValidateParametersUseCase.execute request) = false
                      /\ counters w'
                         = counters w ++ [lit "qr_generation_errors_total"])
                     \/ (GenerateQRCodeUseCase.re_code err
                         = lit "GENERATION_ERROR"
                         /\ ValidationResult.isValid
                              (ValidateParametersUseCase.execute request) = true
                         /\ (counters w'
                             = counters w ++ [lit "qr_generation_errors_total"]
                             \/ counters w'
                                = counters w
                                  ++ [lit "qr_cache_misses_total";
                                      lit "qr_generation_errors_total"])))).
Proof.
  destruct (execute_spec uc now request w) as (resp & w' & E & H).
  exists resp, w'. split; [exact E|].
  destruct H as [(V & -> & _ & C & _)
                |[(V & e & _ & -> & _ & C & _)
                 |(V & c & warnings & _ & _ & H)]].
  - cbn -[lit]. repeat split. eexists. split; [reflexivity|]. left.
    now repeat split.
  - cbn -[lit]. repeat split. eexists. split; [reflexivity|]. right.
    repeat split; auto.
  - cbv zeta in H.
    destruct H as [(cached & _ & -> & _ & C)
                  |(_ & [(q & _ & -> & _ & C)|(e & _ & -> & _ & C)])].
    + cbn -[lit]. eexists. split; [reflexivity|]. repeat split. left.
      now repeat split.
    + cbn -[lit]. eexists. split; [reflexivity|]. repeat split. right.
      now repeat split.
    + cbn -[lit]. repeat split. eexists. split; [reflexivity|]. right.
      repeat split; auto.
Qed.

(** X10. A request that fails validation is answered with
    [VALIDATION_ERROR] and every violation of the field checks, in their
    order; the repository is left as it was (the cache is not consulted
    and nothing is stored), and the console too. *)
Theorem X10_invalid_request_leaves_the_cache_alone (P : Platform) (S : Type)
  (repo : ICacheRepository S) (gen : IQRCodeGenerator)
  (uc : CacheManagementUseCase.t) (now : Z)
  (request : ValidateParametersUseCase.QRCodeRequestDTO) (w : World S) :
  forallb ValidationResult.isValid (fieldChecks request) = false ->
  exists w',
    GenerateQRCodeUseCase.execute uc now request w
    = (Ok (GenerateQRCodeUseCase.mkResponse false None
             (Some (GenerateQRCodeUseCase.mkRespError (lit "VALIDATION_ERROR")
                      (lit "Invalid input parameters")
                      (GenerateQRCodeUseCase.ValidationDetails
                         (failingErrors (fieldChecks request)))))
             GenerateQRCodeUseCase.error 0), w')
    /\ failingErrors (fieldChecks request) <> []
    /\ repository w' = repository w
    /\ console w' = console w
    /\ counters w' = counters w ++ [lit "qr_generation_errors_total"].
Proof.
  intros V.
  pose proof (failingErrors_nil (fieldChecks request)
                (fieldChecks_wellFormed request)) as N.
  assert (F : failingErrors (fieldChecks request) <> []).
  { intros F. apply N in F. congruence. }
  assert (R : ValidateParametersUseCase.execute request
              = ValidationResult.failure (failingErrors (fieldChecks request))).
  { rewrite execute_accumulates.
    destruct (failingErrors (fieldChecks request)); [contradiction|reflexivity]. }
  destruct (execute_spec uc now request w) as (resp & w' & E & H).
  exists w'. rewrite R in H.
  destruct H as [(_ & -> & Rw & C & Cw)
                |[(V' & _)|(V' & _)]]; try discriminate.
  now repeat split.
Qed.

Lemma X10_invalid_request_leaves_the_cache_alone_witness :
  exists w',
    @GenerateQRCodeUseCase.execute Sample.platform _ inMemory Sample.generator
      Sample.useCase 0
      (ValidateParametersUseCase.mkRequest (Some (lit "hello"))
         (Some (lit "5x5")) None None None None (Some (Int 51)) None None None
         None None None)
      Sample.emptyWorld
    = (Ok (GenerateQRCodeUseCase.mkResponse false None
             (Some (GenerateQRCodeUseCase.mkRespError (lit "VALIDATION_ERROR")
                      (lit "Invalid input parameters")
                      (GenerateQRCodeUseCase.ValidationDetails
                         [ValidationResult.mkError (lit "size")
                            (lit "Width must be between 10 and 1000 pixels")
                            ValidationResult.INVALID_FORMAT
                            (Some (ValidationResult.VString (lit "5x5")));
                          ValidationResult.mkError (lit "margin")
                            (lit "Margin must be an integer between 0 and 50 pixels")
                            ValidationResult.OUT_OF_RANGE
                            (Some (ValidationResult.VNumber (Int 51)))])))
             GenerateQRCodeUseCase.error 0), w')
    /\ repository w' = repository Sample.emptyWorld.
Proof.
  destruct (X10_invalid_request_leaves_the_cache_alone Sample.platform _
              inMemory Sample.generator Sample.useCase 0
              (ValidateParametersUseCase.mkRequest (Some (lit "hello"))
                 (Some (lit "5x5")) None None None None (Some (Int 51)) None
                 None None None None None)
              Sample.emptyWorld eq_refl)
    as (w' & E & _ & R & _).
  exists w'. split; [exact E|exact R].
Defined.

(* ------------------------------------------------------------------ *)
(** ** From a valid request to a configuration *)

Section ValidRequests.
Context {P : Platform}.
Import ValidateParametersUseCase ValidationResult.

Lemma whenPresent_valid {A : Type} (o : option A)
  (check : A -> ValidationResult.t) (a : A) :
  forallb isValid (whenPresent o check) = true -> o = Some a ->
  isValid (check a) = true.
Proof. intros V ->. cbn in V. now rewrite andb_true_r in V. Qed.

Lemma validateData_valid (data : option jsstring) :
  isValid (validateData data) = true ->
  exists d payload, data = Some d /\ DataPayload.create d = Ok payload.
Proof.
  unfold validateData, present.
  destruct data as [[|c d]|]; try discriminate.
  destruct (DataPayload.create (c :: d)) as [payload|] eqn:E; [|discriminate].
  intros _. now exists (c :: d), payload.
Qed.

Lemma validateMargin_valid (m : number) :
  isValid (validateMargin m) = true ->
  exists z, QRCodeConfiguration.validateMargin (Some m) = Ok z /\ 0 <= z <= 50.
Proof.
  unfold validateMargin.
  destruct (negb (isInteger m) || ltZ m 0 || gtZ m 50) eqn:E; [discriminate|].
  intros _. destruct m as [z| |]; try discriminate. cbn in E.
  apply orb_false_iff in E as [E1 E2]. bools.
  exists z. cbn. rewrite Z.gtb_ltb.
  destruct (Z.ltb_spec z 0); [lia|]. destruct (Z.ltb_spec 50 z); [lia|].
  split; [reflexivity|lia].
Qed.

Lemma validateQuietZone_valid (q : number) :
  isValid (validateQuietZone q) = true ->
  exists z,
    QRCodeConfiguration.validateQuietZone (Some q) = Ok z /\ 0 <= z <= 100.
Proof.
  unfold validateQuietZone.
  destruct (negb (isInteger q) || ltZ q 0 || gtZ q 100) eqn:E; [discriminate|].
  intros _. destruct q as [z| |]; try discriminate. cbn in E.
  apply orb_false_iff in E as [E1 E2]. bools.
  exists z. cbn. rewrite Z.gtb_ltb.
  destruct (Z.ltb_spec z 0); [lia|]. destruct (Z.ltb_spec 100 z); [lia|].
  split; [reflexivity|lia].
Qed.

Lemma validateCharset_valid (charset field : jsstring) :
  isValid (validateCharset charset field) = true ->
  includes QRCodeConfiguration.supportedCharsets charset = true.
Proof.
  unfold validateCharset.
  change [lit "UTF-8"; lit "ISO-8859-1"]
    with QRCodeConfiguration.supportedCharsets.
  now destruct (includes QRCodeConfiguration.supportedCharsets charset).
Qed.

Lemma default_charset_supported (o : option jsstring) :
  (forall c, present o = Some c ->
             includes QRCodeConfiguration.supportedCharsets c = true) ->
  includes QRCodeConfiguration.supportedCharsets
    (QRCodeConfiguration.orDefaultString o (lit "UTF-8")) = true.
Proof.
  destruct o as [[|c s]|]; cbn [QRCodeConfiguration.orDefaultString present];
    intros H; try reflexivity.
  now apply H.
Qed.

(** X11. A request that passes the validation is built into a
    configuration with the validated payload, with one exception that the
    validation does not check: a payload with a code unit above 255 under
    a source charset that reads as ISO-8859-1 makes the constructor throw,
    and nothing else does. *)
Theorem X11_valid_request_builds (request : QRCodeRequestDTO) :
  isValid (ValidateParametersUseCase.execute request) = true ->
  exists d payload,
    ValidateParametersUseCase.data request = Some d
    /\ DataPayload.create d = Ok payload
    /\ let charset :=
         QRCodeConfiguration.orDefaultString (charset_source request)
           (lit "UTF-8") in
       if DataPayload.isCompatibleWithCharset payload charset
       then exists configuration warnings,
           GenerateQRCodeUseCase.buildConfiguration request
           = Ok (configuration, warnings)
           /\ QRCodeConfiguration.data configuration = payload
           /\ QRCodeConfiguration.charsetSource configuration = charset
       else GenerateQRCodeUseCase.buildConfiguration request
            = Throw (ConfigCharsetIncompatible charset).
Proof.
  intros V.
  assert (A : forallb isValid (fieldChecks request) = true).
  { rewrite execute_accumulates in V.
    apply (failingErrors_nil _ (fieldChecks_wellFormed request)).
    destruct (failingErrors (fieldChecks request)); [reflexivity|discriminate]. }
  unfold fieldChecks in A. cbv zeta in A. rewrite !forallb_app in A.
  apply andb_prop in A as [Hdata A]. apply andb_prop in A as [Hsize A].
  apply andb_prop in A as [Hformat A]. apply andb_prop in A as [Hecc A].
  apply andb_prop in A as [Hcolor A]. apply andb_prop in A as [Hbg A].
  apply andb_prop in A as [Hmargin A]. apply andb_prop in A as [Hqzone A].
  apply andb_prop in A as [Hcs A]. apply andb_prop in A as [Hct A].
  apply andb_prop in A as [Hlogo _].
  cbn [forallb] in Hdata. rewrite andb_true_r in Hdata.
  destruct (validateData_valid _ Hdata) as (d & payload & Ed & Cd).
  exists d, payload. split; [exact Ed|]. split; [exact Cd|]. cbv zeta.
  assert (B : exists sz fm ec fg bg,
             GenerateQRCodeUseCase.buildConfiguration request
             = QRCodeConfiguration.new
                 (QRCodeConfiguration.mkParams payload (Some sz) (Some fm)
                    (Some ec) (Some fg) (Some bg) (margin request)
                    (qzone request) (charset_source request)
                    (charset_target request))).
  { unfold GenerateQRCodeUseCase.buildConfiguration.
    rewrite Ed, Cd. cbn [bind].
    match goal with
    | |- context [bind ?m _] => assert (E : exists v, m = Ok v)
    end.
    { destruct (present (size request)) as [s|] eqn:Ps; [|eauto].
      pose proof (whenPresent_valid _ _ s Hsize eq_refl) as Vs.
      unfold validateSize in Vs.
      destruct (Size.fromString s); [eauto|discriminate]. }
    destruct E as [sz E]. rewrite E. cbn [bind]. clear E.
    match goal with
    | |- context [bind ?m _] => assert (E : exists v, m = Ok v)
    end.
    { destruct (present (format request)) as [s|] eqn:Ps; [|eauto].
      pose proof (whenPresent_valid _ _ s Hformat eq_refl) as Vs.
      unfold validateFormat in Vs.
      destruct (OutputFormatValue.create s); [eauto|discriminate]. }
    destruct E as [fm E]. rewrite E. cbn [bind]. clear E.
    match goal with
    | |- context [bind ?m _] => assert (E : exists v, m = Ok v)
    end.
    { destruct (present (ecc request)) as [s|] eqn:Ps; [|eauto].
      pose proof (whenPresent_valid _ _ s Hecc eq_refl) as Vs.
      unfold validateErrorCorrectionLevel in Vs.
      destruct (ErrorCorrectionLevelValue.create s); [eauto|discriminate]. }
    destruct E as [ec E]. rewrite E. cbn [bind]. clear E.
    match goal with
    | |- context [bind ?m _] => assert (E : exists v, m = Ok v)
    end.
    { destruct (present (color request)) as [s|] eqn:Ps; [|eauto].
      pose proof (whenPresent_valid _ _ s Hcolor eq_refl) as Vs.
      unfold validateColor in Vs.
      destruct (ColorValue.create s); [eauto|discriminate]. }
    destruct E as [fg E]. rewrite E. cbn [bind]. clear E.
    match goal with
    | |- context [bind ?m _] => assert (E : exists v, m = Ok v)
    end.
    { destruct (present (bgcolor request)) as [s|] eqn:Ps; [|eauto].
      pose proof (whenPresent_valid _ _ s Hbg eq_refl) as Vs.
      unfold validateColor in Vs.
      destruct (ColorValue.create s); [eauto|discriminate]. }
    destruct E as [bg E]. rewrite E. cbn [bind]. clear E.
    match goal with
    | |- context [bind ?m _] => assert (E : exists v, m = Ok v)
    end.
    { destruct (present (logo request)) as [s|] eqn:Ps; [|eauto].
      pose proof (whenPresent_valid _ _ s Hlogo eq_refl) as Vs.
      unfold validateLogo in Vs.
      destruct (Logo.create s (logo_size request) (logo_margin request));
        [cbn [bind]; eauto|discriminate]. }
    destruct E as [lg E]. rewrite E. cbn [bind]. clear E.
    now exists sz, fm, ec, fg, bg. }
  destruct B as (sz & fm & ec & fg & bg & ->).
  assert (Emargin : exists z,
             QRCodeConfiguration.validateMargin (margin request) = Ok z).
  { destruct (margin request) as [m|] eqn:Pm; [|cbn; eauto].
    destruct (validateMargin_valid m (whenPresent_valid _ _ m Hmargin eq_refl))
      as (z & E & _).
    eauto. }
  assert (Eqzone : exists z,
             QRCodeConfiguration.validateQuietZone (qzone request) = Ok z).
  { destruct (qzone request) as [q|] eqn:Pq; [|cbn; eauto].
    destruct (validateQuietZone_valid q (whenPresent_valid _ _ q Hqzone eq_refl))
      as (z & E & _).
    eauto. }
  assert (Scs : includes QRCodeConfiguration.supportedCharsets
                  (QRCodeConfiguration.orDefaultString (charset_source request)
                     (lit "UTF-8")) = true).
  { apply default_charset_supported. intros c Pc.
    apply (validateCharset_valid c (lit "charset-source")).
    exact (whenPresent_valid _ _ c Hcs Pc). }
  assert (Sct : includes QRCodeConfiguration.supportedCharsets
                  (QRCodeConfiguration.orDefaultString (charset_target request)
                     (lit "UTF-8")) = true).
  { apply default_charset_supported. intros c Pc.
    apply (validateCharset_valid c (lit "charset-target")).
    exact (whenPresent_valid _ _ c Hct Pc). }
  unfold QRCodeConfiguration.new.
  cbn [QRCodeConfiguration.p_data QRCodeConfiguration.p_size
       QRCodeConfiguration.p_format QRCodeConfiguration.p_errorCorrectionLevel
       QRCodeConfiguration.p_foregroundColor
       QRCodeConfiguration.p_backgroundColor QRCodeConfiguration.p_margin
       QRCodeConfiguration.p_quietZone QRCodeConfiguration.p_charsetSource
       QRCodeConfiguration.p_charsetTarget QRCodeConfiguration.orDefault].
  destruct Emargin as [mz ->], Eqzone as [qz ->]. cbn [bind].
  unfold QRCodeConfiguration.validateConfiguration.
  cbn [QRCodeConfiguration.data QRCodeConfiguration.charsetSource
       QRCodeConfiguration.charsetTarget QRCodeConfiguration.foregroundColor
       QRCodeConfiguration.backgroundColor].
  rewrite Scs, Sct. cbn [negb].
  destruct (DataPayload.isCompatibleWithCharset payload _); cbn [negb];
    [|reflexivity].
  destruct (ColorValue.hasAccessibleContrast fg bg); cbn [negb bind];
    do 2 eexists; (split; [reflexivity|now split]).
Qed.

End ValidRequests.

Lemma X11_valid_request_builds_witness :
  ValidationResult.isValid
    (@ValidateParametersUseCase.execute Sample.platform Sample.euroRequest)
  = true
  /\ @GenerateQRCodeUseCase.buildConfiguration Sample.platform Sample.euroRequest
     = Throw (ConfigCharsetIncompatible (lit "ISO-8859-1")).
Proof.
  split; [reflexivity|].
  destruct (@X11_valid_request_builds Sample.platform Sample.euroRequest
              eq_refl)
    as (d & payload & Ed & Cd & H).
  injection Ed as <-. injection Cd as <-. exact H.
Defined.

(* ------------------------------------------------------------------ *)
(** ** The orchestrator over the in-memory repository *)

Lemma inMemory_get (s : InMemoryCacheRepository.t) (now : Z) (key : jsstring) :
  repoGet s now key
  = (Ok (fst (InMemoryCacheRepository.get s now key)),
     snd (InMemoryCacheRepository.get s now key)).
Proof.
  cbn [repoGet inMemory]. now destruct (InMemoryCacheRepository.get s now key).
Qed.

Lemma lookup_after_set (this : InMemoryCacheRepository.t) (now : Z)
  (key : jsstring) (q : QRCode.t) (ttl : option Z) :
  JSMap.get key
    (InMemoryCacheRepository.cache
       (InMemoryCacheRepository.set this now key q ttl))
  = Some (InMemoryCacheRepository.mkEntry q
            (now + InMemoryCacheRepository.orDefaultTTL ttl
                     (InMemoryCacheRepository.defaultTTL this) * 1000)
            now).
Proof.
  unfold InMemoryCacheRepository.set.
  cbn [InMemoryCacheRepository.cache InMemoryCacheRepository.withStats
       InMemoryCacheRepository.withCache].
  apply get_set_same.
Qed.

Lemma get_after_set (this : InMemoryCacheRepository.t) (now now1 : Z)
  (key : jsstring) (q : QRCode.t) (ttl : option Z) :
  now1 <= now
          + InMemoryCacheRepository.orDefaultTTL ttl
              (InMemoryCacheRepository.defaultTTL this) * 1000 ->
  fst (InMemoryCacheRepository.get
         (InMemoryCacheRepository.set this now key q ttl) now1 key)
  = Some q
  /\ InMemoryCacheRepository.cache
       (snd (InMemoryCacheRepository.get
               (InMemoryCacheRepository.set this now key q ttl) now1 key))
     = InMemoryCacheRepository.cache
         (InMemoryCacheRepository.set this now key q ttl).
Proof.
  intros Hnow. unfold InMemoryCacheRepository.get.
  rewrite lookup_after_set.
  cbn [InMemoryCacheRepository.expiresAt InMemoryCacheRepository.qrCode].
  match goal with
  | |- context [if ?a >? ?b then _ else _] =>
      replace (a >? b) with false
  end.
  - cbn [fst snd InMemoryCacheRepository.cache
         InMemoryCacheRepository.withStats]. now split.
  - symmetry. rewrite Z.gtb_ltb. apply Z.ltb_ge. lia.
Qed.

(** X12. A request that was answered by generating an image is answered
    from the cache when it is repeated before the entry expires: the
    second response carries the same image and identifier with the status
    [hit], whatever the generator would do, and the cache keeps its
    entries. *)
Theorem X12_repeated_request_is_served_from_the_cache (P : Platform)
  (gen gen' : IQRCodeGenerator) (uc : CacheManagementUseCase.t)
  (now now1 : Z) (request : ValidateParametersUseCase.QRCodeRequestDTO)
  (w w1 : World InMemoryCacheRepository.t)
  (resp : GenerateQRCodeUseCase.QRCodeResponseDTO) :
  @GenerateQRCodeUseCase.execute P _ inMemory gen uc now request w
  = (Ok resp, w1) ->
  GenerateQRCodeUseCase.success resp = true ->
  GenerateQRCodeUseCase.cacheStatus resp = GenerateQRCodeUseCase.miss ->
  now1 <= now
          + InMemoryCacheRepository.orDefaultTTL
              (Some (CacheManagementUseCase.defaultTTL uc))
              (InMemoryCacheRepository.defaultTTL (repository w)) * 1000 ->
  exists configuration qrCode w2,
    @generate gen now configuration = Ok qrCode
    /\ resp
       = GenerateQRCodeUseCase.respond configuration qrCode false
           GenerateQRCodeUseCase.miss
    /\ @GenerateQRCodeUseCase.execute P _ inMemory gen' uc now1 request w1
       = (Ok (GenerateQRCodeUseCase.respond configuration qrCode true
                GenerateQRCodeUseCase.hit), w2)
    /\ InMemoryCacheRepository.cache (repository w2)
       = InMemoryCacheRepository.cache (repository w1).
Proof.
  intros E Hs Hm Hnow.
  destruct (@execute_spec P _ inMemory gen uc now request w)
    as (resp' & w' & E' & H).
  rewrite E in E'. injection E' as <- <-.
  destruct H as [(_ & -> & _)|[(_ & e & _ & -> & _)|(V & c & ws & B & _ & H)]];
    try discriminate.
  cbv zeta in H.
  destruct H as [(cached & _ & -> & _)
                |(_ & [(q & Gen & -> & R & _)|(e & _ & -> & _)])];
    try discriminate.
  rewrite inMemory_get in R. cbn [snd repoSet inMemory] in R.
  destruct (@execute_spec P _ inMemory gen' uc now1 request w1)
    as (resp2 & w2 & E2 & H2).
  exists c, q, w2. split; [exact Gen|]. split; [reflexivity|].
  rewrite V in H2.
  destruct H2 as [(? & _)|[(_ & e & B' & _)|(_ & c' & ws' & B' & _ & H2)]];
    try discriminate; rewrite B in B'; try discriminate.
  injection B' as <- <-. cbv zeta in H2.
  rewrite inMemory_get, R in H2. cbn [fst snd] in H2.
  destruct (get_after_set
              (snd (InMemoryCacheRepository.get (repository w) now
                      (QRCodeConfiguration.getHashKey c)))
              now now1 (QRCodeConfiguration.getHashKey c) q
              (Some (CacheManagementUseCase.defaultTTL uc))) as [G1 G2].
  { now rewrite get_keeps_defaultTTL. }
  rewrite G1 in H2.
  destruct H2 as [(cached & [= <-] & -> & R2 & _)|([?|[e ?]] & _)];
    try discriminate.
  split; [exact E2|]. rewrite R2, R. exact G2.
Qed.

Lemma X12_repeated_request_is_served_from_the_cache_witness :
  exists configuration qrCode w2,
    @generate Sample.generator 0 configuration = Ok qrCode
    /\ fst (Sample.run Sample.simpleRequest)
       = Ok (@GenerateQRCodeUseCase.respond Sample.platform configuration
               qrCode false GenerateQRCodeUseCase.miss)
    /\ @GenerateQRCodeUseCase.execute Sample.platform _ inMemory
         {| generate := fun _ _ => Throw (OtherException (lit "unavailable")) |}
         Sample.useCase 3600000 Sample.simpleRequest
         (snd (Sample.run Sample.simpleRequest))
       = (Ok (@GenerateQRCodeUseCase.respond Sample.platform configuration
                qrCode true GenerateQRCodeUseCase.hit), w2).
Proof.
  destruct (X12_repeated_request_is_served_from_the_cache Sample.platform
              Sample.generator
              {| generate := fun _ _ => Throw (OtherException (lit "unavailable")) |}
              Sample.useCase 0 3600000 Sample.simpleRequest Sample.emptyWorld
              (snd (Sample.run Sample.simpleRequest))
              (@GenerateQRCodeUseCase.respond Sample.platform
                 Sample.configuration
                 (QRCode.mk (lit "id") 0 Sample.configuration [137; 80; 78; 71])
                 false GenerateQRCodeUseCase.miss))
    as (c & q & w2 & G & R & E & _).
  - reflexivity.
  - reflexivity.
  - reflexivity.
  - vm_compute. discriminate.
  - exists c, q, w2. split; [exact G|]. split; [|exact E].
    rewrite <- R. reflexivity.
Defined.

(** X13. The formats [gif] and [eps] pass the validation and build a
    configuration, but the generator adapter supports neither: unless the
    cache holds an entry for the configuration, the request is answered
    with [GENERATION_ERROR] and the text of the adapter, and nothing is
    stored. *)
Theorem X13_gif_and_eps_are_never_generated (P : Platform)
  (lib : QRCodeJSAdapter.Libraries) (S : Type) (repo : ICacheRepository S)
  (uc : CacheManagementUseCase.t) (now : Z)
  (request : ValidateParametersUseCase.QRCodeRequestDTO) (w : World S)
  (configuration : QRCodeConfiguration.t) (warnings : list jsstring) :
  ValidationResult.isValid (ValidateParametersUseCase.execute request) = true ->
  GenerateQRCodeUseCase.buildConfiguration request
  = Ok (configuration, warnings) ->
  QRCodeConfiguration.format configuration = OutputFormatValue.GIF
  \/ QRCodeConfiguration.format configuration = OutputFormatValue.EPS ->
  (forall cached,
      fst (repoGet (repository w) now
             (QRCodeConfiguration.getHashKey configuration))
      <> Ok (Some cached)) ->
  exists w',
    @GenerateQRCodeUseCase.execute P S repo QRCodeJSAdapter.generator uc now
      request w
    = (Ok (GenerateQRCodeUseCase.mkResponse false None
             (Some (GenerateQRCodeUseCase.mkRespError (lit "GENERATION_ERROR")
                      (lit "Failed to generate QR code: Unsupported format: "
                       ++ OutputFormatValue.toString
                            (QRCodeConfiguration.format configuration))
                      GenerateQRCodeUseCase.StackTrace))
             GenerateQRCodeUseCase.error 0), w')
    /\ repository w'
       = snd (repoGet (repository w) now
                (QRCodeConfiguration.getHashKey configuration)).
Proof.
  intros V B F Hmiss.
  assert (G : forall t,
             QRCodeJSAdapter.generate t configuration
             = Throw (OtherException
                        (lit "Failed to generate QR code: Unsupported format: "
                         ++ OutputFormatValue.toString
                              (QRCodeConfiguration.format configuration)))).
  { intros t. unfold QRCodeJSAdapter.generate.
    destruct F as [-> | ->]; reflexivity. }
  destruct (@execute_spec P S repo QRCodeJSAdapter.generator uc now request w)
    as (resp & w' & E & H).
  exists w'. rewrite V, B in H.
  destruct H as [(? & _)|[(_ & e & ? & _)|(_ & c & ws & [= <- <-] & _ & H)]];
    try discriminate.
  cbv zeta in H.
  destruct H as [(cached & L & _)|(_ & [(q & Gen & _)|(e & Gen & -> & R & _)])].
  - now destruct (Hmiss cached).
  - cbn [generate QRCodeJSAdapter.generator] in Gen. rewrite G in Gen.
    discriminate.
  - cbn [generate QRCodeJSAdapter.generator] in Gen. rewrite G in Gen.
    injection Gen as <-. now split.
Qed.

Lemma X13_gif_and_eps_are_never_generated_witness :
  ValidationResult.isValid
    (@ValidateParametersUseCase.execute Sample.platform Sample.gifRequest)
  = true
  /\ exists w',
      @GenerateQRCodeUseCase.execute Sample.platform _ inMemory
        (@QRCodeJSAdapter.generator Sample.libraries) Sample.useCase 0
        Sample.gifRequest Sample.emptyWorld
      = (Ok (GenerateQRCodeUseCase.mkResponse false None
               (Some (GenerateQRCodeUseCase.mkRespError
                        (lit "GENERATION_ERROR")
                        (lit "Failed to generate QR code: Unsupported format: gif")
                        GenerateQRCodeUseCase.StackTrace))
               GenerateQRCodeUseCase.error 0), w').
Proof.
  split; [reflexivity|].
  destruct (X13_gif_and_eps_are_never_generated Sample.platform
              Sample.libraries _ inMemory Sample.useCase 0 Sample.gifRequest
              Sample.emptyWorld Sample.gifConfiguration [])
    as (w' & E & _).
  - reflexivity.
  - reflexivity.
  - now left.
  - intros cached. vm_compute. discriminate.
  - exists w'. exact E.
Defined.

Section Served.
Context {P : Platform} {gen : IQRCodeGenerator}.

Lemma execute_bounded (uc : CacheManagementUseCase.t) (now : Z)
  (request : ValidateParametersUseCase.QRCodeRequestDTO)
  (w : World InMemoryCacheRepository.t) :
  1 <= InMemoryCacheRepository.maxKeys (repository w) ->
  bounded (repository w) ->
  bounded (repository (snd (GenerateQRCodeUseCase.execute uc now request w)))
  /\ InMemoryCacheRepository.maxKeys
       (repository (snd (GenerateQRCodeUseCase.execute uc now request w)))
     = InMemoryCacheRepository.maxKeys (repository w).
Proof.
  intros Hmax Hb.
  destruct (@execute_spec P _ inMemory gen uc now request w)
    as (resp & w' & E & H).
  rewrite E. cbn [snd].
  assert (Hget : forall key,
             bounded (snd (InMemoryCacheRepository.get (repository w) now key))
             /\ InMemoryCacheRepository.maxKeys
                  (snd (InMemoryCacheRepository.get (repository w) now key))
                = InMemoryCacheRepository.maxKeys (repository w)).
  { intros key.
    apply (step_bounded (repository w) (InMemoryCacheRepository.OpGet now key));
      auto. }
  destruct H as [(_ & _ & -> & _)|[(_ & e & _ & _ & -> & _)
                                  |(_ & c & ws & _ & _ & H)]];
    [now split|now split|].
  cbv zeta in H. rewrite inMemory_get in H. cbn [fst snd] in H.
  destruct H as [(cached & _ & _ & -> & _)
                |(_ & [(q & _ & _ & -> & _)|(e & _ & _ & -> & _)])].
  - apply Hget.
  - cbn [repoSet inMemory snd].
    destruct (Hget (QRCodeConfiguration.getHashKey c)) as [Hb1 Hm1].
    destruct (step_bounded
                (snd (InMemoryCacheRepository.get (repository w) now
                        (QRCodeConfiguration.getHashKey c)))
                (InMemoryCacheRepository.OpSet now
                   (QRCodeConfiguration.getHashKey c) q
                   (Some (CacheManagementUseCase.defaultTTL uc))))
      as [Hb2 Hm2]; auto.
    + lia.
    + apply getHashKey_nonempty.
    + cbn [InMemoryCacheRepository.step] in *. split; [exact Hb2|lia].
  - apply Hget.
Qed.

Lemma serveAll_bounded (uc : CacheManagementUseCase.t)
  (calls : list (Z * ValidateParametersUseCase.QRCodeRequestDTO)) :
  forall w : World InMemoryCacheRepository.t,
    1 <= InMemoryCacheRepository.maxKeys (repository w) ->
    bounded (repository w) ->
    bounded (repository (serveAll uc calls w))
    /\ InMemoryCacheRepository.maxKeys (repository (serveAll uc calls w))
       = InMemoryCacheRepository.maxKeys (repository w).
Proof.
  induction calls as [|[now request] calls IH]; intros w Hmax Hb.
  - now split.
  - destruct (execute_bounded uc now request w Hmax Hb) as [Hb1 Hm1].
    unfold serveAll in *. cbn [fold_left fst snd].
    destruct (IH (snd (GenerateQRCodeUseCase.execute uc now request w)))
      as [Hb2 Hm2]; auto; [lia|].
    split; [exact Hb2|lia].
Qed.

End Served.

(** X14. Served through [execute], the in-memory cache never holds more
    than [maxKeys] entries: every key it stores is a hash key, which is
    never the empty string that the eviction skips.  This holds from a new
    repository with a capacity of at least one, for every sequence of
    requests and times and every generator. *)
Theorem X14_served_requests_respect_the_capacity (P : Platform)
  (gen : IQRCodeGenerator) (uc : CacheManagementUseCase.t)
  (maxKeys defaultTTL : option Z)
  (calls : list (Z * ValidateParametersUseCase.QRCodeRequestDTO))
  (w : World InMemoryCacheRepository.t) :
  repository w = InMemoryCacheRepository.new maxKeys defaultTTL ->
  1 <= InMemoryCacheRepository.maxKeys (repository w) ->
  JSMap.size
    (InMemoryCacheRepository.cache
       (repository (@serveAll P _ inMemory gen uc calls w)))
  <= InMemoryCacheRepository.maxKeys (repository w)
  /\ NoDup (InMemoryCacheRepository.getKeys
              (repository (@serveAll P _ inMemory gen uc calls w)))
  /\ ~ In [] (InMemoryCacheRepository.getKeys
                (repository (@serveAll P _ inMemory gen uc calls w))).
Proof.
  intros Hnew Hmax.
  destruct (@serveAll_bounded P gen uc calls w Hmax) as [(N & K & B) M].
  - rewrite Hnew in *. now apply new_bounded.
  - split; [lia|]. split; [exact N|]. intros I. now apply (K [] I).
Qed.

Lemma X14_served_requests_respect_the_capacity_witness :
  JSMap.size
    (InMemoryCacheRepository.cache
       (repository
          (@serveAll Sample.platform _ inMemory Sample.generator Sample.useCase
             [(0, Sample.simpleRequest); (1, Sample.complexRequest);
              (2, Sample.gifRequest); (3, Sample.simpleRequest)]
             (mkWorld (InMemoryCacheRepository.new (Some 2) None) [] [] []))))
  <= 2.
Proof.
  apply (X14_served_requests_respect_the_capacity Sample.platform
           Sample.generator Sample.useCase (Some 2) None
           [(0, Sample.simpleRequest); (1, Sample.complexRequest);
            (2, Sample.gifRequest); (3, Sample.simpleRequest)]
           (mkWorld (InMemoryCacheRepository.new (Some 2) None) [] [] [])).
  - reflexivity.
  - cbn. lia.
Defined.

(* ------------------------------------------------------------------ *)
(** ** The in-memory repository, call by call *)

Section MoreMapFacts.
Context {V : Type}.

Lemma get_set_other (k key : jsstring) (v : V) (m : list (jsstring * V)) :
  k <> key -> JSMap.get k (JSMap.set key v m) = JSMap.get k m.
Proof.
  intros Hk. induction m as [|[k0 v0] m IH]; cbn [JSMap.set JSMap.get].
  - destruct (streq key k) eqn:E; [|reflexivity].
    apply streq_eq in E. congruence.
  - destruct (streq k0 key) eqn:E; cbn [JSMap.get].
    + apply streq_eq in E. subst k0.
      destruct (streq key k) eqn:E'; [|reflexivity].
      apply streq_eq in E'. congruence.
    + now rewrite IH.
Qed.

Lemma get_delete_other (k key : jsstring) (m : list (jsstring * V)) :
  k <> key -> JSMap.get k (JSMap.delete key m) = JSMap.get k m.
Proof.
  intros Hk. induction m as [|[k0 v0] m IH]; cbn [JSMap.delete JSMap.get].
  - reflexivity.
  - destruct (streq k0 key) eqn:E; cbn [JSMap.get].
    + apply streq_eq in E. subst k0.
      destruct (streq key k) eqn:E'; [|reflexivity].
      apply streq_eq in E'. congruence.
    + now rewrite IH.
Qed.

Lemma get_absent (k : jsstring) (m : list (jsstring * V)) :
  ~ In k (map fst m) -> JSMap.get k m = None.
Proof.
  induction m as [|[k0 v0] m IH]; cbn [JSMap.get map fst In]; [reflexivity|].
  intros N. destruct (streq k0 k) eqn:E.
  - apply streq_eq in E. subst. exfalso. apply N. now left.
  - apply IH. intro. apply N. now right.
Qed.

Lemma In_get (k : jsstring) (v : V) (m : list (jsstring * V)) :
  NoDup (map fst m) -> In (k, v) m -> JSMap.get k m = Some v.
Proof.
  induction m as [|[k0 v0] m IH]; cbn [map fst JSMap.get]; [contradiction|].
  intros N I. inversion N as [|? ? N1 N2]; subst.
  destruct I as [[= -> ->]|I].
  - now rewrite streq_refl.
  - destruct (streq k0 k) eqn:E.
    + apply streq_eq in E. subst. exfalso. apply N1.
      apply (in_map fst) in I. exact I.
    + now apply IH.
Qed.

Lemma get_filter (p : V -> bool) (k : jsstring) (m : list (jsstring * V)) :
  NoDup (map fst m) ->
  JSMap.get k (filter (fun kv => p (snd kv)) m)
  = match JSMap.get k m with
    | Some v => if p v then Some v else None
    | None => None
    end.
Proof.
  induction m as [|[k0 v0] m IH]; cbn [map fst filter snd JSMap.get];
    [reflexivity|].
  intros N. inversion N as [|? ? N1 N2]; subst.
  destruct (streq k0 k) eqn:E.
  - apply streq_eq in E. subst k0. destruct (p v0); cbn [JSMap.get].
    + now rewrite streq_refl.
    + apply get_absent. intros I. apply N1.
      apply in_map_iff in I as (kv & <- & I). apply in_map.
      now apply filter_In in I.
  - destruct (p v0); cbn [JSMap.get]; [rewrite E|]; now apply IH.
Qed.

Lemma delete_as_filter (k : jsstring) (m : list (jsstring * V)) :
  NoDup (map fst m) ->
  JSMap.delete k m = filter (fun kv => negb (streq (fst kv) k)) m.
Proof.
  induction m as [|[k0 v0] m IH]; cbn [map fst filter JSMap.delete];
    [reflexivity|].
  intros N. inversion N as [|? ? N1 N2]; subst.
  destruct (streq k0 k) eqn:E; cbn [negb].
  - apply streq_eq in E. subst k0. symmetry.
    apply forallb_filter_id. apply forallb_forall. intros [k1 v1] I.
    cbn [fst]. apply negb_true_iff. apply streq_neq. intros ->.
    apply N1. apply (in_map fst) in I. exact I.
  - now rewrite IH.
Qed.

Lemma filter_twice (p q : jsstring * V -> bool) (m : list (jsstring * V)) :
  filter p (filter q m) = filter (fun kv => q kv && p kv) m.
Proof.
  induction m as [|kv m IH]; cbn [filter]; [reflexivity|].
  destruct (q kv); cbn [filter andb]; [destruct (p kv)|]; now rewrite IH.
Qed.

Lemma NoDup_filter_keys (p : jsstring * V -> bool) (m : list (jsstring * V)) :
  NoDup (map fst m) -> NoDup (map fst (filter p m)).
Proof.
  induction m as [|kv m IH]; cbn [map filter]; intros N; [constructor|].
  inversion N as [|? ? N1 N2]; subst.
  destruct (p kv); cbn [map]; [constructor|]; auto.
  intros I. apply N1. apply in_map_iff in I as (kv' & <- & I).
  apply in_map. now apply filter_In in I.
Qed.

Lemma fold_delete_as_filter (ks : list jsstring) :
  forall m : list (jsstring * V),
    NoDup (map fst m) ->
    fold_left (fun c key => JSMap.delete key c) ks m
    = filter (fun kv => negb (existsb (streq (fst kv)) ks)) m.
Proof.
  induction ks as [|k ks IH]; intros m N; cbn [fold_left existsb].
  - symmetry. apply forallb_filter_id. now apply forallb_forall.
  - rewrite IH by now apply NoDup_delete.
    rewrite delete_as_filter by assumption. rewrite filter_twice.
    apply filter_ext. intros kv. now rewrite negb_orb.
Qed.

Lemma same_key_same_entry (kv kv' : jsstring * V) (m : list (jsstring * V)) :
  NoDup (map fst m) -> In kv m -> In kv' m -> fst kv = fst kv' -> kv = kv'.
Proof.
  intros N I I' E. destruct kv as [k v], kv' as [k' v']. cbn [fst] in E.
  subst k'. pose proof (In_get k v m N I) as G.
  rewrite (In_get k v' m N I') in G. now injection G as ->.
Qed.

End MoreMapFacts.

Section RepositoryCalls.

Import InMemoryCacheRepository.

(** X15. With a capacity of at least one, a repository that clients use
    through its six calls, in any order and at any times, never holds
    more than [maxKeys] entries as long as no key is the empty string;
    its keys stay distinct. *)
Theorem X15_capacity_is_respected_for_non_empty_keys
  (maxKeys defaultTTL : option Z) (ops : list Op) :
  1 <= InMemoryCacheRepository.maxKeys (new maxKeys defaultTTL) ->
  storesNonEmptyKeys ops ->
  JSMap.size (cache (run (new maxKeys defaultTTL) ops))
  <= InMemoryCacheRepository.maxKeys (new maxKeys defaultTTL)
  /\ NoDup (getKeys (run (new maxKeys defaultTTL) ops)).
Proof.
  intros Hmax Hops.
  destruct (run_bounded ops (new maxKeys defaultTTL) Hmax Hops
              (new_bounded maxKeys defaultTTL Hmax)) as [(N & _ & B) M].
  split; [lia|exact N].
Qed.

Lemma X15_capacity_is_respected_for_non_empty_keys_witness :
  JSMap.size
    (cache (run (new (Some 1) None)
              [OpSet 1000 (lit "b") Sample.qrCode (Some 60);
               OpSet 2000 (lit "a") Sample.qrCode (Some 60);
               OpGet 3000 (lit "b"); OpCleanup 4000;
               OpSet 5000 (lit "c") Sample.qrCode None]))
  <= 1.
Proof.
  apply (X15_capacity_is_respected_for_non_empty_keys (Some 1) None
           [OpSet 1000 (lit "b") Sample.qrCode (Some 60);
            OpSet 2000 (lit "a") Sample.qrCode (Some 60);
            OpGet 3000 (lit "b"); OpCleanup 4000;
            OpSet 5000 (lit "c") Sample.qrCode None]).
  - cbn. lia.
  - repeat constructor; discriminate.
Defined.

(** X16. When [set] stores a new key in a full cache, exactly one entry
    leaves: one that no entry predates.  The new entry is found under its
    key, every other entry is found as before, and the number of entries
    is unchanged. *)
Theorem X16_set_on_a_full_cache_replaces_an_oldest_entry (this : t) (now : Z)
  (key : jsstring) (q : QRCode.t) (ttl : option Z) :
  1 <= maxKeys this -> bounded this ->
  JSMap.size (cache this) >= maxKeys this ->
  JSMap.has key (cache this) = false ->
  exists k e,
    inspectEntry this k = Some e /\ oldestOf (cache this) e /\ k <> key
    /\ inspectEntry (set this now key q ttl) k = None
    /\ inspectEntry (set this now key q ttl) key
       = Some (mkEntry q (now + orDefaultTTL ttl (defaultTTL this) * 1000) now)
    /\ (forall k', k' <> k -> k' <> key ->
                   inspectEntry (set this now key q ttl) k'
                   = inspectEntry this k')
    /\ JSMap.size (cache (set this now key q ttl)) = JSMap.size (cache this).
Proof.
  intros Hmax Hb Hfull Hnew.
  destruct (set_at_capacity_evicts_an_oldest this now key q ttl Hmax Hb Hfull
              Hnew) as (k & e & Hin & Hold & Hc & Hsz).
  destruct Hb as (ND & _ & _). unfold getKeys in ND.
  assert (Hk : k <> key).
  { intros ->. apply (in_map fst) in Hin. apply has_In in Hin.
    cbn [fst] in Hin. congruence. }
  exists k, e. unfold inspectEntry. rewrite Hc.
  split; [now apply In_get|]. split; [exact Hold|]. split; [exact Hk|].
  split; [|split; [|split]].
  - rewrite get_set_other by exact Hk. now apply get_delete_same.
  - apply get_set_same.
  - intros k' H1 H2. rewrite get_set_other by exact H2.
    now apply get_delete_other.
  - now rewrite <- Hc.
Qed.

Lemma X16_set_on_a_full_cache_replaces_an_oldest_entry_witness :
  exists k e,
    inspectEntry
      (run (new (Some 2) None)
         [OpSet 2000 (lit "b") Sample.qrCode None;
          OpSet 1000 (lit "a") Sample.qrCode None]) k = Some e
    /\ k <> lit "c"
    /\ inspectEntry
         (set (run (new (Some 2) None)
                 [OpSet 2000 (lit "b") Sample.qrCode None;
                  OpSet 1000 (lit "a") Sample.qrCode None])
            3000 (lit "c") Sample.qrCode None) k
       = None.
Proof.
  destruct (X16_set_on_a_full_cache_replaces_an_oldest_entry
              (run (new (Some 2) None)
                 [OpSet 2000 (lit "b") Sample.qrCode None;
                  OpSet 1000 (lit "a") Sample.qrCode None])
              3000 (lit "c") Sample.qrCode None)
    as (k & e & H1 & _ & H2 & H3 & _).
  - cbn. lia.
  - split; [|split].
    + cbn. repeat constructor; cbn; intuition discriminate.
    + cbn. intuition (subst; discriminate).
    + cbn. lia.
  - cbn. lia.
  - reflexivity.
  - now exists k, e.
Defined.

(** X17. When [set] finds its key in the cache, or finds room, nothing is
    evicted: the entry is stored under the key (in place for a key that
    was there, at the end for a new one), every other key keeps its
    entry, and only the counter of sets moves. *)
Theorem X17_set_without_eviction_touches_one_key (this : t) (now : Z)
  (key : jsstring) (q : QRCode.t) (ttl : option Z) :
  JSMap.has key (cache this) = true
  \/ JSMap.size (cache this) < maxKeys this ->
  inspectEntry (set this now key q ttl) key
  = Some (mkEntry q (now + orDefaultTTL ttl (defaultTTL this) * 1000) now)
  /\ (forall k', k' <> key ->
                 inspectEntry (set this now key q ttl) k'
                 = inspectEntry this k')
  /\ getKeys (set this now key q ttl)
     = (if JSMap.has key (cache this) then getKeys this
        else getKeys this ++ [key])
  /\ stats (set this now key q ttl)
     = mkStats (hits (stats this)) (misses (stats this))
         (sets (stats this) + 1) (deletes (stats this))
  /\ maxKeys (set this now key q ttl) = maxKeys this
  /\ defaultTTL (set this now key q ttl) = defaultTTL this.
Proof.
  intros H. unfold set, inspectEntry, getKeys.
  replace ((JSMap.size (cache this) >=? maxKeys this)
           && negb (JSMap.has key (cache this))) with false.
  - cbn [cache stats maxKeys defaultTTL withStats withCache].
    split; [apply get_set_same|]. split; [|split; [apply keys_set|]].
    + intros k' Hk. now apply get_set_other.
    + now repeat split.
  - symmetry. destruct H as [-> | H]; [now rewrite andb_false_r|].
    apply andb_false_iff. left. rewrite Z.geb_leb. apply Z.leb_gt. lia.
Qed.

Lemma X17_set_without_eviction_touches_one_key_witness :
  getKeys
    (set (run (new (Some 2) None)
            [OpSet 2000 (lit "b") Sample.qrCode None;
             OpSet 1000 (lit "a") Sample.qrCode None])
       3000 (lit "b") Sample.qrCode None)
  = [lit "b"; lit "a"].
Proof.
  destruct (X17_set_without_eviction_touches_one_key
              (run (new (Some 2) None)
                 [OpSet 2000 (lit "b") Sample.qrCode None;
                  OpSet 1000 (lit "a") Sample.qrCode None])
              3000 (lit "b") Sample.qrCode None)
    as (_ & _ & K & _).
  - left. reflexivity.
  - rewrite K. reflexivity.
Defined.

(** X18. [cleanup] removes exactly the entries that have expired: the
    entries that remain are those whose expiry is not before [now], in
    their order, each found as before; the statistics do not move. *)
Theorem X18_cleanup_removes_exactly_the_expired_entries (this : t) (now : Z) :
  NoDup (getKeys this) ->
  cache (cleanup this now)
  = filter (fun kv => negb (expired now (snd kv))) (cache this)
  /\ (forall key,
         inspectEntry (cleanup this now) key
         = match inspectEntry this key with
           | Some e => if expired now e then None else Some e
           | None => None
           end)
  /\ stats (cleanup this now) = stats this.
Proof.
  intros N. unfold getKeys in N.
  assert (C : cache (cleanup this now)
              = filter (fun kv => negb (expired now (snd kv))) (cache this)).
  { unfold cleanup. cbn [cache withCache].
    rewrite fold_delete_as_filter by assumption.
    apply filter_ext_in. intros kv I. f_equal. unfold expired.
    destruct (now >? expiresAt (snd kv)) eqn:X.
    - apply existsb_exists. exists (fst kv). split; [|apply streq_refl].
      apply in_map. apply filter_In. now split.
    - destruct (existsb _ _) eqn:Ex; [|reflexivity].
      apply existsb_exists in Ex as (k & Ik & Ek). apply streq_eq in Ek.
      apply in_map_iff in Ik as (kv' & Ekv & Ikv).
      apply filter_In in Ikv as [Ikv X'].
      assert (kv = kv')
        by (apply (same_key_same_entry kv kv' (cache this)); congruence).
      subst kv'. congruence. }
  split; [exact C|]. split; [|reflexivity].
  intros key. unfold inspectEntry. rewrite C.
  rewrite (get_filter (fun e => negb (expired now e))) by assumption.
  destruct (JSMap.get key (cache this)) as [e|]; [|reflexivity].
  now destruct (expired now e).
Qed.

Lemma X18_cleanup_removes_exactly_the_expired_entries_witness :
  getKeys
    (cleanup (run (new None None)
                [OpSet 0 (lit "a") Sample.qrCode (Some 1);
                 OpSet 0 (lit "b") Sample.qrCode (Some 5);
                 OpSet 0 (lit "c") Sample.qrCode (Some 2)]) 3000)
  = [lit "b"].
Proof.
  destruct (X18_cleanup_removes_exactly_the_expired_entries
              (run (new None None)
                 [OpSet 0 (lit "a") Sample.qrCode (Some 1);
                  OpSet 0 (lit "b") Sample.qrCode (Some 5);
                  OpSet 0 (lit "c") Sample.qrCode (Some 2)]) 3000)
    as (C & _).
  - cbn. repeat constructor; cbn; intuition discriminate.
  - unfold getKeys. rewrite C. reflexivity.
Defined.

End RepositoryCalls.

Section RepositoryStatistics.

Import InMemoryCacheRepository.

Lemma countCalls_cons (kind : Op -> bool) (op : Op) (ops : list Op) :
  countCalls kind (op :: ops)
  = (if kind op then 1 else 0) + countCalls kind ops.
Proof.
  unfold countCalls. cbn [filter]. destruct (kind op); cbn [List.length]; lia.
Qed.

Lemma countCalls_nonneg (kind : Op -> bool) (ops : list Op) :
  0 <= countCalls kind ops.
Proof. unfold countCalls. lia. Qed.

Lemma evictOldest_stats (this : t) : stats (evictOldest this) = stats this.
Proof.
  unfold evictOldest. now destruct (fst (scanOldest (cache this))) as [[|? ?]|].
Qed.

Lemma step_stats (this : t) (op : Op) :
  isClear op = false ->
  hits (stats (step this op)) + misses (stats (step this op))
  = hits (stats this) + misses (stats this) + (if isGet op then 1 else 0)
  /\ hits (stats this) <= hits (stats (step this op))
  /\ misses (stats this) <= misses (stats (step this op))
  /\ sets (stats (step this op))
     = sets (stats this) + (if isSet op then 1 else 0)
  /\ deletes (stats this) <= deletes (stats (step this op))
     <= deletes (stats this) + (if isDelete op then 1 else 0).
Proof.
  destruct op as [now key|now key q ttl|key| |now key|now]; cbn [isClear];
    try discriminate; intros _; cbn [step isGet isSet isDelete].
  - unfold get. destruct (JSMap.get key (cache this)) as [e|];
      [destruct (now >? expiresAt e)|]; cbn; lia.
  - unfold set.
    destruct ((JSMap.size (cache this) >=? maxKeys this)
              && negb (JSMap.has key (cache this)));
      cbn [stats withStats withCache hits misses sets deletes];
      rewrite ?evictOldest_stats; lia.
  - unfold delete. destruct (JSMap.has key (cache this)); cbn; lia.
  - unfold exists_. destruct (JSMap.get key (cache this)) as [e|];
      [destruct (now >? expiresAt e)|]; cbn; lia.
  - cbn. lia.
Qed.

(** X19. Between two calls of [clear], the statistics count the calls:
    every [get] adds one to the hits or to the misses, every [set] adds
    one to the sets, a [delete] adds at most one to the deletes, and
    [exists] and [cleanup] add nothing. *)
Theorem X19_statistics_count_the_calls (ops : list Op) :
  forall this : t,
    countCalls isClear ops = 0 ->
    hits (stats (run this ops)) + misses (stats (run this ops))
    = hits (stats this) + misses (stats this) + countCalls isGet ops
    /\ hits (stats this) <= hits (stats (run this ops))
    /\ misses (stats this) <= misses (stats (run this ops))
    /\ sets (stats (run this ops)) = sets (stats this) + countCalls isSet ops
    /\ deletes (stats this) <= deletes (stats (run this ops))
       <= deletes (stats this) + countCalls isDelete ops.
Proof.
  induction ops as [|op ops IH]; intros this Hc.
  - unfold run, countCalls. cbn. lia.
  - rewrite countCalls_cons in Hc.
    pose proof (countCalls_nonneg isClear ops) as Hn.
    assert (Hop : isClear op = false) by (destruct (isClear op); [lia|reflexivity]).
    rewrite Hop in Hc.
    pose proof (step_stats this op Hop) as (S1 & S2 & S3 & S4 & S5).
    change (run this (op :: ops)) with (run (step this op) ops).
    destruct (IH (step this op) ltac:(lia)) as (I1 & I2 & I3 & I4 & I5).
    rewrite !countCalls_cons.
    repeat split; lia.
Qed.

Lemma X19_statistics_count_the_calls_witness :
  hits (stats (run (new None None)
                 [OpSet 0 (lit "a") Sample.qrCode (Some 1);
                  OpGet 500 (lit "a"); OpExists 600 (lit "a");
                  OpGet 2000 (lit "a"); OpGet 2000 (lit "b");
                  OpDelete (lit "b")]))
  + misses (stats (run (new None None)
                     [OpSet 0 (lit "a") Sample.qrCode (Some 1);
                      OpGet 500 (lit "a"); OpExists 600 (lit "a");
                      OpGet 2000 (lit "a"); OpGet 2000 (lit "b");
                      OpDelete (lit "b")]))
  = 3.
Proof.
  destruct (X19_statistics_count_the_calls
              [OpSet 0 (lit "a") Sample.qrCode (Some 1);
               OpGet 500 (lit "a"); OpExists 600 (lit "a");
               OpGet 2000 (lit "a"); OpGet 2000 (lit "b"); OpDelete (lit "b")]
              (new None None) eq_refl) as (H & _).
  exact H.
Defined.

(** X20. [delete] removes the entry of its key and no other: the key is
    not found afterwards, every other key is found as before, and the
    counter of deletes moves by one exactly when the key was there. *)
Theorem X20_delete_removes_one_key (this : t) (key : jsstring) (now : Z) :
  NoDup (getKeys this) ->
  inspectEntry (delete this key) key = None
  /\ fst (get (delete this key) now key) = None
  /\ (forall k, k <> key ->
                inspectEntry (delete this key) k = inspectEntry this k)
  /\ deletes (stats (delete this key))
     = deletes (stats this) + (if JSMap.has key (cache this) then 1 else 0)
  /\ JSMap.size (cache (delete this key))
     = JSMap.size (cache this) - (if JSMap.has key (cache this) then 1 else 0).
Proof.
  intros N. unfold getKeys in N.
  assert (A : inspectEntry (delete this key) key = None).
  { unfold delete, inspectEntry.
    destruct (JSMap.has key (cache this)) eqn:Hh;
      cbn [cache withStats withCache].
    - now apply get_delete_same.
    - unfold JSMap.has in Hh. now destruct (JSMap.get key (cache this)). }
  split; [exact A|]. split; [|split; [|split]].
  - unfold get. unfold inspectEntry in A. now rewrite A.
  - intros k Hk. unfold delete, inspectEntry.
    destruct (JSMap.has key (cache this)); cbn [cache withStats withCache];
      [now apply get_delete_other|reflexivity].
  - unfold delete. destruct (JSMap.has key (cache this)); cbn; lia.
  - unfold delete. destruct (JSMap.has key (cache this)) eqn:Hh;
      cbn [cache withStats withCache]; [|lia].
    apply has_In in Hh. apply length_delete in Hh. unfold JSMap.size. lia.
Qed.

Lemma X20_delete_removes_one_key_witness :
  inspectEntry
    (delete (run (new None None)
               [OpSet 0 (lit "a") Sample.qrCode None;
                OpSet 0 (lit "b") Sample.qrCode None]) (lit "a")) (lit "a")
  = None
  /\ getKeys
       (delete (run (new None None)
                  [OpSet 0 (lit "a") Sample.qrCode None;
                   OpSet 0 (lit "b") Sample.qrCode None]) (lit "a"))
     = [lit "b"].
Proof.
  destruct (X20_delete_removes_one_key
              (run (new None None)
                 [OpSet 0 (lit "a") Sample.qrCode None;
                  OpSet 0 (lit "b") Sample.qrCode None]) (lit "a") 0)
    as (A & _).
  - cbn. repeat constructor; cbn; intuition discriminate.
  - split; [exact A|reflexivity].
Defined.

(** X21. [exists] answers as [get] would: it is true exactly when [get]
    returns an artifact, and it drops an expired entry as [get] does; but
    it leaves the statistics alone. *)
Theorem X21_exists_agrees_with_get (this : t) (now : Z) (key : jsstring) :
  fst (exists_ this now key)
  = match fst (get this now key) with Some _ => true | None => false end
  /\ cache (snd (exists_ this now key)) = cache (snd (get this now key))
  /\ stats (snd (exists_ this now key)) = stats this
  /\ (fst (exists_ this now key) = true ->
      snd (exists_ this now key) = this).
Proof.
  unfold exists_, get.
  destruct (JSMap.get key (cache this)) as [e|];
    [destruct (now >? expiresAt e)|]; cbn; repeat split; discriminate.
Qed.

End RepositoryStatistics.

(* ------------------------------------------------------------------ *)
(** ** Warming the cache *)

Section Warming.
Context {S : Type} {repo : ICacheRepository S}.

Lemma warmLoop_spec (uc : CacheManagementUseCase.t)
  (qrCodes : list CacheManagementUseCase.WarmEntry) :
  forall (successCount : Z) (w : World S),
  exists w',
    CacheManagementUseCase.warmLoop uc qrCodes successCount w
    = (Ok (successCount + fst (warmUp uc qrCodes (repository w))), w')
    /\ repository w' = snd (warmUp uc qrCodes (repository w))
    /\ counters w' = counters w /\ console w' = console w.
Proof.
  induction qrCodes as [|e rest IH]; intros successCount w.
  - exists w. cbn [CacheManagementUseCase.warmLoop warmUp fst snd]. unfold ret.
    rewrite Z.add_0_r. now repeat split.
  - cbn [CacheManagementUseCase.warmLoop warmUp fst snd]. unfold mbind at 1.
    destruct (set_never_throws uc (CacheManagementUseCase.w_now e)
                (CacheManagementUseCase.w_key e)
                (CacheManagementUseCase.w_qrCode e)
                (CacheManagementUseCase.w_ttl e) w)
      as (w1 & E & R & C & K).
    cbv zeta in E. rewrite E.
    destruct (IH (if isOk
                        (fst (repoSet (repository w)
                                (CacheManagementUseCase.w_now e)
                                (CacheManagementUseCase.w_key e)
                                (CacheManagementUseCase.w_qrCode e)
                                (Some (InMemoryCacheRepository.orDefaultTTL
                                         (CacheManagementUseCase.w_ttl e)
                                         (CacheManagementUseCase.defaultTTL uc)))))
                  then successCount + 1 else successCount) w1)
      as (w2 & E2 & R2 & C2 & K2).
    exists w2. rewrite E2, R2, R, C2, K2, C, K.
    split; [|now repeat split]. f_equal. f_equal.
    destruct (isOk _); lia.
Qed.

Lemma warmUp_bounds (uc : CacheManagementUseCase.t)
  (qrCodes : list CacheManagementUseCase.WarmEntry) :
  forall s : S,
    0 <= fst (warmUp uc qrCodes s) <= Z.of_nat (List.length qrCodes).
Proof.
  induction qrCodes as [|e rest IH]; intros s; cbn [warmUp fst List.length].
  - lia.
  - match goal with
    | |- context [warmUp uc rest ?s1] => specialize (IH s1)
    end.
    destruct (isOk _); lia.
Qed.

End Warming.

Lemma warmUp_inMemory (uc : CacheManagementUseCase.t)
  (qrCodes : list CacheManagementUseCase.WarmEntry) :
  forall s : InMemoryCacheRepository.t,
    fst (@warmUp _ inMemory uc qrCodes s) = Z.of_nat (List.length qrCodes).
Proof.
  induction qrCodes as [|e rest IH]; intros s; cbn [warmUp fst List.length].
  - reflexivity.
  - rewrite IH. cbn [repoSet inMemory fst isOk]. lia.
Qed.

(** X22. [warmCache] never throws, whatever the repository does: it
    returns the number of entries whose [set] the repository accepted,
    between 0 and the number of entries given, and leaves the repository
    as those [set] calls left it; the in-memory repository accepts every
    entry, so there it returns the number of entries. *)
Theorem X22_warm_cache_counts_the_accepted_entries (S : Type)
  (repo : ICacheRepository S) (uc : CacheManagementUseCase.t)
  (qrCodes : list CacheManagementUseCase.WarmEntry) (w : World S) :
  (exists w',
      CacheManagementUseCase.warmCache uc qrCodes w
      = (Ok (fst (warmUp uc qrCodes (repository w))), w')
      /\ repository w' = snd (warmUp uc qrCodes (repository w))
      /\ counters w' = counters w /\ console w' = console w)
  /\ 0 <= fst (warmUp uc qrCodes (repository w))
     <= Z.of_nat (List.length qrCodes)
  /\ (forall s : InMemoryCacheRepository.t,
         fst (@warmUp _ inMemory uc qrCodes s)
         = Z.of_nat (List.length qrCodes)).
Proof.
  split; [|split; [apply warmUp_bounds|apply warmUp_inMemory]].
  unfold CacheManagementUseCase.warmCache, mbind, logLine, ret.
  cbn [repository].
  match goal with
  | |- context [CacheManagementUseCase.warmLoop uc qrCodes 0 ?w0] =>
      destruct (warmLoop_spec uc qrCodes 0 w0) as (w1 & E & R & C & K)
  end.
  cbn [repository counters console] in *. rewrite E.
  eexists. split; [reflexivity|]. cbn [repository counters console].
  now repeat split.
Qed.

(* ------------------------------------------------------------------ *)
(** ** The rate limiter *)

Section RateLimit.

Import ValidationMiddleware.

Lemma get_filter_keep (p : ClientData -> bool) (k : jsstring) (v : ClientData)
  (m : list (jsstring * ClientData)) :
  JSMap.get k m = Some v -> p v = true ->
  JSMap.get k (filter (fun kv => p (snd kv)) m) = Some v.
Proof.
  induction m as [|[k0 v0] m IH]; cbn [JSMap.get filter snd]; [discriminate|].
  destruct (streq k0 k) eqn:E.
  - intros [= ->] Hp. rewrite Hp. cbn [JSMap.get]. now rewrite E.
  - intros G Hp. destruct (p v0); cbn [JSMap.get]; [rewrite E|]; now apply IH.
Qed.

Lemma get_filter_none (p : jsstring * ClientData -> bool) (k : jsstring)
  (m : list (jsstring * ClientData)) :
  JSMap.get k m = None -> JSMap.get k (filter p m) = None.
Proof.
  induction m as [|[k0 v0] m IH]; cbn [JSMap.get filter]; [reflexivity|].
  destruct (streq k0 k) eqn:E; [discriminate|].
  intros G. destruct (p (k0, v0)); cbn [JSMap.get]; [rewrite E|]; now apply IH.
Qed.

Lemma rateLimit_other (options : Options)
  (requests : list (jsstring * ClientData)) (clientId client : jsstring)
  (now : Z) :
  client <> clientId ->
  JSMap.get client (snd (rateLimit options requests clientId now))
  = JSMap.get client
      (filter (fun kv => negb (resetTime (snd kv) <? now - windowMs options))
         requests).
Proof.
  intros Hne. unfold rateLimit.
  destruct (JSMap.get clientId _) as [cd0|];
    [destruct (resetTime cd0 <? now - windowMs options)|];
    match goal with
    | |- context [count ?c >=? maxRequests options] =>
        destruct (count c >=? maxRequests options)
    end; cbn [snd]; now rewrite ?get_set_other by exact Hne.
Qed.

(** One call, seen from a client whose entry, if any, outlives the call. *)
Lemma rateLimit_step (options : Options)
  (requests : list (jsstring * ClientData)) (clientId client : jsstring)
  (now t0 : Z) :
  t0 <= now <= t0 + 2 * windowMs options ->
  match JSMap.get client requests with
  | Some cd => t0 + windowMs options <= resetTime cd
  | None => True
  end ->
  let r := rateLimit options requests clientId now in
  let before :=
    match JSMap.get client requests with
    | Some cd => Z.max 0 (maxRequests options - count cd)
    | None => Z.max 0 (maxRequests options)
    end in
  match JSMap.get client (snd r) with
  | Some cd' =>
      t0 + windowMs options <= resetTime cd'
      /\ (if streq clientId client && passed (fst r) then 1 else 0)
         + Z.max 0 (maxRequests options - count cd')
         <= before
  | None =>
      (if streq clientId client && passed (fst r) then 1 else 0)
      + Z.max 0 (maxRequests options)
      <= before
  end.
Proof.
  intros Hnow Hinv. cbv zeta.
  assert (Hclean : JSMap.get client
                     (filter
                        (fun kv =>
                           negb (resetTime (snd kv) <? now - windowMs options))
                        requests)
                   = JSMap.get client requests).
  { destruct (JSMap.get client requests) as [cd|] eqn:G.
    - apply (get_filter_keep
               (fun v => negb (resetTime v <? now - windowMs options))); auto.
      apply negb_true_iff, Z.ltb_ge. lia.
    - now apply get_filter_none. }
  destruct (streq clientId client) eqn:Ec.
  - apply streq_eq in Ec. subst clientId. unfold rateLimit. rewrite Hclean.
    destruct (JSMap.get client requests) as [cd|] eqn:G.
    + replace (resetTime cd <? now - windowMs options) with false
        by (symmetry; apply Z.ltb_ge; lia).
      destruct (count cd >=? maxRequests options) eqn:Eb;
        rewrite Z.geb_leb in Eb; bools;
        cbn [fst snd passed andb].
      * rewrite Hclean. split; [exact Hinv|lia].
      * rewrite get_set_same. cbn [count resetTime]. split; [exact Hinv|lia].
    + destruct (count (mkClient 0 (now + windowMs options))
                >=? maxRequests options) eqn:Eb;
        rewrite Z.geb_leb in Eb; bools; cbn [count resetTime] in *;
        cbn [fst snd passed andb]; rewrite get_set_same;
        cbn [count resetTime]; split; lia.
  - assert (Hne : client <> clientId).
    { intros <-. now rewrite streq_refl in Ec. }
    cbn [andb]. rewrite rateLimit_other by exact Hne. rewrite Hclean.
    destruct (JSMap.get client requests) as [cd|]; [split; [exact Hinv|]|]; lia.
Qed.

Lemma passedCalls_bound (options : Options) (client : jsstring) (t0 : Z)
  (calls : list (jsstring * Z)) :
  forall requests : list (jsstring * ClientData),
    (forall c now, In (c, now) calls ->
                   t0 <= now <= t0 + 2 * windowMs options) ->
    match JSMap.get client requests with
    | Some cd => t0 + windowMs options <= resetTime cd
    | None => True
    end ->
    passedCalls options requests calls client
    <= match JSMap.get client requests with
       | Some cd => Z.max 0 (maxRequests options - count cd)
       | None => Z.max 0 (maxRequests options)
       end.
Proof.
  induction calls as [|[c now] calls IH]; intros requests Ht Hinv.
  - cbn [passedCalls]. destruct (JSMap.get client requests); lia.
  - cbn [passedCalls].
    pose proof (rateLimit_step options requests c client now t0
                  (Ht c now (or_introl eq_refl)) Hinv) as Hs.
    cbv zeta in Hs.
    specialize (IH (snd (rateLimit options requests c now))
                  (fun c' now' I => Ht c' now' (or_intror I))).
    destruct (JSMap.get client (snd (rateLimit options requests c now)))
      as [cd'|].
    + destruct Hs as [Hr Hb]. specialize (IH Hr). lia.
    + specialize (IH I). lia.
Qed.

End RateLimit.

(** X23. The rate limiter lets a client that it does not know pass at
    most [maxRequests] times during the two windows that follow: its
    counter is created by the first call and is dropped only when a call
    comes more than one window after the reset time, that is more than two
    windows after that first call.  Calls of other clients in between do
    not change the count. *)
Theorem X23_rate_limit_bounds_a_new_client
  (options : ValidationMiddleware.Options)
  (requests : list (jsstring * ValidationMiddleware.ClientData))
  (calls : list (jsstring * Z)) (client : jsstring) (t0 : Z) :
  JSMap.get client requests = None ->
  (forall c now, In (c, now) calls ->
                 t0 <= now <= t0 + 2 * ValidationMiddleware.windowMs options) ->
  passedCalls options requests calls client
  <= Z.max 0 (ValidationMiddleware.maxRequests options).
Proof.
  intros G Ht.
  pose proof (passedCalls_bound options client t0 calls requests Ht) as H.
  rewrite G in H. now apply H.
Qed.

Lemma X23_rate_limit_bounds_a_new_client_witness :
  passedCalls (ValidationMiddleware.mkOptions 1000 2) []
    [(lit "a", 0); (lit "a", 10); (lit "b", 20); (lit "a", 1500);
     (lit "a", 2000)] (lit "a")
  <= Z.max 0 2.
Proof.
  apply (X23_rate_limit_bounds_a_new_client
           (ValidationMiddleware.mkOptions 1000 2) []
           [(lit "a", 0); (lit "a", 10); (lit "b", 20); (lit "a", 1500);
            (lit "a", 2000)] (lit "a") 0).
  - reflexivity.
  - intros c now I. cbn [ValidationMiddleware.windowMs].
    repeat (destruct I as [[= <- <-]|I]; [lia|]). contradiction.
Defined.

(* ------------------------------------------------------------------ *)
(** ** The controller *)

(** X24. The handler of the endpoint never throws and answers with one
    of three statuses.  Without a non-empty [data] parameter it answers
    400 [MISSING_REQUIRED_PARAMETER] and does not reach the use case; a
    request that fails validation gets 400 with the validation errors and
    leaves the repository untouched; a valid request gets 200 with the
    image and the header [X-Cache-Status], or 422 with
    [GENERATION_ERROR].  The statuses 404, 429 and 500 are never sent, and
    the logo parameters are never passed to the use case. *)
Theorem X24_controller_answers_200_400_or_422 (P : Platform) (S : Type)
  (repo : ICacheRepository S) (gen : IQRCodeGenerator)
  (uc : CacheManagementUseCase.t) (now : Z) (req : QRCodeController.Request)
  (w : World S) :
  exists res w',
    QRCodeController.generateQRCode uc now req w = (Ok res, w')
    /\ match
         ValidateParametersUseCase.present
           (ValidateParametersUseCase.data
              (QRCodeController.extractRequestData req))
       with
       | None =>
           res
           = QRCodeController.mkResponse 400 []
               (QRCodeController.ControllerError
                  (lit "MISSING_REQUIRED_PARAMETER")
                  (lit "The " ++ [34] ++ lit "data" ++ [34]
                   ++ lit " parameter is required"))
           /\ repository w' = repository w
       | Some _ =>
           if ValidationResult.isValid
                (ValidateParametersUseCase.execute
                   (QRCodeController.extractRequestData req))
           then (QRCodeController.status res = 200
                 /\ exists image,
                     QRCodeController.responseBody res
                     = QRCodeController.Image image
                     /\ (In (lit "X-Cache-Status", lit "HIT")
                           (QRCodeController.headers res)
                         \/ In (lit "X-Cache-Status", lit "MISS")
                              (QRCodeController.headers res)))
                \/ (QRCodeController.status res = 422
                    /\ exists e,
                        QRCodeController.responseBody res
                        = QRCodeController.UseCaseError (Some e)
                        /\ GenerateQRCodeUseCase.re_code e
                           = lit "GENERATION_ERROR")
           else QRCodeController.status res = 400
                /\ QRCodeController.responseBody res
                   = QRCodeController.UseCaseError
                       (Some (GenerateQRCodeUseCase.mkRespError
                                (lit "VALIDATION_ERROR")
                                (lit "Invalid input parameters")
                                (GenerateQRCodeUseCase.ValidationDetails
                                   (ValidationResult.getErrors
                                      (ValidateParametersUseCase.execute
                                         (QRCodeController.extractRequestData
                                            req))))))
                /\ repository w' = repository w
       end
    /\ (QRCodeController.status res = 200 \/ QRCodeController.status res = 400
        \/ QRCodeController.status res = 422)
    /\ ValidateParametersUseCase.logo (QRCodeController.extractRequestData req)
       = None.
Proof.
  assert (L : ValidateParametersUseCase.logo
                (QRCodeController.extractRequestData req) = None).
  { unfold QRCodeController.extractRequestData.
    destruct (streq (QRCodeController.method req) (lit "GET")
              || streq (QRCodeController.method req) (lit "HEAD"));
      [destruct (QRCodeController.query req)
      |destruct (QRCodeController.body req)]; reflexivity. }
  unfold QRCodeController.generateQRCode, tryCatch, mbind, logLine,
    incrementCounter, ret.
  set (request := QRCodeController.extractRequestData req) in *.
  destruct (ValidateParametersUseCase.present
              (ValidateParametersUseCase.data request)) as [d|].
  2:{ do 2 eexists. split; [reflexivity|]. cbn -[lit]. auto 6. }
  match goal with
  | |- context [GenerateQRCodeUseCase.execute uc now request ?w0] =>
      destruct (execute_spec uc now request w0) as (resp & w1 & E & H);
      rewrite E
  end.
  cbn [repository] in H.
  destruct H as [(V & -> & R & _)
                |[(V & e & _ & -> & R & _)|(V & c & ws & _ & _ & H)]];
    rewrite V.
  - cbn -[lit]. do 2 eexists. split; [reflexivity|]. cbn -[lit].
    split; [|auto]. now repeat split.
  - cbn -[lit errorMessage]. do 2 eexists. split; [reflexivity|].
    cbn -[lit errorMessage]. split; [|auto]. right. split; [reflexivity|].
    eexists. split; reflexivity.
  - cbv zeta in H.
    destruct H as [(cached & _ & -> & _)
                  |(_ & [(q & _ & -> & _)|(e & _ & -> & _)])].
    + cbn -[lit intToString]. do 2 eexists. split; [reflexivity|].
      cbn -[lit intToString]. split; [|auto]. left. split; [reflexivity|].
      eexists. split; [reflexivity|]. left. cbn -[lit]. auto.
    + cbn -[lit intToString]. do 2 eexists. split; [reflexivity|].
      cbn -[lit intToString]. split; [|auto]. left. split; [reflexivity|].
      eexists. split; [reflexivity|]. right. cbn -[lit]. auto.
    + cbn -[lit exceptionMessage]. do 2 eexists. split; [reflexivity|].
      cbn -[lit exceptionMessage]. split; [|auto]. right.
      split; [reflexivity|]. eexists. split; reflexivity.
Qed.

(* ------------------------------------------------------------------ *)
(** ** Validation and construction on the two colours *)

Section Colours.
Context {P : Platform}.
Import ValidateParametersUseCase ValidationResult.

(** What a built configuration holds for the two colours, and when it is
    built with a warning. *)
Lemma buildConfiguration_colors (request : QRCodeRequestDTO)
  (c : QRCodeConfiguration.t) (warnings : list jsstring) :
  GenerateQRCodeUseCase.buildConfiguration request = Ok (c, warnings) ->
  match present (color request) with
  | Some s => ColorValue.create s = Ok (QRCodeConfiguration.foregroundColor c)
  | None => QRCodeConfiguration.foregroundColor c = ColorValue.black
  end
  /\ match present (bgcolor request) with
     | Some s => ColorValue.create s = Ok (QRCodeConfiguration.backgroundColor c)
     | None => QRCodeConfiguration.backgroundColor c = ColorValue.white
     end
  /\ warnings
     = if ColorValue.hasAccessibleContrast
            (QRCodeConfiguration.foregroundColor c)
            (QRCodeConfiguration.backgroundColor c)
       then [] else [QRCodeConfiguration.contrastWarning].
Proof.
  unfold GenerateQRCodeUseCase.buildConfiguration.
  destruct (DataPayload.create _) as [payload|]; [|discriminate]. cbn [bind].
  match goal with
  | |- context [bind ?m _] => destruct m as [sz|]; [|discriminate]
  end. cbn [bind].
  match goal with
  | |- context [bind ?m _] => destruct m as [fm|]; [|discriminate]
  end. cbn [bind].
  match goal with
  | |- context [bind ?m _] => destruct m as [ec|]; [|discriminate]
  end. cbn [bind].
  match goal with
  | |- context [bind ?m _] => destruct m as [fg|] eqn:Efg; [|discriminate]
  end. cbn [bind].
  match goal with
  | |- context [bind ?m _] => destruct m as [bg|] eqn:Ebg; [|discriminate]
  end. cbn [bind].
  match goal with
  | |- context [bind ?m _] => destruct m as [lg|]; [|discriminate]
  end. cbn [bind].
  unfold QRCodeConfiguration.new.
  cbn [QRCodeConfiguration.p_data QRCodeConfiguration.p_size
       QRCodeConfiguration.p_format QRCodeConfiguration.p_errorCorrectionLevel
       QRCodeConfiguration.p_foregroundColor
       QRCodeConfiguration.p_backgroundColor QRCodeConfiguration.p_margin
       QRCodeConfiguration.p_quietZone QRCodeConfiguration.p_charsetSource
       QRCodeConfiguration.p_charsetTarget QRCodeConfiguration.orDefault].
  destruct (QRCodeConfiguration.validateMargin _) as [mz|]; [|discriminate].
  cbn [bind].
  destruct (QRCodeConfiguration.validateQuietZone _) as [qz|]; [|discriminate].
  cbn [bind].
  unfold QRCodeConfiguration.validateConfiguration.
  cbn [QRCodeConfiguration.data QRCodeConfiguration.charsetSource
       QRCodeConfiguration.charsetTarget QRCodeConfiguration.foregroundColor
       QRCodeConfiguration.backgroundColor].
  destruct (negb (DataPayload.isCompatibleWithCharset _ _)); [discriminate|].
  destruct (negb (includes _ _)); [discriminate|].
  destruct (negb (includes _ _)); [discriminate|].
  destruct (ColorValue.hasAccessibleContrast fg bg) eqn:Hc; cbn [negb bind];
    intros [= <- <-];
    cbn [QRCodeConfiguration.foregroundColor
         QRCodeConfiguration.backgroundColor];
    rewrite Hc;
    (split; [|split; [|reflexivity]]).
  all: try (destruct (present (color request));
            [exact Efg|now injection Efg as <-]).
  all: destruct (present (bgcolor request));
    [exact Ebg|now injection Ebg as <-].
Qed.

(** X25. Through the use case a low contrast is an error when both
    colours are given and a warning otherwise: a request that gives both
    colours and passes the validation is built without a warning, so a
    configuration is built with the contrast warning only when the
    foreground or the background colour was left to its default. *)
Theorem X25_contrast_warning_needs_a_default_colour
  (request : QRCodeRequestDTO) (c : QRCodeConfiguration.t)
  (warnings : list jsstring) :
  isValid (ValidateParametersUseCase.execute request) = true ->
  GenerateQRCodeUseCase.buildConfiguration request = Ok (c, warnings) ->
  (warnings = [] \/ warnings = [QRCodeConfiguration.contrastWarning])
  /\ (warnings <> [] ->
      present (color request) = None \/ present (bgcolor request) = None)
  /\ (present (color request) <> None -> present (bgcolor request) <> None ->
      ColorValue.hasAccessibleContrast (QRCodeConfiguration.foregroundColor c)
        (QRCodeConfiguration.backgroundColor c) = true).
Proof.
  intros V B.
  destruct (buildConfiguration_colors request c warnings B) as (Hfg & Hbg & Hw).
  assert (A : forallb isValid (fieldChecks request) = true).
  { rewrite execute_accumulates in V.
    apply (failingErrors_nil _ (fieldChecks_wellFormed request)).
    destruct (failingErrors (fieldChecks request)); [reflexivity|discriminate]. }
  unfold fieldChecks in A. cbv zeta in A. rewrite !forallb_app in A.
  do 11 (apply andb_prop in A as [_ A]). apply andb_prop in A as [Hcontrast _].
  assert (K : present (color request) <> None ->
              present (bgcolor request) <> None ->
              ColorValue.hasAccessibleContrast
                (QRCodeConfiguration.foregroundColor c)
                (QRCodeConfiguration.backgroundColor c) = true).
  { intros N1 N2.
    destruct (present (color request)) as [s1|]; [|contradiction].
    destruct (present (bgcolor request)) as [s2|]; [|contradiction].
    cbn [both whenPresent forallb fst snd] in Hcontrast.
    rewrite andb_true_r in Hcontrast.
    unfold validateColorContrast in Hcontrast. rewrite Hfg, Hbg in Hcontrast.
    now destruct (ColorValue.hasAccessibleContrast _ _). }
  split; [|split; [|exact K]].
  - rewrite Hw. destruct (ColorValue.hasAccessibleContrast _ _); auto.
  - intros Nw.
    destruct (present (color request)) as [s1|]; [|now left].
    destruct (present (bgcolor request)) as [s2|]; [|now right].
    rewrite K in Hw by discriminate. contradiction.
Qed.

End Colours.

Lemma X25_contrast_warning_needs_a_default_colour_witness :
  @GenerateQRCodeUseCase.buildConfiguration Sample.platform
    (ValidateParametersUseCase.mkRequest (Some (lit "hello")) None None None
       (Some (lit "#ffffff")) None None None None None None None None)
  = Ok (QRCodeConfiguration.mk (DataPayload.mk (lit "hello")) Size.default
          OutputFormatValue.PNG ErrorCorrectionLevelValue.LOW ColorValue.white
          ColorValue.white 1 0 (lit "UTF-8") (lit "UTF-8"),
        [QRCodeConfiguration.contrastWarning])
  /\ ([QRCodeConfiguration.contrastWarning] <> [] ->
      ValidateParametersUseCase.present (Some (lit "#ffffff")) = None
      \/ ValidateParametersUseCase.present (@None jsstring) = None).
Proof.
  split; [reflexivity|].
  apply (@X25_contrast_warning_needs_a_default_colour Sample.platform
           (ValidateParametersUseCase.mkRequest (Some (lit "hello")) None None
              None (Some (lit "#ffffff")) None None None None None None None
              None)
           (QRCodeConfiguration.mk (DataPayload.mk (lit "hello")) Size.default
              OutputFormatValue.PNG ErrorCorrectionLevelValue.LOW
              ColorValue.white ColorValue.white 1 0 (lit "UTF-8")
              (lit "UTF-8"))
           [QRCodeConfiguration.contrastWarning]); reflexivity.
Defined.

(* ------------------------------------------------------------------ *)
(** ** Which check an error comes from *)

Section Attribution.
Context {P : Platform}.
Import ValidateParametersUseCase ValidationResult.

Lemma blamed_app (f : jsstring) (a b : list ValidationResult.t) :
  existsb (fun e => streq (field e) f) (failingErrors (a ++ b))
  = existsb (fun e => streq (field e) f) (failingErrors a)
    || existsb (fun e => streq (field e) f) (failingErrors b).
Proof. now rewrite failingErrors_app, existsb_app. Qed.

Lemma blamed_whenPresent {A : Type} (f : jsstring) (o : option A)
  (check : A -> ValidationResult.t) :
  (forall a, existsb (fun e => streq (field e) f) (failingErrors [check a])
             = false) ->
  existsb (fun e => streq (field e) f) (failingErrors (whenPresent o check))
  = false.
Proof. intros H. destruct o as [a|]; [apply H|reflexivity]. Qed.

Ltac not_blamed :=
  repeat match goal with
    | |- existsb _ (failingErrors [single _]) = false => reflexivity
    | |- existsb _ (failingErrors [success]) = false => reflexivity
    | |- existsb _ (failingErrors [match ?x with _ => _ end]) = false =>
        destruct x
    | |- existsb _ (failingErrors [if ?x then _ else _]) = false => destruct x
    end.

Lemma hasErrorForField_execute (request : QRCodeRequestDTO) (f : jsstring) :
  hasErrorForField (ValidateParametersUseCase.execute request) f
  = existsb (fun e => streq (field e) f) (failingErrors (fieldChecks request)).
Proof.
  rewrite execute_accumulates. unfold hasErrorForField.
  now destruct (failingErrors (fieldChecks request)).
Qed.

(** X26. The validation reports an error for the field [logo_size]
    exactly when the request gives a logo, a size and a non-zero logo
    size, the size can be read, and the logo size exceeds three tenths of
    the smaller dimension.  No other check blames that field, and without
    an explicit logo size the rule is not applied. *)
Theorem X26_logo_size_rule (request : QRCodeRequestDTO) :
  hasErrorForField (ValidateParametersUseCase.execute request)
    (lit "logo_size") = true
  <-> exists (l s : jsstring) (n : number) (sz : Size.t),
      present (logo request) = Some l /\ present (size request) = Some s
      /\ presentNumber (logo_size request) = Some n
      /\ Size.fromString s = Ok sz
      /\ exceedsThreeTenths n (Z.min (Size.width sz) (Size.height sz)) = true.
Proof.
  rewrite hasErrorForField_execute.
  unfold fieldChecks. cbv zeta. rewrite !blamed_app.
  replace (existsb (fun e => streq (field e) (lit "logo_size"))
             (failingErrors [validateData (data request)])) with false
    by (symmetry; unfold validateData; not_blamed).
  do 11 (rewrite blamed_whenPresent
           by (intros a; cbv beta;
               unfold validateSize, validateFormat,
                 validateErrorCorrectionLevel, validateColor, validateMargin,
                 validateQuietZone, validateCharset, validateLogo,
                 validateColorContrast;
               not_blamed)).
  cbn [orb].
  destruct (present (logo request)) as [l|]; cbn [both].
  2:{ cbn. split; [discriminate|]. now intros (? & ? & ? & ? & ? & _). }
  destruct (present (size request)) as [s|]; cbn [both].
  2:{ cbn. split; [discriminate|]. now intros (? & ? & ? & ? & _ & ? & _). }
  destruct (presentNumber (logo_size request)) as [n|]; cbn [both].
  2:{ cbn. split; [discriminate|]. now intros (? & ? & ? & ? & _ & _ & ? & _). }
  cbn [whenPresent fst snd]. unfold validateLogoSizeRelativeToQR.
  destruct (Size.fromString s) as [sz|e] eqn:F.
  - cbv zeta.
    match goal with
    | |- existsb ?p (failingErrors [if ?b then ?x else ?y]) = true <-> _ =>
        replace (existsb p (failingErrors [if b then x else y])) with b
          by (destruct b; reflexivity)
    end.
    split.
    + intros X. now exists l, s, n, sz.
    + intros (l' & s' & n' & sz' & _ & [= <-] & [= <-] & F' & X).
      rewrite F in F'. now injection F' as <-.
  - split; [discriminate|].
    intros (l' & s' & n' & sz' & _ & [= <-] & _ & F' & _).
    rewrite F in F'. discriminate.
Qed.

End Attribution.

(* ------------------------------------------------------------------ *)
(** ** What a cache hit returns *)

Section Coherence.
Context {P : Platform} {gen : IQRCodeGenerator}.

Lemma Forall_set {V : Type} (Q : jsstring * V -> Prop) (k : jsstring) (v : V)
  (m : list (jsstring * V)) :
  Forall Q m -> Q (k, v) -> Forall Q (JSMap.set k v m).
Proof.
  intros F Hq. induction F as [|[k0 v0] m H0 F IH]; cbn [JSMap.set].
  - now repeat constructor.
  - destruct (streq k0 k) eqn:E.
    + apply streq_eq in E. subst k0. now constructor.
    + now constructor.
Qed.

Lemma Forall_delete {V : Type} (Q : jsstring * V -> Prop) (k : jsstring)
  (m : list (jsstring * V)) :
  Forall Q m -> Forall Q (JSMap.delete k m).
Proof.
  intros F. induction F as [|[k0 v0] m H0 F IH]; cbn [JSMap.delete].
  - constructor.
  - destruct (streq k0 k); [exact F|now constructor].
Qed.

Lemma get_holdsGenerated (s : InMemoryCacheRepository.t) (now : Z)
  (key : jsstring) :
  holdsGenerated (InMemoryCacheRepository.cache s) ->
  holdsGenerated
    (InMemoryCacheRepository.cache (snd (InMemoryCacheRepository.get s now key)))
  /\ (forall cached,
         fst (InMemoryCacheRepository.get s now key) = Some cached ->
         exists (t : Z) (configuration : QRCodeConfiguration.t),
           generate t configuration = Ok cached
           /\ QRCodeConfiguration.getHashKey configuration = key).
Proof.
  intros H. unfold InMemoryCacheRepository.get.
  destruct (JSMap.get key (InMemoryCacheRepository.cache s)) as [e|] eqn:G.
  - pose proof (proj1 (Forall_forall _ _) H (key, e) (get_In key _ e G)) as Q.
    destruct (now >? InMemoryCacheRepository.expiresAt e);
      cbn [fst snd InMemoryCacheRepository.cache
           InMemoryCacheRepository.withStats InMemoryCacheRepository.withCache].
    + split; [now apply Forall_delete|discriminate].
    + split; [exact H|]. intros cached [= <-]. exact Q.
  - cbn [fst snd InMemoryCacheRepository.cache
         InMemoryCacheRepository.withStats]. split; [exact H|discriminate].
Qed.

Lemma set_holdsGenerated (s : InMemoryCacheRepository.t) (now : Z)
  (configuration : QRCodeConfiguration.t) (q : QRCode.t) (ttl : option Z) :
  holdsGenerated (InMemoryCacheRepository.cache s) ->
  generate now configuration = Ok q ->
  holdsGenerated
    (InMemoryCacheRepository.cache
       (InMemoryCacheRepository.set s now
          (QRCodeConfiguration.getHashKey configuration) q ttl)).
Proof.
  intros H G. unfold InMemoryCacheRepository.set.
  cbn [InMemoryCacheRepository.cache InMemoryCacheRepository.withStats
       InMemoryCacheRepository.withCache].
  apply Forall_set.
  - destruct (_ && _); [|exact H].
    unfold InMemoryCacheRepository.evictOldest.
    destruct (fst (InMemoryCacheRepository.scanOldest _)) as [[|? ?]|];
      try exact H.
    cbn [InMemoryCacheRepository.cache InMemoryCacheRepository.withCache].
    now apply Forall_delete.
  - cbn [fst snd InMemoryCacheRepository.qrCode]. now exists now, configuration.
Qed.

Lemma execute_holdsGenerated (uc : CacheManagementUseCase.t) (now : Z)
  (request : ValidateParametersUseCase.QRCodeRequestDTO)
  (w : World InMemoryCacheRepository.t) :
  holdsGenerated (InMemoryCacheRepository.cache (repository w)) ->
  holdsGenerated
    (InMemoryCacheRepository.cache
       (repository (snd (GenerateQRCodeUseCase.execute uc now request w)))).
Proof.
  intros H.
  destruct (@execute_spec P _ inMemory gen uc now request w)
    as (resp & w' & E & Hs).
  rewrite E. cbn [snd].
  destruct Hs as [(_ & _ & -> & _)|[(_ & e & _ & _ & -> & _)
                                   |(_ & c & ws & _ & _ & Hs)]];
    [exact H|exact H|].
  cbv zeta in Hs. rewrite inMemory_get in Hs. cbn [fst snd] in Hs.
  destruct (get_holdsGenerated (repository w) now
              (QRCodeConfiguration.getHashKey c) H) as [Hg _].
  destruct Hs as [(cached & _ & _ & -> & _)
                 |(_ & [(q & G & _ & -> & _)|(e & _ & _ & -> & _)])].
  - exact Hg.
  - cbn [repoSet inMemory snd]. now apply set_holdsGenerated.
  - exact Hg.
Qed.

Lemma serveAll_holdsGenerated (uc : CacheManagementUseCase.t)
  (calls : list (Z * ValidateParametersUseCase.QRCodeRequestDTO)) :
  forall w : World InMemoryCacheRepository.t,
    holdsGenerated (InMemoryCacheRepository.cache (repository w)) ->
    holdsGenerated
      (InMemoryCacheRepository.cache (repository (serveAll uc calls w))).
Proof.
  induction calls as [|[now request] calls IH]; intros w H; [exact H|].
  unfold serveAll in *. cbn [fold_left fst snd].
  apply IH. now apply execute_holdsGenerated.
Qed.

End Coherence.

(** X27. A cache hit never invents an image.  When requests have been
    served from a new in-memory repository and a further request is
    answered from the cache, the image and identifier it returns are those
    of an artifact that the generator returned earlier for a configuration
    with the same hash key; and that configuration is the one of the
    request whenever both are valid with well-formed payloads. *)
Theorem X27_a_hit_returns_what_the_generator_made (P : Platform)
  (gen : IQRCodeGenerator) (uc : CacheManagementUseCase.t)
  (maxKeys defaultTTL : option Z)
  (calls : list (Z * ValidateParametersUseCase.QRCodeRequestDTO))
  (now : Z) (request : ValidateParametersUseCase.QRCodeRequestDTO)
  (w0 w' : World InMemoryCacheRepository.t)
  (resp : GenerateQRCodeUseCase.QRCodeResponseDTO) :
  repository w0 = InMemoryCacheRepository.new maxKeys defaultTTL ->
  @GenerateQRCodeUseCase.execute P _ inMemory gen uc now request
    (@serveAll P _ inMemory gen uc calls w0)
  = (Ok resp, w') ->
  GenerateQRCodeUseCase.cacheStatus resp = GenerateQRCodeUseCase.hit ->
  exists (configuration : QRCodeConfiguration.t) (warnings : list jsstring)
         (t : Z) (made : QRCodeConfiguration.t) (qrCode : QRCode.t),
    GenerateQRCodeUseCase.buildConfiguration request
    = Ok (configuration, warnings)
    /\ @generate gen t made = Ok qrCode
    /\ QRCodeConfiguration.getHashKey made
       = QRCodeConfiguration.getHashKey configuration
    /\ resp
       = GenerateQRCodeUseCase.respond configuration qrCode true
           GenerateQRCodeUseCase.hit
    /\ (validConfiguration made -> validConfiguration configuration ->
        made = configuration).
Proof.
  intros Hnew E Hhit.
  assert (H : @holdsGenerated gen
                (InMemoryCacheRepository.cache
                   (repository (@serveAll P _ inMemory gen uc calls w0)))).
  { apply serveAll_holdsGenerated. rewrite Hnew. constructor. }
  destruct (@execute_spec P _ inMemory gen uc now request
              (@serveAll P _ inMemory gen uc calls w0))
    as (resp' & w2 & E' & Hs).
  rewrite E in E'. injection E' as <- <-.
  destruct Hs as [(_ & -> & _)|[(_ & e & _ & -> & _)|(_ & c & ws & B & _ & Hs)]];
    try discriminate.
  cbv zeta in Hs. rewrite inMemory_get in Hs. cbn [fst snd] in Hs.
  destruct Hs as [(cached & [= L] & -> & _)
                 |(_ & [(q & _ & -> & _)|(e & _ & -> & _)])];
    try discriminate.
  destruct (get_holdsGenerated _ now (QRCodeConfiguration.getHashKey c) H)
    as [_ Hg].
  destruct (Hg cached L) as (t & made & G & K).
  exists c, ws, t, made, cached. repeat split; auto.
  intros V1 V2. apply components_inj; auto. now apply hashed_text_inj.
Qed.

Lemma X27_a_hit_returns_what_the_generator_made_witness :
  exists (configuration : QRCodeConfiguration.t) (warnings : list jsstring)
         (t : Z) (made : QRCodeConfiguration.t) (qrCode : QRCode.t),
    @GenerateQRCodeUseCase.buildConfiguration Sample.platform
      Sample.simpleRequest
    = Ok (configuration, warnings)
    /\ @generate Sample.generator t made = Ok qrCode
    /\ QRCodeConfiguration.getHashKey made
       = QRCodeConfiguration.getHashKey configuration.
Proof.
  destruct (X27_a_hit_returns_what_the_generator_made Sample.platform
              Sample.generator Sample.useCase None None
              [(0, Sample.complexRequest); (5, Sample.simpleRequest)] 10
              Sample.simpleRequest Sample.emptyWorld
              (snd (@GenerateQRCodeUseCase.execute Sample.platform _ inMemory
                      Sample.generator Sample.useCase 10 Sample.simpleRequest
                      (@serveAll Sample.platform _ inMemory Sample.generator
                         Sample.useCase
                         [(0, Sample.complexRequest); (5, Sample.simpleRequest)]
                         Sample.emptyWorld)))
              (@GenerateQRCodeUseCase.respond Sample.platform
                 Sample.configuration
                 (QRCode.mk (lit "id") 5 Sample.configuration [137; 80; 78; 71])
                 true GenerateQRCodeUseCase.hit))
    as (c & ws & t & made & q & B & G & K & _).
  - reflexivity.
  - vm_compute. reflexivity.
  - reflexivity.
  - exists c, ws, t, made, q. repeat split; assumption.
Defined.

(* ------------------------------------------------------------------ *)
(** ** The texts that [Size.fromString] accepts *)

Lemma takeDigits_spec (s : jsstring) :
  forall d rest,
    Size.takeDigits s = (d, rest) ->
    s = d ++ rest /\ forallb Size.isDigit d = true.
Proof.
  induction s as [|c s IH]; intros d rest; cbn [Size.takeDigits].
  - now intros [= <- <-].
  - destruct (Size.isDigit c) eqn:D.
    + destruct (Size.takeDigits s) as [d' rest'].
      intros [= <- <-]. destruct (IH d' rest' eq_refl) as [-> F].
      split; [reflexivity|]. cbn [forallb]. now rewrite D.
    + now intros [= <- <-].
Qed.

Lemma matchWxH_spec (s w h : jsstring) :
  Size.matchWxH s = Some (w, h) ->
  exists sep,
    s = w ++ sep :: h /\ forallb Size.isDigit w = true
    /\ forallb Size.isDigit h = true /\ w <> [] /\ h <> []
    /\ (sep = 120 \/ sep = 88).
Proof.
  unfold Size.matchWxH.
  destruct (Size.takeDigits s) as [dw rest] eqn:T1.
  destruct (takeDigits_spec s dw rest T1) as [-> F1].
  destruct dw as [|c dw]; [discriminate|].
  destruct rest as [|x rest]; [discriminate|].
  destruct ((x =? 120) || (x =? 88)) eqn:X; [|discriminate].
  destruct (Size.takeDigits rest) as [dh rest'] eqn:T2.
  destruct (takeDigits_spec rest dh rest' T2) as [-> F2].
  destruct dh as [|c' dh]; [discriminate|].
  destruct rest'; [|discriminate].
  intros [= <- <-]. exists x. rewrite app_nil_r.
  repeat split; auto; try discriminate.
  apply orb_prop in X as [X|X]; apply Z.eqb_eq in X; auto.
Qed.

(** X28. [Size.fromString] accepts exactly the texts made of a non-empty
    run of decimal digits, the letter x in either case, and another
    non-empty run of digits, whose two numbers lie between 10 and 1000; it
    returns those two numbers.  Signs, spaces, decimal points and any
    other separator make it throw. *)
Theorem X28_size_texts (str : jsstring) (sz : Size.t) :
  Size.fromString str = Ok sz
  <-> exists (dw dh : jsstring) (sep : Z),
      str = dw ++ sep :: dh
      /\ forallb Size.isDigit dw = true /\ forallb Size.isDigit dh = true
      /\ dw <> [] /\ dh <> [] /\ (sep = 120 \/ sep = 88)
      /\ parseInt dw 10 = Int (Size.width sz)
      /\ parseInt dh 10 = Int (Size.height sz)
      /\ sizeInRange sz.
Proof.
  split.
  - unfold Size.fromString.
    destruct (Size.matchWxH str) as [[w h]|] eqn:M; [|discriminate].
    intros C. destruct (matchWxH_spec str w h M)
      as (sep & -> & Fw & Fh & Nw & Nh & Hsep).
    destruct (Size_create_ok _ _ _ C) as (Pw & Ph & R).
    exists w, h, sep. repeat split; auto; apply R.
  - intros (dw & dh & sep & -> & Fw & Fh & Nw & Nh & Hsep & Pw & Ph & [Rw Rh]).
    unfold Size.fromString. rewrite matchWxH_digits by assumption.
    rewrite Pw, Ph. destruct sz as [w h].
    now apply Size_create_in_range.
Qed.
